(** * The WhatsApp bridge: a shallow embedding of the Go sources

  The development follows the packages of [whatsapp-bridge/internal]:
  - [GoStrings]  the functions of Go's [strings] package the bridge calls;
  - [Storage]    [storage/store.go]: the sqlite cache and its statements;
  - [WaTypes]    the part of [go.mau.fi/whatsmeow/types] the bridge relies on;
  - [Identity]   the identity resolver ([canonicalizeSender] and friends);
  - [Float64]    Go's [float64] arithmetic, as IEEE 754 binary64;
  - [Bootstrap]  the published [AuthStatus] and its setters;
  - [Sync]       [whatsapp/sync.go]: the live and history event handlers;
  - [Api]        [api/server.go]: the auth wrapper, the mux and revoke;
  - [Audio]      [whatsapp/audio.go]: the Ogg Opus analysis;
  - [Messaging]  [whatsapp/messaging.go]: building and sending a message;
  - [Download]   [DownloadMedia] and the direct path of a media URL;
  - [MediaApi]   [api/server.go]: the send and download handlers;
  - [Props]      the vocabulary of the properties,
  and the properties themselves come last, one section per component.

  Conventions.  Go strings are byte strings, so they are Rocq [string]s; a
  Go [int] is a [Z] (the indices that occur stay far below 2^63), an
  unsigned integer a [Z] with its wrap-around written out where the code
  relies on it; a [[]byte] is a [list byte].  A table with a primary key on
  one text column is a [gmap string _]; the [messages] table, whose
  duplicates the properties talk about, is the list of its rows in rowid
  order.  A Go [error] is an [option string].

  What is not modelled.  The handlers run one at a time (the event
  dispatcher is sequential; no HTTP request interleaves).  A SQL statement
  fails only for a reason the data decides (a constraint, an argument that
  cannot be bound); faults of the environment are modelled where a
  property is about them, in [Reset] and in the revoke handler.  Log
  output is dropped.  Functions of the protocol library, of [net/http], of
  the JWT library and of [math] that the bridge calls are parameters of
  the sections that use them, unless they are simple enough to be written
  out ([types.JID]). *)

From Stdlib Require Import ZArith Lia Bool Ascii String Strings.Byte List DecimalString.
From Stdlib Require Import Floats.SpecFloat.
From stdpp Require Import base decidable option list gmap strings.

#[local] Open Scope string_scope.
#[local] Open Scope Z_scope.

(** Go's [byte]. *)
#[global] Instance byte_eq_dec : EqDecision byte := Byte.byte_eq_dec.

(* ===================================================================== *)
(** * Go's [strings] package, on byte strings *)
(* ===================================================================== *)

Module GoStrings.

Definition byte_is (c : ascii) (n : N) : bool := N.eqb (N_of_ascii c) n.

(** [unicode.IsSpace] on the one-byte code points. *)
Definition space1 (c : ascii) : bool :=
  let n := N_of_ascii c in
  (N.leb 9 n && N.leb n 13) || N.eqb n 32.

(** The two-byte UTF-8 encodings of white space: U+0085 and U+00A0. *)
Definition space2 (c1 c2 : ascii) : bool :=
  byte_is c1 194 && (byte_is c2 133 || byte_is c2 160).

(** The three-byte encodings: U+1680, U+2000..U+200A, U+2028, U+2029,
    U+202F, U+205F and U+3000. *)
Definition space3 (c1 c2 c3 : ascii) : bool :=
  let n3 := N_of_ascii c3 in
  (byte_is c1 225 && byte_is c2 154 && byte_is c3 128)
  || (byte_is c1 226 && byte_is c2 128
      && ((N.leb 128 n3 && N.leb n3 138) || N.eqb n3 168 || N.eqb n3 169
          || N.eqb n3 175))
  || (byte_is c1 226 && byte_is c2 129 && byte_is c3 159)
  || (byte_is c1 227 && byte_is c2 128 && byte_is c3 128).

(** [strings.TrimLeftFunc(s, unicode.IsSpace)]: runes are decoded from the
    front; a byte sequence that is not the encoding of a white-space rune
    stops the scan. *)
Fixpoint TrimLeftSpace (s : string) : string :=
  match s with
  | EmptyString => EmptyString
  | String c1 r1 =>
      if space1 c1 then TrimLeftSpace r1
      else
        match r1 with
        | EmptyString => s
        | String c2 r2 =>
            if space2 c1 c2 then TrimLeftSpace r2
            else
              match r2 with
              | EmptyString => s
              | String c3 r3 =>
                  if space3 c1 c2 c3 then TrimLeftSpace r3 else s
              end
        end
  end.

Fixpoint rev_onto (s acc : string) : string :=
  match s with
  | EmptyString => acc
  | String c r => rev_onto r (String c acc)
  end.

Definition reverse (s : string) : string := rev_onto s EmptyString.

(** The same scan from the back ([utf8.DecodeLastRuneInString]): the
    encodings are matched in reverse on the reversed string.  A lead byte
    (C2, E1, E2, E3) is never a continuation byte, so a matched suffix is
    exactly the last rune. *)
Fixpoint TrimLeftSpaceRev (s : string) : string :=
  match s with
  | EmptyString => EmptyString
  | String c1 r1 =>
      if space1 c1 then TrimLeftSpaceRev r1
      else
        match r1 with
        | EmptyString => s
        | String c2 r2 =>
            if space2 c2 c1 then TrimLeftSpaceRev r2
            else
              match r2 with
              | EmptyString => s
              | String c3 r3 =>
                  if space3 c3 c2 c1 then TrimLeftSpaceRev r3 else s
              end
        end
  end.

Definition TrimRightSpace (s : string) : string :=
  reverse (TrimLeftSpaceRev (reverse s)).

(** [strings.TrimSpace]. *)
Definition TrimSpace (s : string) : string :=
  TrimRightSpace (TrimLeftSpace s).

(** [strings.Contains(s, string(c))] for a one-byte separator. *)
Fixpoint ContainsByte (c : ascii) (s : string) : bool :=
  match s with
  | EmptyString => false
  | String d r => if Ascii.eqb c d then true else ContainsByte c r
  end.

(** [strings.SplitN(s, string(c), 2)[0]]: what precedes the first [c]
    (all of [s] when there is none). *)
Fixpoint BeforeByte (c : ascii) (s : string) : string :=
  match s with
  | EmptyString => EmptyString
  | String d r => if Ascii.eqb c d then EmptyString else String d (BeforeByte c r)
  end.

(** [strings.HasPrefix(s, p)]. *)
Fixpoint HasPrefix (s p : string) : bool :=
  match p, s with
  | EmptyString, _ => true
  | String _ _, EmptyString => false
  | String a p', String b s' => Ascii.eqb a b && HasPrefix s' p'
  end.

(** [strings.TrimPrefix(s, p)]. *)
Fixpoint drop_bytes (n : nat) (s : string) : string :=
  match n, s with
  | O, _ => s
  | S _, EmptyString => EmptyString
  | S n', String _ r => drop_bytes n' r
  end.

Definition TrimPrefix (s p : string) : string :=
  if HasPrefix s p then drop_bytes (String.length p) s else s.

(** [strings.Contains(s, sub)]. *)
Fixpoint Contains (s sub : string) : bool :=
  HasPrefix s sub
  || match s with
     | EmptyString => false
     | String _ r => Contains r sub
     end.

(** [strings.FieldsFunc(s, sep)] for a predicate on one-byte runes: the
    maximal runs of non-separators, empty runs dropped. *)
Fixpoint fields_aux (sep : ascii -> bool) (cur : string) (s : string) : list string :=
  match s with
  | EmptyString => if String.eqb cur "" then [] else [reverse cur]
  | String c r =>
      if sep c
      then (if String.eqb cur "" then fields_aux sep "" r
            else reverse cur :: fields_aux sep "" r)
      else fields_aux sep (String c cur) r
  end.

Definition FieldsFunc (s : string) (sep : ascii -> bool) : list string :=
  fields_aux sep "" s.

End GoStrings.

(* ===================================================================== *)
(** * [internal/storage/store.go] *)
(* ===================================================================== *)

Module Storage.
Import GoStrings.

(** A [time.Time] as the instant it denotes (seconds).  The engine orders
    two TIMESTAMP values as the driver wrote them, which is the order of
    their instants when both were written with the same UTC offset.  The
    two merges that compare times, [upsert_alias] and [merge_chat], are
    written for that case, and nothing that is proved of them depends on
    which of two times the engine takes for the later one. *)
Definition Time := Z.

(** A Go [error]: [None] is [nil], [Some m] an error whose text is [m]. *)
Definition error := option string.

(** ** The schema of [NewMessageStore] *)

(** [chats (jid TEXT PRIMARY KEY, name TEXT, last_message_time TIMESTAMP)]:
    the two payload columns are nullable (the migrations and
    [PromoteCanonicalChat] copy NULLs around). *)
Record ChatRow := mkChat {
  chat_name : option string;
  chat_last_message_time : option Time
}.

(** [messages (..., PRIMARY KEY (id, chat_jid),
    FOREIGN KEY (chat_jid) REFERENCES chats(jid))], a row as [StoreMessage]
    binds it: Go strings and numbers are never NULL. *)
Record MessageRow := mkMessage {
  msg_id : string;
  msg_chat_jid : string;
  msg_sender : string;
  msg_content : string;
  msg_timestamp : Time;
  msg_is_from_me : bool;
  msg_media_type : string;
  msg_filename : string;
  msg_url : string;
  msg_media_key : list byte;
  msg_file_sha256 : list byte;
  msg_file_enc_sha256 : list byte;
  msg_file_length : Z
}.

(** [sender_id_aliases (alias_id TEXT PRIMARY KEY, canonical_id TEXT NOT
    NULL, updated_at TIMESTAMP NOT NULL)]. *)
Record AliasRow := mkAlias {
  alias_canonical_id : string;
  alias_updated_at : Time
}.

Record MessageStore := mkStore {
  chats : gmap string ChatRow;
  messages : list MessageRow;
  sender_id_aliases : gmap string AliasRow
}.

#[global] Instance ChatRow_eq_dec : EqDecision ChatRow.
Proof. solve_decision. Defined.
#[global] Instance MessageRow_eq_dec : EqDecision MessageRow.
Proof. solve_decision. Defined.
#[global] Instance AliasRow_eq_dec : EqDecision AliasRow.
Proof. solve_decision. Defined.

(** The tables right after [CREATE TABLE IF NOT EXISTS] on a new file. *)
Definition fresh : MessageStore := mkStore ∅ [] ∅.

Definition with_chats (c : gmap string ChatRow) (s : MessageStore) : MessageStore :=
  mkStore c (messages s) (sender_id_aliases s).
Definition with_messages (m : list MessageRow) (s : MessageStore) : MessageStore :=
  mkStore (chats s) m (sender_id_aliases s).
Definition with_aliases (a : gmap string AliasRow) (s : MessageStore) : MessageStore :=
  mkStore (chats s) (messages s) a.

(** The primary key of a message row. *)
Definition msg_key (r : MessageRow) : string * string := (msg_id r, msg_chat_jid r).

(** The errors of the engine that depend on the data alone.  The
    connection is opened with [_foreign_keys=on], so the declared foreign
    key is enforced at the end of every statement. *)
Definition err_foreign_key : string := "FOREIGN KEY constraint failed".
Definition err_unique_messages : string :=
  "UNIQUE constraint failed: messages.id, messages.chat_jid".
(** [database/sql] refuses to bind a [uint64] whose high bit is set. *)
Definition err_uint64 : string :=
  "sql: converting argument $13 type: uint64 values with high bit set are not supported".

(** ** [Reset] *)

(** Where the environment makes the reset transaction fail, if at all:
    at [Begin], at the [n]-th DELETE, or at [Commit]. *)
Inductive ResetFault :=
| NoFault
| BeginFails (e : string)
| ExecFails (n : nat) (e : string)
| CommitFails (e : string).

(** The three DELETE statements, in the order of the source. *)
Definition reset_statements : list (MessageStore -> MessageStore) :=
  [ with_messages []; with_chats ∅; with_aliases ∅ ].

(** Runs the statements of the transaction; [Some e] when statement
    number [failing] (counted from [k]) fails. *)
Fixpoint exec_all (stmts : list (MessageStore -> MessageStore)) (k : nat)
    (failing : option (nat * string)) (tx : MessageStore) : MessageStore + string :=
  match stmts with
  | [] => inl tx
  | stmt :: rest =>
      match failing with
      | Some (n, e) =>
          if Nat.eqb n k then inr e else exec_all rest (S k) failing (stmt tx)
      | None => exec_all rest (S k) failing (stmt tx)
      end
  end.

(** [func (store *MessageStore) Reset() error], on a store that is not nil:
    one transaction; a failed statement rolls it back, a failed commit
    leaves the tables as they were.  (A fault at a statement number past
    the third never happens.) *)
Definition Reset (fault : ResetFault) (store : MessageStore) : MessageStore * error :=
  match fault with
  | BeginFails e => (store, Some ("failed to start reset transaction: " ++ e))
  | ExecFails n e =>
      match exec_all reset_statements 0 (Some (n, e)) store with
      | inr execErr => (store, Some ("failed to reset message store: " ++ execErr))
      | inl tx => (tx, None)
      end
  | CommitFails e =>
      match exec_all reset_statements 0 None store with
      | inr execErr => (store, Some ("failed to reset message store: " ++ execErr))
      | inl _ => (store, Some ("failed to commit reset transaction: " ++ e))
      end
  | NoFault =>
      match exec_all reset_statements 0 None store with
      | inr execErr => (store, Some ("failed to reset message store: " ++ execErr))
      | inl tx => (tx, None)
      end
  end.

(** ** [StoreChat] *)

(** [INSERT OR REPLACE INTO chats (jid, name, last_message_time) VALUES
    (?, ?, ?)]: the row of [jid], if any, is replaced by the bound values.
    (The foreign key of [messages] is checked when the statement ends,
    where the parent row is there again.) *)
Definition StoreChat (jid name : string) (lastMessageTime : Time)
    (store : MessageStore) : MessageStore * error :=
  (with_chats (<[jid := mkChat (Some name) (Some lastMessageTime)]> (chats store)) store,
   None).

(** ** [normalizeSenderID] *)

Definition normalizeSenderID (id : string) : string :=
  let normalized := TrimSpace id in
  if String.eqb normalized "" then ""
  else if ContainsByte "@"%char normalized then BeforeByte "@"%char normalized
  else normalized.

(** ** [StoreSenderAliases] *)

(** One execution of the prepared statement: [INSERT ... ON CONFLICT
    (alias_id) DO UPDATE SET canonical_id = excluded.canonical_id,
    updated_at = CASE WHEN excluded.updated_at > updated_at THEN
    excluded.updated_at ELSE updated_at END].  The comparison is written
    on the instants (see [Time]). *)
Definition upsert_alias (canonical : string) (updatedAt : Time)
    (tbl : gmap string AliasRow) (alias : string) : gmap string AliasRow :=
  match tbl !! alias with
  | None => <[alias := mkAlias canonical updatedAt]> tbl
  | Some old =>
      <[alias := mkAlias canonical
                   (if Z.ltb (alias_updated_at old) updatedAt
                    then updatedAt else alias_updated_at old)]> tbl
  end.

(** The keys of the Go map [unique]: the canonical id and every alias
    whose normal form is not empty.  Go ranges over a map in an
    unspecified order; the rows written have distinct keys, so the order
    does not show (lemma [upsert_alias_comm]). *)
Definition alias_keys (canonical : string) (aliases : list string) : list string :=
  remove_dups (canonical :: filter (λ a, a ≠ "") (normalizeSenderID <$> aliases)).

Definition StoreSenderAliases (canonicalID : string) (aliases : list string)
    (updatedAt : Time) (store : MessageStore) : MessageStore * error :=
  let canonical := normalizeSenderID canonicalID in
  if String.eqb canonical "" then (store, None)
  else
    let unique := alias_keys canonical aliases in
    (with_aliases
       (foldl (upsert_alias canonical updatedAt) (sender_id_aliases store) unique)
       store,
     None).

(** ** [PromoteCanonicalSender] *)

(** The keys of [unique] there: normal forms that are neither empty nor
    the canonical id. *)
Definition promote_keys (canonical : string) (aliases : list string) : list string :=
  remove_dups (filter (λ a, a ≠ "" ∧ a ≠ canonical) (normalizeSenderID <$> aliases)).

Definition set_sender (canonical : string) (r : MessageRow) : MessageRow :=
  mkMessage (msg_id r) (msg_chat_jid r) canonical (msg_content r) (msg_timestamp r)
    (msg_is_from_me r) (msg_media_type r) (msg_filename r) (msg_url r)
    (msg_media_key r) (msg_file_sha256 r) (msg_file_enc_sha256 r) (msg_file_length r).

(** [UPDATE messages SET sender = ? WHERE sender IN (?, ..., ?)]. *)
Definition update_sender_in (canonical : string) (promoteFrom : list string)
    (r : MessageRow) : MessageRow :=
  if bool_decide (msg_sender r ∈ promoteFrom) then set_sender canonical r else r.

Definition PromoteCanonicalSender (canonicalID : string) (aliases : list string)
    (store : MessageStore) : MessageStore * error :=
  let canonical := normalizeSenderID canonicalID in
  if String.eqb canonical "" then (store, None)
  else
    let promoteFrom := promote_keys canonical aliases in
    if Nat.eqb (length promoteFrom) 0 then (store, None)
    else
      (with_messages (update_sender_in canonical promoteFrom <$> messages store) store,
       None).

(** ** [PromoteCanonicalChat] *)

(** The [ON CONFLICT(jid) DO UPDATE SET name = CASE ..., last_message_time
    = CASE ...] of the chat merge: [existing] is the row in the table,
    [excluded] the row that was to be inserted.  The comparison of two
    times is written on the instants (see [Time]). *)
Definition merge_chat (existing excluded : ChatRow) : ChatRow :=
  mkChat
    (match chat_name existing with
     | Some n => if String.eqb n "" then chat_name excluded else Some n
     | None => chat_name excluded
     end)
    (match chat_last_message_time existing, chat_last_message_time excluded with
     | None, e => e
     | Some c, None => Some c
     | Some c, Some e => if Z.ltb c e then Some e else Some c
     end).

Definition set_chat_jid (canonical : string) (r : MessageRow) : MessageRow :=
  mkMessage (msg_id r) canonical (msg_sender r) (msg_content r) (msg_timestamp r)
    (msg_is_from_me r) (msg_media_type r) (msg_filename r) (msg_url r)
    (msg_media_key r) (msg_file_sha256 r) (msg_file_enc_sha256 r) (msg_file_length r).

(** The three statements run for one alias inside the transaction. *)
Definition promote_chat_alias (canonical : string) (tx : MessageStore)
    (alias : string) : MessageStore + string :=
  (* INSERT INTO chats SELECT ?, name, last_message_time FROM chats
     WHERE jid = ? ON CONFLICT(jid) DO UPDATE ... *)
  let chats1 :=
    match chats tx !! alias with
    | None => chats tx
    | Some src =>
        match chats tx !! canonical with
        | None => <[canonical := src]> (chats tx)
        | Some cur => <[canonical := merge_chat cur src]> (chats tx)
        end
    end in
  (* UPDATE messages SET chat_jid = ? WHERE chat_jid = ? *)
  let moved := filter (λ r, msg_chat_jid r = alias) (messages tx) in
  let kept := filter (λ r, msg_chat_jid r ≠ alias) (messages tx) in
  if bool_decide (Exists (λ r, (msg_id r, canonical) ∈ msg_key <$> kept) moved)
  then inr err_unique_messages
  else if bool_decide (moved ≠ [] ∧ chats1 !! canonical = None)
  then inr err_foreign_key
  else
    let messages1 :=
      (λ r, if bool_decide (msg_chat_jid r = alias) then set_chat_jid canonical r else r)
        <$> messages tx in
    (* DELETE FROM chats WHERE jid = ? *)
    inl (mkStore (delete alias chats1) messages1 (sender_id_aliases tx)).

Fixpoint promote_chat_all (canonical : string) (tx : MessageStore)
    (aliases : list string) : MessageStore + string :=
  match aliases with
  | [] => inl tx
  | alias :: rest =>
      match promote_chat_alias canonical tx alias with
      | inr e => inr e
      | inl tx' => promote_chat_all canonical tx' rest
      end
  end.

(** [PromoteCanonicalChat]: the loop ranges over the map [unique]; the
    model takes its keys in the order [promote_keys] lists them.  An error
    rolls the transaction back. *)
Definition PromoteCanonicalChat (canonicalID : string) (aliases : list string)
    (store : MessageStore) : MessageStore * error :=
  let canonical := normalizeSenderID canonicalID in
  if String.eqb canonical "" then (store, None)
  else
    let unique := promote_keys canonical aliases in
    if Nat.eqb (length unique) 0 then (store, None)
    else
      match promote_chat_all canonical store unique with
      | inr e => (store, Some e)
      | inl tx => (tx, None)
      end.

(** ** [StoreMessage] *)

(** [INSERT OR REPLACE INTO messages (...) VALUES (...)].  The arguments
    are bound first, and [database/sql] refuses a [uint64] of 2^63 or more.
    Then a row with the same primary key is deleted and the new row is
    added at the end.  REPLACE resolves the conflict on the primary key
    only: the statement fails when [chat_jid] has no row in [chats], since
    [NewMessageStore] opens the file with [_foreign_keys=on]. *)
Definition insert_or_replace_message (r : MessageRow) (store : MessageStore)
    : MessageStore * error :=
  if Z.leb (2 ^ 63) (msg_file_length r) then (store, Some err_uint64)
  else
    match chats store !! msg_chat_jid r with
    | None => (store, Some err_foreign_key)
    | Some _ =>
        (with_messages (filter (λ x, msg_key x ≠ msg_key r) (messages store) ++ [r]) store,
         None)
    end.

Definition StoreMessage (id chatJID sender content : string) (timestamp : Time)
    (isFromMe : bool) (mediaType filename url : string)
    (mediaKey fileSHA256 fileEncSHA256 : list byte) (fileLength : Z)
    (store : MessageStore) : MessageStore * error :=
  if String.eqb content "" && String.eqb mediaType "" then (store, None)
  else
    insert_or_replace_message
      (mkMessage id chatJID sender content timestamp isFromMe mediaType filename url
         mediaKey fileSHA256 fileEncSHA256 fileLength)
      store.

(** [StoreMessage] at the columns of a row. *)
Definition StoreMessageRow (r : MessageRow) : MessageStore -> MessageStore * error :=
  StoreMessage (msg_id r) (msg_chat_jid r) (msg_sender r) (msg_content r)
    (msg_timestamp r) (msg_is_from_me r) (msg_media_type r) (msg_filename r)
    (msg_url r) (msg_media_key r) (msg_file_sha256 r) (msg_file_enc_sha256 r)
    (msg_file_length r).

(** ** [GetChatName] and [StoreMediaInfo] *)

(** [SELECT name FROM chats WHERE jid = ?] scanned into a Go string:
    [None] is the error of a missing row or of a NULL name. *)
Definition GetChatName (jid : string) (store : MessageStore) : option string :=
  match chats store !! jid with
  | Some row => chat_name row
  | None => None
  end.

(** [UPDATE messages SET url = ?, media_key = ?, file_sha256 = ?,
    file_enc_sha256 = ?, file_length = ? WHERE id = ? AND chat_jid = ?]. *)
Definition StoreMediaInfo (id chatJID url : string)
    (mediaKey fileSHA256 fileEncSHA256 : list byte) (fileLength : Z)
    (store : MessageStore) : MessageStore * error :=
  if Z.leb (2 ^ 63) fileLength then (store, Some err_uint64)
  else
    (with_messages
       ((λ r, if bool_decide (msg_key r = (id, chatJID))
              then mkMessage (msg_id r) (msg_chat_jid r) (msg_sender r) (msg_content r)
                     (msg_timestamp r) (msg_is_from_me r) (msg_media_type r)
                     (msg_filename r) url mediaKey fileSHA256 fileEncSHA256 fileLength
              else r) <$> messages store)
       store,
     None).

(** ** The read queries *)

(** The error of [QueryRow(...).Scan(...)] when the query selects no row
    ([sql.ErrNoRows]). *)
Definition err_no_rows : string := "sql: no rows in result set".

(** The row that [SELECT ... FROM messages WHERE id = ? AND chat_jid = ?]
    hands to [Scan]: the first one that matches. *)
Definition message_row (id chatJID : string) (store : MessageStore) : option MessageRow :=
  head (filter (λ r, msg_key r = (id, chatJID)) (messages store)).

(** The seven results of [GetMediaInfo] before its error. *)
Record MediaColumns := mkMediaColumns {
  col_media_type : string;
  col_filename : string;
  col_url : string;
  col_media_key : list byte;
  col_file_sha256 : list byte;
  col_file_enc_sha256 : list byte;
  col_file_length : Z
}.

(** [GetMediaInfo]: the columns of a row that [StoreMessage] bound scan
    without error; without a row the results keep their zero values. *)
Definition GetMediaInfo (id chatJID : string) (store : MessageStore)
    : MediaColumns * error :=
  match message_row id chatJID store with
  | Some r =>
      (mkMediaColumns (msg_media_type r) (msg_filename r) (msg_url r) (msg_media_key r)
         (msg_file_sha256 r) (msg_file_enc_sha256 r) (msg_file_length r),
       None)
  | None => (mkMediaColumns "" "" "" [] [] [] 0, Some err_no_rows)
  end.

(** [GetMessageMediaTypeAndFilename]. *)
Definition GetMessageMediaTypeAndFilename (id chatJID : string) (store : MessageStore)
    : (string * string) * error :=
  match message_row id chatJID store with
  | Some r => ((msg_media_type r, msg_filename r), None)
  | None => (("", ""), Some err_no_rows)
  end.

(** [GetChats]: the rows are scanned into a Go map, so their order does not
    show; [Scan] fails on a NULL [last_message_time], and [None] is that
    error. *)
Definition GetChats (store : MessageStore) : option (gmap string Time) :=
  if bool_decide (map_Forall (λ _ row, is_Some (chat_last_message_time row)) (chats store))
  then Some (omap chat_last_message_time (chats store))
  else None.

End Storage.

(* ===================================================================== *)
(** * [go.mau.fi/whatsmeow/types]: what the bridge uses of a JID *)
(* ===================================================================== *)

Module WaTypes.

(** [types.JID]. *)
Record JID := mkJID {
  User : string;
  RawAgent : Z;
  Device : Z;
  Integrator : Z;
  Server : string
}.

Definition DefaultUserServer : string := "s.whatsapp.net".
Definition HiddenUserServer : string := "lid".
Definition GroupServer : string := "g.us".

(** The zero value [types.JID{}]. *)
Definition EmptyJID : JID := mkJID "" 0 0 0 "".

Definition NewJID (user server : string) : JID := mkJID user 0 0 0 server.

(** [jid.ToNonAD()] keeps the user, the server and the integrator. *)
Definition ToNonAD (jid : JID) : JID :=
  mkJID (User jid) 0 0 (Integrator jid) (Server jid).

(** [jid.IsEmpty()]: [len(jid.Server) == 0]. *)
Definition IsEmpty (jid : JID) : bool := String.eqb (Server jid) "".

Definition decimal (n : Z) : string := NilZero.string_of_uint (N.to_uint (Z.to_N n)).

(** [jid.String()]. *)
Definition JIDString (jid : JID) : string :=
  if Z.ltb 0 (RawAgent jid)
  then User jid ++ "." ++ decimal (RawAgent jid) ++ ":" ++ decimal (Device jid)
       ++ "@" ++ Server jid
  else if Z.ltb 0 (Device jid)
  then User jid ++ ":" ++ decimal (Device jid) ++ "@" ++ Server jid
  else if Nat.ltb 0 (String.length (User jid))
  then User jid ++ "@" ++ Server jid
  else Server jid.

(** [client.Store.LIDs]: the two lookups of the LID index; [None] is a
    non-nil error. *)
Record LIDStore := mkLIDStore {
  GetPNForLID : JID -> option JID;
  GetLIDForPN : JID -> option JID
}.

(** What the handlers read of a [*whatsmeow.Client] (never nil where they
    run, and its [Store] neither): the device id, the LID index, and the
    answers of the group-info request and of the contact store, each [None]
    on error. *)
Record Client := mkClient {
  StoreID : option JID;
  LIDs : option LIDStore;
  GetGroupInfoName : JID -> option string;
  GetContactFullName : JID -> option string
}.

End WaTypes.

(* ===================================================================== *)
(** * The identity resolver (package [whatsapp]) *)
(* ===================================================================== *)

Module Identity.
Import GoStrings WaTypes.

(** [normalizeSenderID], the copy of package [whatsapp]. *)
Definition normalizeSenderID (id : string) : string :=
  let normalized := TrimSpace id in
  if String.eqb normalized "" then ""
  else if ContainsByte "@"%char normalized then BeforeByte "@"%char normalized
  else normalized.

(** The closure [add] over the set [ids]; the set is kept as the list of its
    members in the order they were first added. *)
Definition add (ids : list string) (id : string) : list string :=
  let normalized := normalizeSenderID id in
  if negb (String.eqb normalized "")
  then (if bool_decide (normalized ∈ ids) then ids else ids ++ [normalized])
  else ids.

(** The counterpart of [jid] in the other address space, when the LID index
    knows one: the [if ... else if ...] on [jid.Server] in [senderAliasIDs]. *)
Definition counterpart (lids : LIDStore) (jid : JID) : option string :=
  if String.eqb (Server jid) HiddenUserServer
  then match GetPNForLID lids jid with
       | Some pn => if negb (IsEmpty pn) then Some (User pn) else None
       | None => None
       end
  else if String.eqb (Server jid) DefaultUserServer
  then match GetLIDForPN lids jid with
       | Some lid => if negb (IsEmpty lid) then Some (User lid) else None
       | None => None
       end
  else None.

Definition add_opt (ids : list string) (id : option string) : list string :=
  match id with
  | Some s => add ids s
  | None => ids
  end.

Definition senderAliasIDs (client : Client) (senderJID senderAlt : JID)
    (canonicalID : string) : list string :=
  let senderJID := ToNonAD senderJID in
  let senderAlt := ToNonAD senderAlt in
  let ids := add [] canonicalID in
  let ids := add ids (User senderJID) in
  let ids := add ids (User senderAlt) in
  match LIDs client with
  | Some lids =>
      let ids := add_opt ids (counterpart lids senderJID) in
      add_opt ids (counterpart lids senderAlt)
  | None => ids
  end.

Definition canonicalizeSender (client : Client) (senderJID senderAlt : JID) : string :=
  let senderJID := ToNonAD senderJID in
  let senderAlt := ToNonAD senderAlt in
  if IsEmpty senderJID then ""
  else
    let canonical :=
      if negb (IsEmpty senderAlt) && String.eqb (Server senderAlt) DefaultUserServer
      then senderAlt else senderJID in
    let canonical :=
      if String.eqb (Server canonical) HiddenUserServer
      then match LIDs client with
           | Some lids =>
               match GetPNForLID lids canonical with
               | Some pn => if negb (IsEmpty pn) then ToNonAD pn else canonical
               | None => canonical
               end
           | None => canonical
           end
      else canonical in
    if negb (String.eqb (User canonical) "") then User canonical
    else User senderJID.

Definition canonicalizeChatID (client : Client) (chatJID : JID) : string :=
  let normalized := ToNonAD chatJID in
  if IsEmpty normalized then ""
  else if String.eqb (Server normalized) "g.us" then JIDString normalized
  else canonicalizeSender client normalized EmptyJID.

(** [chatAliasIDs]: Go's [nil] slice is the empty list. *)
Definition chatAliasIDs (client : Client) (chatJID : JID) (canonicalChatID : string)
    : list string :=
  let normalized := ToNonAD chatJID in
  if IsEmpty normalized || String.eqb (Server normalized) "g.us" then []
  else senderAliasIDs client normalized EmptyJID canonicalChatID.

Section ParseSender.
(** [types.ParseJID], of the protocol library: [None] is a parse error. *)
Variable ParseJID : string -> option JID.

Definition parseSenderJID (sender : string) : JID :=
  let sender := TrimSpace sender in
  if String.eqb sender "" then EmptyJID
  else
    match (if ContainsByte "@"%char sender then ParseJID sender else None) with
    | Some parsed => ToNonAD parsed
    | None => NewJID sender DefaultUserServer
    end.
End ParseSender.

End Identity.

(* ===================================================================== *)
(** * Go's [float64], as IEEE 754 binary64 *)
(* ===================================================================== *)

Module Float64.

Definition prec : Z := 53.
Definition emax : Z := 1024.

Definition float64 := spec_float.

(** [float64(n)] for an integer [n]: rounded to nearest, ties to even. *)
Definition of_Z (n : Z) : float64 := binary_normalize prec emax n 0 false.

Definition add : float64 -> float64 -> float64 := SFadd prec emax.
Definition sub : float64 -> float64 -> float64 := SFsub prec emax.
Definition mul : float64 -> float64 -> float64 := SFmul prec emax.
Definition div : float64 -> float64 -> float64 := SFdiv prec emax.
Definition ltb : float64 -> float64 -> bool := SFltb.

(** The integer part of a finite value (rounding toward zero). *)
Definition trunc (x : float64) : option Z :=
  match x with
  | S754_zero _ => Some 0
  | S754_finite s m e =>
      let a := if Z.leb 0 e then Z.shiftl (Zpos m) e else Z.shiftr (Zpos m) (- e) in
      Some (if s then - a else a)
  | _ => None
  end.

(** A conversion [T(x)] of a [float64] to an integer type with the values
    [lo..hi]: the integer part when it fits; otherwise Go leaves the result
    to the implementation, here [other x]. *)
Definition to_integer (other : float64 -> Z) (lo hi : Z) (x : float64) : Z :=
  match trunc x with
  | Some z => if Z.leb lo z && Z.leb z hi then z else other x
  | None => other x
  end.

(** [math.Ceil]. *)
Definition Ceil (x : float64) : float64 :=
  match x with
  | S754_finite s m e =>
      if Z.leb 0 e then x
      else
        let q := Z.shiftr (Zpos m) (- e) in
        let exact := Z.eqb (Z.shiftl q (- e)) (Zpos m) in
        if s then (if Z.eqb q 0 then S754_zero true else of_Z (- q))
        else of_Z (if exact then q else q + 1)
  | _ => x
  end.

End Float64.

(* ===================================================================== *)
(** * Package [bootstrap]: the published [AuthStatus] *)
(* ===================================================================== *)

Module Bootstrap.

(** [AuthStatus], without [UpdatedAt] (the wall clock at the write). *)
Record AuthStatus := mkAuthStatus {
  State : string;
  Connected : bool;
  Message : string;
  QRCode : string;
  QRImageDataURL : string;
  SyncProgress : Z;
  SyncCurrent : Z;
  SyncTotal : Z
}.

(** The package variable [authStatusState], together with the sequence of
    the values written to it so far (oldest first), which is what a client
    polling the status can observe. *)
Record StatusCell := mkCell {
  current : AuthStatus;
  published : list AuthStatus
}.

Definition initial : StatusCell :=
  mkCell (mkAuthStatus "disconnected" false "" "" "" 0 0 0) [].

Definition GetAuthStatus (cell : StatusCell) : AuthStatus := current cell.

Definition setAuthStatus (status : AuthStatus) (cell : StatusCell) : StatusCell :=
  mkCell status (published cell ++ [status]).

Definition clampProgress (progress : Z) : Z :=
  if Z.ltb progress 0 then 0
  else if Z.ltb 100 progress then 100
  else progress.

Definition SetConnecting (message : string) : StatusCell -> StatusCell :=
  setAuthStatus (mkAuthStatus "connecting" false message "" "" 0 0 0).

Definition SetConnected (message : string) : StatusCell -> StatusCell :=
  setAuthStatus (mkAuthStatus "connected" true message "" "" 100 0 0).

Definition SetDisconnected (message : string) : StatusCell -> StatusCell :=
  setAuthStatus (mkAuthStatus "disconnected" false message "" "" 0 0 0).

Definition SetLoggedOut (message : string) : StatusCell -> StatusCell :=
  setAuthStatus (mkAuthStatus "logged_out" false message "" "" 0 0 0).

Definition SetAuthError (message : string) : StatusCell -> StatusCell :=
  setAuthStatus (mkAuthStatus "error" false message "" "" 0 0 0).

Definition SetLoggingIn (message : string) : StatusCell -> StatusCell :=
  setAuthStatus (mkAuthStatus "logging_in" false message "" "" 10 0 0).

Definition SetSyncing (message : string) (progress current total : Z)
    : StatusCell -> StatusCell :=
  setAuthStatus
    (mkAuthStatus "syncing" false message "" "" (clampProgress progress) current total).

Definition SetSyncingProgress (progress current total : Z) (cell : StatusCell)
    : StatusCell :=
  let status := GetAuthStatus cell in
  let status :=
    if negb (String.eqb (State status) "syncing")
    then mkAuthStatus "syncing" false
           (if String.eqb (Message status) "" then "Syncing WhatsApp messages"
            else Message status)
           (QRCode status) (QRImageDataURL status)
           (SyncProgress status) (SyncCurrent status) (SyncTotal status)
    else status in
  setAuthStatus
    (mkAuthStatus (State status) (Connected status) (Message status) (QRCode status)
       (QRImageDataURL status) (clampProgress progress) current total)
    cell.

Section AwaitingQR.
(** [qrcode.Encode(qrCode, qrcode.Medium, 256)]: the PNG, [None] on an
    error; and [base64.StdEncoding.EncodeToString]. *)
Variable qrcodeEncode : string -> option (list byte).
Variable base64 : list byte -> string.

Definition SetAwaitingQR (qrCode message : string) : StatusCell -> StatusCell :=
  let qrImageDataURL :=
    if negb (String.eqb qrCode "")
    then match qrcodeEncode qrCode with
         | Some pngBytes => "data:image/png;base64," ++ base64 pngBytes
         | None => ""
         end
    else "" in
  setAuthStatus (mkAuthStatus "awaiting_qr" false message qrCode qrImageDataURL 0 0 0).

End AwaitingQR.

End Bootstrap.

(* ===================================================================== *)
(** * [internal/whatsapp]: messages, and the two event handlers *)
(* ===================================================================== *)

Module Sync.
Import GoStrings WaTypes Identity.
Import Storage.

(** ** The protobuf messages, through their getters *)

(** An image, video, audio or document part: [GetURL], [GetMediaKey],
    [GetFileSHA256], [GetFileEncSHA256], [GetFileLength] and, for a
    document, [GetFileName]. *)
Record Media := mkMedia {
  media_URL : string;
  media_MediaKey : list byte;
  media_FileSHA256 : list byte;
  media_FileEncSHA256 : list byte;
  media_FileLength : Z;
  media_FileName : string
}.

(** [waProto.Message]: [GetConversation] (empty when unset) and the
    optional parts. *)
Record WaMessage := mkWaMessage {
  wa_Conversation : string;
  wa_ExtendedTextMessage : option string;
  wa_ImageMessage : option Media;
  wa_VideoMessage : option Media;
  wa_AudioMessage : option Media;
  wa_DocumentMessage : option Media
}.

(** [extractTextContent] ([messaging.go]). *)
Definition extractTextContent (msg : option WaMessage) : string :=
  match msg with
  | None => ""
  | Some m =>
      if negb (String.eqb (wa_Conversation m) "") then wa_Conversation m
      else match wa_ExtendedTextMessage m with
           | Some text => text
           | None => ""
           end
  end.

(** The seven results of [extractMediaInfo]. *)
Record MediaInfo := mkMediaInfo {
  mi_mediaType : string;
  mi_filename : string;
  mi_url : string;
  mi_mediaKey : list byte;
  mi_fileSHA256 : list byte;
  mi_fileEncSHA256 : list byte;
  mi_fileLength : Z
}.

Definition noMedia : MediaInfo := mkMediaInfo "" "" "" [] [] [] 0.

Definition mediaOf (kind filename : string) (m : Media) : MediaInfo :=
  mkMediaInfo kind filename (media_URL m) (media_MediaKey m) (media_FileSHA256 m)
    (media_FileEncSHA256 m) (media_FileLength m).

(** [extractMediaInfo]; [stamp] is [time.Now().Format("20060102_150405")]
    as read by this call. *)
Definition extractMediaInfo (stamp : string) (msg : option WaMessage) : MediaInfo :=
  match msg with
  | None => noMedia
  | Some m =>
      match wa_ImageMessage m with
      | Some img => mediaOf "image" ("image_" ++ stamp ++ ".jpg") img
      | None =>
      match wa_VideoMessage m with
      | Some vid => mediaOf "video" ("video_" ++ stamp ++ ".mp4") vid
      | None =>
      match wa_AudioMessage m with
      | Some aud => mediaOf "audio" ("audio_" ++ stamp ++ ".ogg") aud
      | None =>
      match wa_DocumentMessage m with
      | Some doc =>
          let docFilename :=
            if String.eqb (media_FileName doc) "" then "document_" ++ stamp
            else media_FileName doc in
          mediaOf "document" docFilename doc
      | None => noMedia
      end end end end
  end.

(** ** [syncSenderAliases], [syncChatAliases]: errors are logged and dropped *)

Definition syncSenderAliases (store : MessageStore) (canonicalID : string)
    (aliases : list string) (ts : Time) : MessageStore :=
  let store := fst (StoreSenderAliases canonicalID aliases ts store) in
  fst (PromoteCanonicalSender canonicalID aliases store).

Definition syncChatAliases (store : MessageStore) (canonicalID : string)
    (aliases : list string) (ts : Time) : MessageStore :=
  let store := fst (StoreSenderAliases canonicalID aliases ts store) in
  fst (PromoteCanonicalChat canonicalID aliases store).

(** ** The events *)

(** [types.MessageInfo], the fields the handler reads. *)
Record MessageInfo := mkMessageInfo {
  info_Chat : JID;
  info_Sender : JID;
  info_SenderAlt : JID;
  info_ID : string;
  info_Timestamp : Time;
  info_IsFromMe : bool
}.

(** [events.Message]. *)
Record MessageEvent := mkMessageEvent {
  evt_Info : MessageInfo;
  evt_Message : option WaMessage
}.

(** [MessageKey], [WebMessageInfo] and [HistorySyncMsg] of a history
    payload; [wmi_MessageTimestamp] is [GetMessageTimestamp()], 0 when
    unset. *)
Record MessageKey := mkMessageKey {
  key_FromMe : option bool;
  key_Participant : option string;
  key_ID : option string
}.

Record WebMessageInfo := mkWebMessageInfo {
  wmi_Key : option MessageKey;
  wmi_Message : option WaMessage;
  wmi_MessageTimestamp : Z
}.

Record HistorySyncMsg := mkHistorySyncMsg {
  hsm_Message : option WebMessageInfo
}.

(** A conversation of [historySync.Data.Conversations]; [conv_DisplayName]
    and [conv_Name] are the two fields [getChatName] finds by reflection. *)
Record Conversation := mkConversation {
  conv_ID : option string;
  conv_Messages : list (option HistorySyncMsg);
  conv_DisplayName : option string;
  conv_Name : option string
}.

(** ** [getChatName] *)

Definition nonEmpty (s : option string) : option string :=
  match s with
  | Some v => if String.eqb v "" then None else Some v
  | None => None
  end.

Definition getChatName (client : Client) (messageStore : MessageStore) (jid : JID)
    (chatJID : string) (conversation : option Conversation) (sender : string) : string :=
  match nonEmpty (GetChatName chatJID messageStore) with
  | Some existingName => existingName
  | None =>
      if String.eqb (Server jid) "g.us"
      then
        let name :=
          match conversation with
          | Some conv =>
              match nonEmpty (conv_DisplayName conv) with
              | Some displayName => displayName
              | None =>
                  match nonEmpty (conv_Name conv) with
                  | Some convName => convName
                  | None => ""
                  end
              end
          | None => ""
          end in
        if String.eqb name ""
        then match nonEmpty (GetGroupInfoName client jid) with
             | Some groupName => groupName
             | None => "Group " ++ User jid
             end
        else name
      else
        match nonEmpty (GetContactFullName client jid) with
        | Some fullName => fullName
        | None => if negb (String.eqb sender "") then sender else User jid
        end
  end.

(** ** [handleMessage] *)

Definition handleMessage (stamp : string) (client : Client)
    (messageStore : MessageStore) (msg : MessageEvent) : MessageStore :=
  let info := evt_Info msg in
  let chatJID := ToNonAD (info_Chat info) in
  let chatID := canonicalizeChatID client chatJID in
  let sender := canonicalizeSender client (info_Sender info) (info_SenderAlt info) in
  let name := getChatName client messageStore chatJID chatID None sender in
  let messageStore := fst (StoreChat chatID name (info_Timestamp info) messageStore) in
  let content := extractTextContent (evt_Message msg) in
  let media := extractMediaInfo stamp (evt_Message msg) in
  if String.eqb content "" && String.eqb (mi_mediaType media) "" then messageStore
  else
    let aliasIDs :=
      senderAliasIDs client (info_Sender info) (info_SenderAlt info) sender in
    let messageStore :=
      syncSenderAliases messageStore sender aliasIDs (info_Timestamp info) in
    let messageStore :=
      if negb (String.eqb (Server chatJID) "g.us")
      then syncChatAliases messageStore chatID (chatAliasIDs client chatJID chatID)
             (info_Timestamp info)
      else messageStore in
    fst (StoreMessage (info_ID info) chatID sender content (info_Timestamp info)
           (info_IsFromMe info) (mi_mediaType media) (mi_filename media) (mi_url media)
           (mi_mediaKey media) (mi_fileSHA256 media) (mi_fileEncSHA256 media)
           (mi_fileLength media) messageStore).

(** ** [handleHistorySync] *)

(** The cache and the published status, which the history handler both
    writes. *)
Record World := mkWorld {
  w_store : MessageStore;
  w_status : Bootstrap.StatusCell
}.

(** [time.Unix(int64(ts), 0)] for a [uint64]. *)
Definition timeUnix (ts : Z) : Time :=
  if Z.ltb ts (2 ^ 63) then ts else ts - 2 ^ 64.

Section History.
Variable ParseJID : string -> option JID.
(** What [int(x)] yields for a [float64] outside the range of [int]. *)
Variable intOutOfRange : Float64.float64 -> Z.
(** The clock reading of [extractMediaInfo] at message [k] of conversation
    [idx]. *)
Variable stampAt : Z -> nat -> string.

(** The variable [progress] of the closure [updateProgress] when it reaches
    [SetSyncingProgress]: [25 + int(float64(processed) /
    float64(totalConversations) * 70)], then the clamp to 95. *)
Definition progressValue (totalConversations processed : Z) : Z :=
  let progress :=
    25 + Float64.to_integer intOutOfRange (- 2 ^ 63) (2 ^ 63 - 1)
           (Float64.mul
              (Float64.div (Float64.of_Z processed) (Float64.of_Z totalConversations))
              (Float64.of_Z 70)) in
  if Z.ltb 95 progress then 95 else progress.

(** The closure [updateProgress]. *)
Definition updateProgress (totalConversations processed : Z)
    (status : Bootstrap.StatusCell) : Bootstrap.StatusCell :=
  if Z.leb totalConversations 0 then status
  else
    Bootstrap.SetSyncingProgress (progressValue totalConversations processed)
      processed totalConversations status.

(** The sender of a history message. *)
Definition historySender (client : Client) (jid : JID) (key : option MessageKey)
    : bool * JID :=
  match key with
  | Some k =>
      let isFromMe := match key_FromMe k with Some b => b | None => false end in
      match (if isFromMe then None else nonEmpty (key_Participant k)) with
      | Some participant => (isFromMe, parseSenderJID ParseJID participant)
      | None =>
          if isFromMe
          then match StoreID client with
               | Some id => (isFromMe, ToNonAD id)
               | None => (isFromMe, ToNonAD jid)
               end
          else (isFromMe, ToNonAD jid)
      end
  | None => (false, ToNonAD jid)
  end.

(** The body of the loop over the messages of one conversation. *)
Definition historyMessage (client : Client) (jid : JID) (chatID : string)
    (stamp : string) (messageStore : MessageStore) (msg : option HistorySyncMsg)
    : MessageStore :=
  match msg with
  | None => messageStore
  | Some hm =>
  match hsm_Message hm with
  | None => messageStore
  | Some wm =>
      let content :=
        match wmi_Message wm with
        | Some m =>
            if negb (String.eqb (wa_Conversation m) "") then wa_Conversation m
            else match wa_ExtendedTextMessage m with
                 | Some text => text
                 | None => ""
                 end
        | None => ""
        end in
      let media :=
        match wmi_Message wm with
        | Some m => extractMediaInfo stamp (Some m)
        | None => noMedia
        end in
      if String.eqb content "" && String.eqb (mi_mediaType media) "" then messageStore
      else
        let '(isFromMe, senderJID) := historySender client jid (wmi_Key wm) in
        let sender := canonicalizeSender client senderJID EmptyJID in
        let msgID :=
          match wmi_Key wm with
          | Some k => match key_ID k with Some id => id | None => "" end
          | None => ""
          end in
        if Z.eqb (wmi_MessageTimestamp wm) 0 then messageStore
        else
          let timestamp := timeUnix (wmi_MessageTimestamp wm) in
          let aliasIDs := senderAliasIDs client senderJID EmptyJID sender in
          let messageStore := syncSenderAliases messageStore sender aliasIDs timestamp in
          fst (StoreMessage msgID chatID sender content timestamp isFromMe
                 (mi_mediaType media) (mi_filename media) (mi_url media)
                 (mi_mediaKey media) (mi_fileSHA256 media) (mi_fileEncSHA256 media)
                 (mi_fileLength media) messageStore)
  end end.

Fixpoint historyMessages (client : Client) (jid : JID) (chatID : string)
    (idx : Z) (k : nat) (messageStore : MessageStore)
    (messages : list (option HistorySyncMsg)) : MessageStore :=
  match messages with
  | [] => messageStore
  | msg :: rest =>
      historyMessages client jid chatID idx (S k)
        (historyMessage client jid chatID (stampAt idx k) messageStore msg) rest
  end.

(** The body of the loop over the conversations: every path, the early
    [continue]s included, reports the progress once. *)
Definition historyConversation (client : Client) (totalConversations idx : Z)
    (conversation : Conversation) (w : World) : World :=
  let processedConversations := idx + 1 in
  let progress := updateProgress totalConversations processedConversations in
  match conv_ID conversation with
  | None => mkWorld (w_store w) (progress (w_status w))
  | Some chatJID =>
  match ParseJID chatJID with
  | None => mkWorld (w_store w) (progress (w_status w))
  | Some jid =>
      let chatID := canonicalizeChatID client jid in
      let name := getChatName client (w_store w) jid chatID (Some conversation) "" in
      match conv_Messages conversation with
      | [] => mkWorld (w_store w) (progress (w_status w))
      | latestMsg :: _ =>
      match (match latestMsg with Some hm => hsm_Message hm | None => None end) with
      | None => mkWorld (w_store w) (progress (w_status w))
      | Some latest =>
          if Z.eqb (wmi_MessageTimestamp latest) 0
          then mkWorld (w_store w) (progress (w_status w))
          else
            let timestamp := timeUnix (wmi_MessageTimestamp latest) in
            let messageStore := fst (StoreChat chatID name timestamp (w_store w)) in
            let messageStore :=
              if negb (String.eqb (Server jid) "g.us")
              then syncChatAliases messageStore chatID (chatAliasIDs client jid chatID)
                     timestamp
              else messageStore in
            let messageStore :=
              historyMessages client jid chatID idx 0 messageStore
                (conv_Messages conversation) in
            mkWorld messageStore (progress (w_status w))
      end end
  end end.

Fixpoint historyLoop (client : Client) (totalConversations idx : Z)
    (conversations : list Conversation) (w : World) : World :=
  match conversations with
  | [] => w
  | conversation :: rest =>
      historyLoop client totalConversations (idx + 1) rest
        (historyConversation client totalConversations idx conversation w)
  end.

Definition handleHistorySync (client : Client) (conversations : list Conversation)
    (w : World) : World :=
  let totalConversations := Z.of_nat (length conversations) in
  let w :=
    if Z.ltb 0 totalConversations
    then mkWorld (w_store w)
           (Bootstrap.SetSyncing "Syncing WhatsApp messages" 25 0 totalConversations
              (w_status w))
    else w in
  let w := historyLoop client totalConversations 0 conversations w in
  if Z.ltb 0 totalConversations
  then mkWorld (w_store w) (Bootstrap.SetConnected "WhatsApp connected" (w_status w))
  else w.

End History.

(** ** [WireEventHandlers]: the [Connected] event *)

(** The event [*events.Connected], up to the start of its goroutine. *)
Definition onConnected (cell : Bootstrap.StatusCell) : Bootstrap.StatusCell :=
  let status := Bootstrap.GetAuthStatus cell in
  if String.eqb (Bootstrap.State status) "awaiting_qr"
     || String.eqb (Bootstrap.State status) "logging_in"
     || String.eqb (Bootstrap.State status) "syncing"
  then Bootstrap.SetSyncing "Syncing WhatsApp messages" 20 0 0 cell
  else Bootstrap.SetConnected "WhatsApp connected" cell.

(** The condition of that goroutine, and what it does when its 20 seconds
    are over. *)
Definition fallbackDue (current : Bootstrap.AuthStatus) : bool :=
  String.eqb (Bootstrap.State current) "syncing"
  && Z.eqb (Bootstrap.SyncTotal current) 0
  && Z.eqb (Bootstrap.SyncCurrent current) 0.

Definition syncFallback (cell : Bootstrap.StatusCell) : Bootstrap.StatusCell :=
  let current := Bootstrap.GetAuthStatus cell in
  if fallbackDue current then Bootstrap.SetConnected "WhatsApp connected" cell
  else cell.

End Sync.

(* ===================================================================== *)
(** * [internal/api]: the control plane *)
(* ===================================================================== *)

Module Api.
Import GoStrings.
Import Storage.

(** ** Requests and responses *)

(** What the auth wrapper and the handlers read of an [*http.Request]:
    [r.Method], [r.URL.Path] and [r.Header.Get("Authorization")] (empty
    when the header is absent). *)
Record Request := mkRequest {
  Method : string;
  Path : string;
  Authorization : string
}.

(** A response body: the text line of [http.Error], the JSON object
    [{success, message}] of [writeJSON], or the redirect of the mux to
    another path. *)
Inductive Body :=
| Text (line : string)
| Json (success : bool) (message : string)
| Redirect (location : string).

Record Response := mkResponse {
  StatusCode : Z;
  ResponseBody : Body
}.

Definition StatusOK : Z := 200.
Definition StatusUnauthorized : Z := 401.
Definition StatusForbidden : Z := 403.
Definition StatusNotFound : Z := 404.
Definition StatusMethodNotAllowed : Z := 405.
Definition StatusInternalServerError : Z := 500.
Definition StatusBadGateway : Z := 502.

Definition httpError (line : string) (code : Z) : Response := mkResponse code (Text line).

Definition writeJSON (statusCode : Z) (success : bool) (message : string) : Response :=
  mkResponse statusCode (Json success message).

(** ** Scopes *)

Definition requiredScopeForRoute (method path : string) : string * bool :=
  if String.eqb method "POST" && String.eqb path "/api/send"
  then ("whatsapp:send", true)
  else if String.eqb method "POST" && String.eqb path "/api/download"
  then ("whatsapp:download", true)
  else if String.eqb method "POST" && String.eqb path "/api/connect"
  then ("whatsapp:connect", true)
  else if String.eqb method "GET" && String.eqb path "/api/auth/status"
  then ("whatsapp:status", true)
  else if String.eqb method "POST" && String.eqb path "/api/disconnect"
  then ("whatsapp:disconnect", true)
  else if String.eqb method "POST" && String.eqb path "/api/disconnect/revoke"
  then ("whatsapp:disconnect", true)
  else ("", false).

Definition scopeSeparator (r : ascii) : bool :=
  Ascii.eqb r ","%char || Ascii.eqb r " "%char.

Definition hasRequiredScope (claimScope requiredScope : string) : bool :=
  if String.eqb requiredScope "" then false
  else
    existsb (fun scope => String.eqb scope requiredScope || String.eqb scope "whatsapp:*")
      (FieldsFunc claimScope scopeSeparator).

(** ** The auth wrapper *)

Record bridgeAuthConfig := mkAuthConfig {
  jwtSecret : string;
  audience : string;
  issuer : string
}.

(** [bridgeJWTClaims]: the custom claims and, of the registered ones, those
    the wrapper looks at. *)
Record bridgeJWTClaims := mkClaims {
  Scope : string;
  RuntimeID : string;
  Subject : string;
  ExpiresAt : option Z;
  IssuedAt : option Z
}.

(** The six handler functions of the package: [sendHandler],
    [downloadHandler], [connectHandler], [authStatusHandler],
    [disconnectHandler] and [revokeDisconnectHandler]. *)
Inductive Handler :=
| HSend
| HDownload
| HConnect
| HAuthStatus
| HDisconnect
| HRevoke.

(** What becomes of a request: it is answered on the spot, or the body of a
    handler (what follows its method check) runs. *)
Inductive Outcome :=
| Replied (resp : Response)
| Entered (h : Handler).

Section Auth.
(** [jwt.ParseWithClaims] with the HS256 key function, [WithAudience] and
    [WithIssuer]: the claims when [err == nil && parsedToken.Valid]. *)
Variable ParseWithClaims : bridgeAuthConfig -> string -> option bridgeJWTClaims.

Definition bearer : string := "Bearer ".

Definition withRequiredBridgeJWTAuth (authConfig : bridgeAuthConfig)
    (next : Request -> Outcome) (r : Request) : Outcome :=
  let authHeader := TrimSpace (Authorization r) in
  if Nat.leb (String.length authHeader) (String.length bearer)
     || negb (HasPrefix authHeader bearer)
  then Replied (httpError "Unauthorized" StatusUnauthorized)
  else
    let '(requiredScope, ok) := requiredScopeForRoute (Method r) (Path r) in
    if negb ok then Replied (httpError "Forbidden" StatusForbidden)
    else
      let rawToken := TrimSpace (TrimPrefix authHeader bearer) in
      match ParseWithClaims authConfig rawToken with
      | None => Replied (httpError "Unauthorized" StatusUnauthorized)
      | Some claims =>
          if bool_decide (ExpiresAt claims = None) || bool_decide (IssuedAt claims = None)
             || String.eqb (TrimSpace (Subject claims)) ""
          then Replied (httpError "Unauthorized" StatusUnauthorized)
          else if String.eqb (TrimSpace (RuntimeID claims)) ""
          then Replied (httpError "Unauthorized" StatusUnauthorized)
          else if negb (hasRequiredScope (Scope claims) requiredScope)
          then Replied (httpError "Forbidden" StatusForbidden)
          else next r
      end.

(** The method a handler insists on, in its first statement. *)
Definition handlerMethod (h : Handler) : string :=
  match h with
  | HAuthStatus => "GET"
  | _ => "POST"
  end.

(** A handler up to the end of its method check. *)
Definition handlerEntry (h : Handler) (r : Request) : Outcome :=
  if negb (String.eqb (Method r) (handlerMethod h))
  then Replied (httpError "Method not allowed" StatusMethodNotAllowed)
  else Entered h.

(** The patterns [StartRESTServer] registers on the mux, each with its
    handler. *)
Definition routes : list (string * Handler) :=
  [ ("/api/send", HSend);
    ("/api/download", HDownload);
    ("/api/connect", HConnect);
    ("/api/auth/status", HAuthStatus);
    ("/api/disconnect", HDisconnect);
    ("/api/disconnect/revoke", HRevoke) ].

Fixpoint muxLookup (table : list (string * Handler)) (path : string) : option Handler :=
  match table with
  | [] => None
  | (pattern, h) :: rest =>
      if String.eqb pattern path then Some h else muxLookup rest path
  end.

(** [net/http]'s [cleanPath]: the canonical form of a request path. *)
Variable cleanPath : string -> string.

Definition StatusMovedPermanently : Z := 301.

(** The server.  The mux redirects a request (other than CONNECT) whose
    path is not in canonical form; a pattern without a trailing slash
    matches its path alone; and the mux answers a path nobody registered
    with 404. *)
Definition serve (authConfig : bridgeAuthConfig) (r : Request) : Outcome :=
  if negb (String.eqb (Method r) "CONNECT")
     && negb (String.eqb (cleanPath (Path r)) (Path r))
  then Replied (mkResponse StatusMovedPermanently (Redirect (cleanPath (Path r))))
  else
    match muxLookup routes (Path r) with
    | Some h => withRequiredBridgeJWTAuth authConfig (handlerEntry h) r
    | None => Replied (httpError "404 page not found" StatusNotFound)
    end.

End Auth.

(** ** Revoke *)

(** The [*whatsmeow.Client] as revoke sees it: [client.Store.ID] and
    whether the socket is up. *)
Record ClientHandle := mkHandle {
  StoreID : option WaTypes.JID;
  IsConnected : bool
}.

(** How [bootstrap.SetupClient] ends. *)
Inductive SetupOutcome :=
| SetupOk (client : ClientHandle)
| MkdirFails (e : string)
| ContainerFails (e : string)
| GetFirstDeviceFails (e : string)
| NewClientNil.

(** What the environment answers during one revoke request: the outcome of
    [SetupClient] should a client be built, the error of the remote
    [client.Logout], the error of [client.Store.Delete], and the fault of
    the cache transaction. *)
Record RevokeEnv := mkRevokeEnv {
  env_setup : SetupOutcome;
  env_logout : error;
  env_delete : error;
  env_reset : ResetFault
}.

(** The runtime ([whatsAppRuntime]: the client slot and the message store),
    the published status, and the client the handler last worked on. *)
Record World := mkWorld {
  rt_client : option ClientHandle;
  rt_messageStore : option MessageStore;
  w_status : Bootstrap.StatusCell;
  w_handle : option ClientHandle
}.

Definition SetupClient (env : RevokeEnv) (status : Bootstrap.StatusCell)
    : Bootstrap.StatusCell * (ClientHandle + string) :=
  let status := Bootstrap.SetConnecting "Initializing WhatsApp client" status in
  match env_setup env with
  | MkdirFails e => (status, inr ("failed to create store directory: " ++ e))
  | ContainerFails e =>
      (Bootstrap.SetAuthError "Failed to initialize WhatsApp device store" status,
       inr ("failed to connect to database: " ++ e))
  | GetFirstDeviceFails e =>
      (Bootstrap.SetAuthError "Failed to load WhatsApp device state" status,
       inr ("failed to get device: " ++ e))
  | NewClientNil =>
      (Bootstrap.SetAuthError "Failed to create WhatsApp client" status,
       inr "failed to create WhatsApp client")
  | SetupOk client => (status, inl client)
  end.

(** [runtime.newClient]. *)
Definition newClient (env : RevokeEnv) (status : Bootstrap.StatusCell)
    : Bootstrap.StatusCell * (ClientHandle + string) :=
  match SetupClient env status with
  | (status, inr err) => (status, inr ("failed to initialize WhatsApp client: " ++ err))
  | (status, inl client) => (status, inl client)
  end.

(** [client.Disconnect()]. *)
Definition Disconnect (client : ClientHandle) : ClientHandle :=
  mkHandle (StoreID client) false.

(** [clearLocalDeviceCredentials]: [client.Store.Delete] forgets the device
    id when it succeeds. *)
Definition clearLocalDeviceCredentials (env : RevokeEnv) (client : ClientHandle)
    : ClientHandle * error :=
  match StoreID client with
  | None => (client, None)
  | Some _ =>
      match env_delete env with
      | None => (mkHandle None (IsConnected client), None)
      | Some e => (client, Some e)
      end
  end.

(** [clearLocalMessageCache]. *)
Definition clearLocalMessageCache (env : RevokeEnv) (messageStore : option MessageStore)
    : option MessageStore * error :=
  match messageStore with
  | None => (None, None)
  | Some store =>
      let '(store, err) := Reset (env_reset env) store in (Some store, err)
  end.

(** The end of the handler, shared by the unlinked client and the
    successful logout: the cache is cleared, [logged_out] is published. *)
Definition finishRevoke (env : RevokeEnv) (w : World) (status : Bootstrap.StatusCell)
    (client : ClientHandle) : World * Response :=
  match clearLocalMessageCache env (rt_messageStore w) with
  | (messageStore, Some err) =>
      (mkWorld None messageStore status (Some client),
       writeJSON StatusInternalServerError false
         ("Failed to clear local WhatsApp data: " ++ err))
  | (messageStore, None) =>
      (mkWorld None messageStore
         (Bootstrap.SetLoggedOut "WhatsApp revoked and local credentials cleared" status)
         (Some client),
       writeJSON StatusOK true "WhatsApp device revoked and local credentials cleared")
  end.

(** The branch [if err := client.Logout(ctx); err != nil]. *)
Definition revokeAfterFailedLogout (env : RevokeEnv) (w : World)
    (status : Bootstrap.StatusCell) (client : ClientHandle) (err : string)
    : World * Response :=
  let client := Disconnect client in
  match clearLocalDeviceCredentials env client with
  | (client, Some cleanupErr) =>
      (mkWorld None (rt_messageStore w) status (Some client),
       writeJSON StatusInternalServerError false
         ("Failed to revoke WhatsApp device (" ++ err
          ++ ") and local cleanup also failed (" ++ cleanupErr ++ ")"))
  | (client, None) =>
      match clearLocalMessageCache env (rt_messageStore w) with
      | (messageStore, Some cacheErr) =>
          (mkWorld None messageStore status (Some client),
           writeJSON StatusInternalServerError false
             ("Failed to revoke WhatsApp device (" ++ err
              ++ "); local credentials were cleared but message cleanup failed ("
              ++ cacheErr ++ ")"))
      | (messageStore, None) =>
          (mkWorld None messageStore
             (Bootstrap.SetLoggedOut
                "WhatsApp local credentials cleared. Re-authentication is required."
                status)
             (Some client),
           writeJSON StatusBadGateway false
             "Failed to revoke WhatsApp device remotely. Local credentials were cleared.")
      end
  end.

(** The client the handler works on: the one [runtime.detachClient()]
    hands over or, when the slot was empty, a new one. *)
Definition acquireClient (env : RevokeEnv) (w : World)
    : Bootstrap.StatusCell * (ClientHandle + string) :=
  match rt_client w with
  | Some client => (w_status w, inl client)
  | None => newClient env (w_status w)
  end.

(** The body of [revokeDisconnectHandler] from [runtime.detachClient()] on. *)
Definition revokeBody (env : RevokeEnv) (w : World) : World * Response :=
  match acquireClient env w with
  | (status, inr err) =>
      (mkWorld None (rt_messageStore w) status None,
       writeJSON StatusInternalServerError false err)
  | (status, inl client) =>
      match StoreID client with
      | Some _ =>
          match env_logout env with
          | Some err => revokeAfterFailedLogout env w status client err
          | None =>
              (* a successful [client.Logout] has disconnected the client
                 and deleted its store itself *)
              finishRevoke env w status (mkHandle None false)
          end
      | None => finishRevoke env w status (Disconnect client)
      end
  end.

(** The handler [revokeDisconnectHandler(runtime)]. *)
Definition revokeDisconnectHandler (env : RevokeEnv) (r : Request) (w : World)
    : World * Response :=
  if negb (String.eqb (Method r) "POST")
  then (w, httpError "Method not allowed" StatusMethodNotAllowed)
  else revokeBody env w.

(** ** Disconnect and the auth status *)

(** [disconnectHandler(runtime)]. *)
Definition disconnectHandler (r : Request) (w : World) : World * Response :=
  if negb (String.eqb (Method r) "POST")
  then (w, httpError "Method not allowed" StatusMethodNotAllowed)
  else
    match rt_client w with
    | None =>
        (mkWorld None (rt_messageStore w) (w_status w) None,
         writeJSON StatusOK true "WhatsApp client is not initialized")
    | Some client =>
        let client := if IsConnected client then Disconnect client else client in
        (mkWorld None (rt_messageStore w)
           (Bootstrap.SetDisconnected "WhatsApp disconnected" (w_status w))
           (Some client),
         writeJSON StatusOK true "WhatsApp disconnected")
    end.

(** [AuthStatusResponse], without [UpdatedAt]. *)
Record AuthStatusResponse := mkAuthStatusResponse {
  resp_State : string;
  resp_Connected : bool;
  resp_Message : string;
  resp_QRCode : string;
  resp_QRImageDataURL : string;
  resp_SyncProgress : Z;
  resp_SyncCurrent : Z;
  resp_SyncTotal : Z
}.

(** What [authStatusHandler] writes: the error line of its method check, or
    a status code with the JSON payload. *)
Inductive StatusReply :=
| StatusError (resp : Response)
| StatusJSON (statusCode : Z) (payload : AuthStatusResponse).

(** [authStatusHandler(runtime)]. *)
Definition authStatusHandler (r : Request) (w : World) : StatusReply :=
  if negb (String.eqb (Method r) "GET")
  then StatusError (httpError "Method not allowed" StatusMethodNotAllowed)
  else
    let client := rt_client w in
    let status := Bootstrap.GetAuthStatus (w_status w) in
    let hasLinkedDevice :=
      match client with
      | Some c => bool_decide (StoreID c ≠ None)
      | None => false
      end in
    let isConnected :=
      match client with
      | Some c => IsConnected c
      | None => false
      end in
    let status :=
      if hasLinkedDevice && isConnected
         && (String.eqb (Bootstrap.State status) "connected"
             || String.eqb (Bootstrap.State status) "disconnected")
      then Bootstrap.mkAuthStatus "connected" true
             (if String.eqb (Bootstrap.Message status) "" then "WhatsApp connected"
              else Bootstrap.Message status)
             (Bootstrap.QRCode status) (Bootstrap.QRImageDataURL status)
             (Bootstrap.SyncProgress status) (Bootstrap.SyncCurrent status)
             (Bootstrap.SyncTotal status)
      else status in
    StatusJSON StatusOK
      (mkAuthStatusResponse (Bootstrap.State status) (Bootstrap.Connected status)
         (Bootstrap.Message status) (Bootstrap.QRCode status)
         (Bootstrap.QRImageDataURL status) (Bootstrap.SyncProgress status)
         (Bootstrap.SyncCurrent status) (Bootstrap.SyncTotal status)).

(** ** The configuration of the auth wrapper *)

(** [loadBridgeAuthConfig]; [getenv] is [os.Getenv] at the call. *)
Definition loadBridgeAuthConfig (getenv : string -> string) : bridgeAuthConfig + string :=
  let secret := TrimSpace (getenv "WHATSAPP_BRIDGE_JWT_SECRET") in
  if String.eqb secret ""
  then inr "WHATSAPP_BRIDGE_JWT_SECRET is required for bridge JWT auth"
  else
    let audience := TrimSpace (getenv "WHATSAPP_BRIDGE_JWT_AUDIENCE") in
    let audience := if String.eqb audience "" then "whatsapp-bridge" else audience in
    let issuer := TrimSpace (getenv "WHATSAPP_BRIDGE_JWT_ISSUER") in
    let issuer := if String.eqb issuer "" then "omicron-api" else issuer in
    inl (mkAuthConfig secret audience issuer).

End Api.

(* ===================================================================== *)
(** * [internal/whatsapp/audio.go] *)
(* ===================================================================== *)

Module Audio.
Import Float64.

(** A Go [[]byte]: its [len] elements, and the rest of its backing array up
    to [cap], which a slice expression may reach. *)
Record ByteSlice := mkSlice {
  elems : list byte;
  spare : list byte
}.

Definition len (data : ByteSlice) : Z := Z.of_nat (length (elems data)).
Definition cap (data : ByteSlice) : Z :=
  Z.of_nat (length (elems data) + length (spare data)).
Definition backing (data : ByteSlice) : list byte := elems data ++ spare data.

(** The elements [lo..hi-1] of a list. *)
Definition slice (l : list byte) (lo hi : Z) : list byte :=
  take (Z.to_nat (hi - lo)) (drop (Z.to_nat lo) l).

Definition byteZ (b : byte) : Z := Z.of_N (Byte.to_N b).

(** [binary.LittleEndian.Uint16], [Uint32] and [Uint64] on a slice of 2, 4
    and 8 bytes. *)
Fixpoint littleEndian (bs : list byte) : Z :=
  match bs with
  | [] => 0
  | b :: rest => Z.lor (byteZ b) (Z.shiftl (littleEndian rest) 8)
  end.

Definition OggS : list byte := ["O"; "g"; "g"; "S"]%byte.
Definition OpusHead : list byte := ["O"; "p"; "u"; "s"; "H"; "e"; "a"; "d"]%byte.

Fixpoint hasPrefix (l p : list byte) : bool :=
  match p, l with
  | [], _ => true
  | _ :: _, [] => false
  | a :: p', b :: l' => bool_decide (a = b) && hasPrefix l' p'
  end.

(** [bytes.Index(s, sep)] for a [sep] that is not empty, counted from [i]. *)
Fixpoint IndexFrom (i : Z) (s sep : list byte) : Z :=
  match s with
  | [] => -1
  | _ :: rest => if hasPrefix s sep then i else IndexFrom (i + 1) rest sep
  end.

Definition Index (s sep : list byte) : Z := IndexFrom 0 s sep.

(** The variables of the page loop. *)
Record Scan := mkScan {
  lastGranule : Z;
  sampleRate : Z;
  preSkip : Z;
  foundOpusHead : bool
}.

Definition panicSliceBounds : string := "runtime error: slice bounds out of range".

(** The block [if !foundOpusHead && pageSeqNum <= 1]: [inr] is a run-time
    panic.  [data[i : i+pageSize]] may reach up to [cap(data)], and so may
    [pageData[headPos+12 : headPos+16]] up to [cap(pageData)]. *)
Definition readOpusHead (data : ByteSlice) (i pageSize : Z) (st : Scan) : Scan + string :=
  if Z.ltb (cap data) (i + pageSize) then inr panicSliceBounds
  else
    let pageData := slice (backing data) i (i + pageSize) in
    let headPos := Index pageData OpusHead in
    if Z.leb 0 headPos && Z.ltb (headPos + 12) pageSize
    then
      let headPos := headPos + 8 in
      if Z.leb (headPos + 12) pageSize
      then
        let preSkip := littleEndian (slice pageData (headPos + 10) (headPos + 12)) in
        if Z.ltb (cap data - i) (headPos + 16) then inr panicSliceBounds
        else
          let sampleRate :=
            littleEndian (slice (backing data) (i + headPos + 12) (i + headPos + 16)) in
          inl (mkScan (lastGranule st) sampleRate preSkip true)
      else inl st
    else inl st.

(** The loop [for i := 0; i < len(data); ]: [None] when [fuel] iterations
    were not enough, [Some (inr _)] on a panic. *)
Fixpoint scanPages (fuel : nat) (data : ByteSlice) (i : Z) (st : Scan)
    : option (Scan + string) :=
  match fuel with
  | O => None
  | S fuel' =>
      if Z.leb (len data) i then Some (inl st)
      else if Z.leb (len data) (i + 27) then Some (inl st)
      else if negb (bool_decide (slice (elems data) i (i + 4) = OggS))
      then scanPages fuel' data (i + 1) st
      else
        let granulePos := littleEndian (slice (elems data) (i + 6) (i + 14)) in
        let pageSeqNum := littleEndian (slice (elems data) (i + 18) (i + 22)) in
        let numSegments := littleEndian (slice (elems data) (i + 26) (i + 27)) in
        if Z.leb (len data) (i + 27 + numSegments) then Some (inl st)
        else
          let segmentTable := slice (elems data) (i + 27) (i + 27 + numSegments) in
          let pageSize := 27 + numSegments + foldr (fun segLen n => byteZ segLen + n) 0 segmentTable in
          match (if negb (foundOpusHead st) && Z.leb pageSeqNum 1
                 then readOpusHead data i pageSize st else inl st) with
          | inr p => Some (inr p)
          | inl st =>
              let st :=
                if negb (Z.eqb granulePos 0)
                then mkScan granulePos (sampleRate st) (preSkip st) (foundOpusHead st)
                else st in
              scanPages fuel' data (i + pageSize) st
          end
  end.

(** What a call ends in. *)
Inductive Result :=
| Returns (duration : Z) (waveform : list Z)
| Fails (err : string)
| Panics (msg : string).

Section Analyze.
(** Go leaves [uint32(x)] and [byte(x)] of a [float64] outside the target
    range to the implementation. *)
Variable uint32OutOfRange : float64 -> Z.
Variable byteOutOfRange : float64 -> Z.
(** [math.Sin]. *)
Variable Sin : float64 -> float64.
(** [rand.New(rand.NewSource(seed))]: the value of its [k]-th call of
    [Float64()]. *)
Variable rngFloat64 : Z -> nat -> float64.

Definition toUint32 : float64 -> Z := to_integer uint32OutOfRange 0 (2 ^ 32 - 1).
Definition toByte : float64 -> Z := to_integer byteOutOfRange 0 255.

(** The duration, from [if lastGranule > 0] to the clamp. *)
Definition durationOf (data : ByteSlice) (st : Scan) : Z :=
  let duration :=
    if Z.ltb 0 (lastGranule st)
    then
      let durationSeconds :=
        div (of_Z ((lastGranule st - preSkip st) mod 2 ^ 64)) (of_Z (sampleRate st)) in
      toUint32 (Ceil durationSeconds)
    else
      let durationEstimate := div (of_Z (len data)) (of_Z 2000) in
      toUint32 durationEstimate in
  if Z.ltb duration 1 then 1
  else if Z.ltb 300 duration then 300
  else duration.

Definition minInt (x y : Z) : Z := if Z.ltb x y then x else y.

Definition waveformLength : nat := 64.

(** [math.Pi] as a [float64]. *)
Definition Pi : float64 := S754_finite false 7074237752028440 (-51).

(** The value [waveform[i]] of [placeholderWaveform]. *)
Definition waveformSample (duration : Z) (i : nat) : Z :=
  let baseAmplitude := of_Z 35 in
  let frequencyFactor := div (of_Z (minInt duration 120)) (of_Z 30) in
  let pos := div (of_Z (Z.of_nat i)) (of_Z (Z.of_nat waveformLength)) in
  let val :=
    mul baseAmplitude (Sin (mul (mul (mul pos Pi) frequencyFactor) (of_Z 8))) in
  let val :=
    add val (mul (div baseAmplitude (of_Z 2))
                 (Sin (mul (mul (mul pos Pi) frequencyFactor) (of_Z 16)))) in
  let val :=
    add val (mul (Float64.sub (rngFloat64 duration i) (div (of_Z 1) (of_Z 2))) (of_Z 15)) in
  let fadeInOut := Sin (mul pos Pi) in
  let val :=
    mul val (add (div (of_Z 7) (of_Z 10)) (mul (div (of_Z 3) (of_Z 10)) fadeInOut)) in
  let val := add val (of_Z 50) in
  let val :=
    if ltb val (of_Z 0) then of_Z 0
    else if ltb (of_Z 100) val then of_Z 100
    else val in
  toByte val.

Definition placeholderWaveform (duration : Z) : list Z :=
  waveformSample duration <$> seq 0 waveformLength.

Definition initialScan : Scan := mkScan 0 48000 0 false.

(** [analyzeOggOpus]; the loop gets one more iteration than the data has
    bytes (lemma [scanPages_fuel]). *)
Definition analyzeOggOpus (data : ByteSlice) : option Result :=
  if Z.ltb (len data) 4 || negb (bool_decide (slice (elems data) 0 4 = OggS))
  then Some (Fails "not a valid Ogg file (missing OggS signature)")
  else
    match scanPages (S (length (elems data))) data 0 initialScan with
    | None => None
    | Some (inr p) => Some (Panics p)
    | Some (inl st) =>
        let duration := durationOf data st in
        Some (Returns duration (placeholderWaveform duration))
    end.

End Analyze.

End Audio.

(* ===================================================================== *)
(** * [internal/whatsapp/messaging.go]: sending *)
(* ===================================================================== *)

Module Messaging.
Import GoStrings WaTypes.

(** ** [parseRecipientJID] *)

Section Recipient.
(** [types.ParseJID]: the JID, or the text of its error. *)
Variable ParseJID : string -> JID + string.

Definition parseRecipientJID (recipient : string) : JID + string :=
  let recipient := TrimSpace recipient in
  if ContainsByte "@"%char recipient
  then match ParseJID recipient with
       | inr err => inr ("error parsing JID: " ++ err)
       | inl jid => inl jid
       end
  else inl (mkJID recipient 0 0 0 "s.whatsapp.net").
End Recipient.

(** ** [detectMediaTypeAndMime] *)

(** [filepath.Ext] on a path with the separator ['/']: the path is read
    from its end up to the last separator; the extension starts at the
    last dot met on the way. *)
Fixpoint ext_scan (reversed acc : string) : string :=
  match reversed with
  | EmptyString => ""
  | String c rest =>
      if Ascii.eqb c "/"%char then ""
      else if Ascii.eqb c "."%char then String "."%char acc
      else ext_scan rest (String c acc)
  end.

Definition Ext (path : string) : string := ext_scan (reverse path) "".

(** [whatsmeow.MediaType]: the four values the bridge tells apart, and any
    other one. *)
Inductive MediaType :=
| MediaImage
| MediaVideo
| MediaAudio
| MediaDocument
| MediaOther (name : string).

Section Detect.
(** [strings.ToLower]. *)
Variable ToLower : string -> string.

Definition detectMediaTypeAndMime (mediaPath : string) : MediaType * string :=
  let ext := ToLower (TrimPrefix (Ext mediaPath) ".") in
  if String.eqb ext "jpg" || String.eqb ext "jpeg" then (MediaImage, "image/jpeg")
  else if String.eqb ext "png" then (MediaImage, "image/png")
  else if String.eqb ext "gif" then (MediaImage, "image/gif")
  else if String.eqb ext "webp" then (MediaImage, "image/webp")
  else if String.eqb ext "ogg" then (MediaAudio, "audio/ogg; codecs=opus")
  else if String.eqb ext "mp4" then (MediaVideo, "video/mp4")
  else if String.eqb ext "avi" then (MediaVideo, "video/avi")
  else if String.eqb ext "mov" then (MediaVideo, "video/quicktime")
  else (MediaDocument, "application/octet-stream").
End Detect.

(** ** [buildMediaMessage] *)

(** [whatsmeow.UploadResponse], the fields the bridge copies. *)
Record UploadResponse := mkUploadResponse {
  up_URL : string;
  up_DirectPath : string;
  up_MediaKey : list byte;
  up_FileEncSHA256 : list byte;
  up_FileSHA256 : list byte;
  up_FileLength : Z
}.

(** The outbound [waProto.Message]: the one part that is set, with the
    fields the bridge sets in it. *)
Inductive OutMessage :=
| OutConversation (text : string)
| OutImage (caption mimetype : string) (resp : UploadResponse)
| OutAudio (mimetype : string) (resp : UploadResponse) (seconds : Z) (ptt : bool)
    (waveform : list Z)
| OutVideo (caption mimetype : string) (resp : UploadResponse)
| OutDocument (title caption mimetype : string) (resp : UploadResponse).

(** How a call of [buildMediaMessage] ends. *)
Inductive Built :=
| BuiltMessage (msg : OutMessage)
| BuildError (err : string)
| BuildPanic (msg : string).

Section Build.
Variable uint32OutOfRange : Float64.float64 -> Z.
Variable byteOutOfRange : Float64.float64 -> Z.
Variable Sin : Float64.float64 -> Float64.float64.
Variable rngFloat64 : Z -> nat -> Float64.float64.
(** [filepath.Base]. *)
Variable Base : string -> string.

#[local] Abbreviation analyzeOggOpus :=
  (Audio.analyzeOggOpus uint32OutOfRange byteOutOfRange Sin rngFloat64).

(** [None] only if the page loop of [analyzeOggOpus] ran out of fuel. *)
Definition buildMediaMessage (resp : UploadResponse) (mediaType : MediaType)
    (mimeType mediaPath caption : string) (mediaData : Audio.ByteSlice) : option Built :=
  match mediaType with
  | MediaImage => Some (BuiltMessage (OutImage caption mimeType resp))
  | MediaAudio =>
      if Contains mimeType "ogg"
      then match analyzeOggOpus mediaData with
           | None => None
           | Some (Audio.Fails err) =>
               Some (BuildError ("failed to analyze Ogg Opus file: " ++ err))
           | Some (Audio.Panics p) => Some (BuildPanic p)
           | Some (Audio.Returns analyzedSeconds analyzedWaveform) =>
               Some (BuiltMessage
                       (OutAudio mimeType resp analyzedSeconds true analyzedWaveform))
           end
      else Some (BuiltMessage (OutAudio mimeType resp 30 true []))
  | MediaVideo => Some (BuiltMessage (OutVideo caption mimeType resp))
  | MediaDocument =>
      Some (BuiltMessage (OutDocument (Base mediaPath) caption mimeType resp))
  | MediaOther _ => Some (BuildError "unsupported media type")
  end.

(** ** [SendWhatsAppMessage] *)

(** What the environment answers to one call: [os.ReadFile] (the slice it
    returns, with its capacity), [client.Upload] and [client.SendMessage],
    each with the text of its error. *)
Record SendEnv := mkSendEnv {
  env_ReadFile : string -> Audio.ByteSlice + string;
  env_Upload : list byte -> MediaType -> UploadResponse + string;
  env_SendMessage : JID -> OutMessage -> option string
}.

(** The calls that reach the outside, in their order. *)
Inductive Effect :=
| ReadFile (path : string)
| Upload (data : list byte) (mediaType : MediaType)
| SendMessage (to : JID) (msg : OutMessage).

(** How a call of [SendWhatsAppMessage] ends: with its two results, or in
    the panic of the analysis. *)
Inductive SendResult :=
| Returned (success : bool) (message : string)
| Panicked (msg : string).

Variable ParseJID : string -> JID + string.
Variable ToLower : string -> string.

(** [SendWhatsAppMessage]; [connected] is [client.IsConnected()]. *)
Definition SendWhatsAppMessage (env : SendEnv) (connected : bool)
    (recipient message mediaPath : string) : option (SendResult * list Effect) :=
  if negb connected then Some (Returned false "Not connected to WhatsApp", [])
  else
    match parseRecipientJID ParseJID recipient with
    | inr err => Some (Returned false err, [])
    | inl recipientJID =>
        let send (msg : OutMessage) (sofar : list Effect) :=
          match env_SendMessage env recipientJID msg with
          | Some err =>
              (Returned false ("Error sending message: " ++ err),
               (sofar ++ [SendMessage recipientJID msg])%list)
          | None =>
              (Returned true ("Message sent to " ++ recipient),
               (sofar ++ [SendMessage recipientJID msg])%list)
          end in
        if negb (String.eqb mediaPath "")
        then
          match env_ReadFile env mediaPath with
          | inr err =>
              Some (Returned false ("Error reading media file: " ++ err),
                    [ReadFile mediaPath])
          | inl mediaData =>
              let '(mediaType, mimeType) := detectMediaTypeAndMime ToLower mediaPath in
              let sofar := [ReadFile mediaPath; Upload (Audio.elems mediaData) mediaType] in
              match env_Upload env (Audio.elems mediaData) mediaType with
              | inr err => Some (Returned false ("Error uploading media: " ++ err), sofar)
              | inl resp =>
                  match buildMediaMessage resp mediaType mimeType mediaPath message
                          mediaData with
                  | None => None
                  | Some (BuildError err) => Some (Returned false err, sofar)
                  | Some (BuildPanic p) => Some (Panicked p, sofar)
                  | Some (BuiltMessage msg) => Some (send msg sofar)
                  end
              end
          end
        else Some (send (OutConversation message) [])
    end.

End Build.

End Messaging.

(* ===================================================================== *)
(** * Package [whatsapp]: downloading media *)
(* ===================================================================== *)

Module Download.
Import GoStrings Storage.

(** ** [extractDirectPathFromURL] *)

(** [strings.SplitN(s, sep, 2)] for a [sep] that is not empty: what
    follows the first [sep], [None] when [s] has none (the result then
    has one part). *)
Fixpoint AfterFirst (sep s : string) : option string :=
  if HasPrefix s sep then Some (drop_bytes (String.length sep) s)
  else match s with
       | EmptyString => None
       | String _ rest => AfterFirst sep rest
       end.

Definition extractDirectPathFromURL (url : string) : string :=
  match AfterFirst ".net/" url with
  | None => url
  | Some pathPart => "/" ++ BeforeByte "?"%char pathPart
  end.

(** ** [DownloadMedia] *)

(** [strings.ReplaceAll(s, ":", "_")]. *)
Fixpoint replaceColons (s : string) : string :=
  match s with
  | EmptyString => EmptyString
  | String c rest =>
      String (if Ascii.eqb c ":"%char then "_"%char else c) (replaceColons rest)
  end.

(** [MediaDownloader]. *)
Record MediaDownloader := mkMediaDownloader {
  dl_URL : string;
  dl_DirectPath : string;
  dl_MediaKey : list byte;
  dl_FileLength : Z;
  dl_FileSHA256 : list byte;
  dl_FileEncSHA256 : list byte;
  dl_MediaType : Messaging.MediaType
}.

(** What the environment answers during one call: [os.MkdirAll],
    [filepath.Abs], whether [os.Stat] finds the file, [client.Download]
    and [os.WriteFile]. *)
Record DownloadEnv := mkDownloadEnv {
  env_MkdirAll : string -> error;
  env_Abs : string -> string + string;
  env_Stat : string -> bool;
  env_Download : MediaDownloader -> list byte + string;
  env_WriteFile : string -> list byte -> error
}.

(** The calls that change something outside, in their order. *)
Inductive Effect :=
| MkdirAll (dir : string)
| DownloadCall (downloader : MediaDownloader)
| WriteFile (path : string) (data : list byte).

(** The five results of [DownloadMedia]. *)
Record Downloaded := mkDownloaded {
  dl_success : bool;
  dl_mediaType : string;
  dl_filename : string;
  dl_path : string;
  dl_err : error
}.

Definition failed (err : string) : Downloaded := mkDownloaded false "" "" "" (Some err).

Section DownloadMedia.
(** [filepath.Join] of two elements. *)
Variable Join : string -> string -> string.

Definition DownloadMedia (env : DownloadEnv) (messageStore : MessageStore)
    (messageID chatJID : string) : Downloaded * list Effect :=
  let '(info, err) := GetMediaInfo messageID chatJID messageStore in
  let found :=
    match err with
    | None => inl (col_media_type info, col_filename info)
    | Some _ =>
        match GetMessageMediaTypeAndFilename messageID chatJID messageStore with
        | (_, Some err) => inr ("failed to find message: " ++ err)
        | (names, None) => inl names
        end
    end in
  match found with
  | inr err => (failed err, [])
  | inl (mediaType, filename) =>
  if String.eqb mediaType "" then (failed "not a media message", [])
  else
    let chatDir := Join "store" (replaceColons chatJID) in
    match env_MkdirAll env chatDir with
    | Some err => (failed ("failed to create chat directory: " ++ err), [MkdirAll chatDir])
    | None =>
    let localPath := Join chatDir filename in
    match env_Abs env localPath with
    | inr err => (failed ("failed to get absolute path: " ++ err), [MkdirAll chatDir])
    | inl absPath =>
    if env_Stat env localPath
    then (mkDownloaded true mediaType filename absPath None, [MkdirAll chatDir])
    else if String.eqb (col_url info) "" || Nat.eqb (length (col_media_key info)) 0
            || Nat.eqb (length (col_file_sha256 info)) 0
            || Nat.eqb (length (col_file_enc_sha256 info)) 0
            || Z.eqb (col_file_length info) 0
    then (failed "incomplete media information for download", [MkdirAll chatDir])
    else
      let directPath := extractDirectPathFromURL (col_url info) in
      let waMediaType :=
        if String.eqb mediaType "image" then Some Messaging.MediaImage
        else if String.eqb mediaType "video" then Some Messaging.MediaVideo
        else if String.eqb mediaType "audio" then Some Messaging.MediaAudio
        else if String.eqb mediaType "document" then Some Messaging.MediaDocument
        else None in
      match waMediaType with
      | None => (failed ("unsupported media type: " ++ mediaType), [MkdirAll chatDir])
      | Some waMediaType =>
          let downloader :=
            mkMediaDownloader (col_url info) directPath (col_media_key info)
              (col_file_length info) (col_file_sha256 info) (col_file_enc_sha256 info)
              waMediaType in
          match env_Download env downloader with
          | inr err =>
              (failed ("failed to download media: " ++ err),
               [MkdirAll chatDir; DownloadCall downloader])
          | inl mediaData =>
              match env_WriteFile env localPath mediaData with
              | Some err =>
                  (failed ("failed to save media file: " ++ err),
                   [MkdirAll chatDir; DownloadCall downloader;
                    WriteFile localPath mediaData])
              | None =>
                  (mkDownloaded true mediaType filename absPath None,
                   [MkdirAll chatDir; DownloadCall downloader;
                    WriteFile localPath mediaData])
              end
          end
      end
    end end
  end.

End DownloadMedia.

End Download.

(* ===================================================================== *)
(** * [internal/api/server.go]: the send and download handlers *)
(* ===================================================================== *)

Module MediaApi.
Import GoStrings Storage.

Definition StatusBadRequest : Z := 400.
Definition StatusServiceUnavailable : Z := 503.

(** [SendMessageRequest] and [DownloadMediaRequest]. *)
Record SendMessageRequest := mkSendMessageRequest {
  Recipient : string;
  Message : string;
  MediaPath : string
}.

Record DownloadMediaRequest := mkDownloadMediaRequest {
  MessageID : string;
  ChatJID : string
}.

(** What becomes of a request inside a handler: a response is written, or
    the handler panics (and [net/http] closes the connection). *)
Inductive Handled :=
| Answered (resp : Api.Response)
| Aborted (panic : string).

(** What [downloadHandler] ends in: an error line, a status code with a
    [DownloadMediaResponse], or a panic. *)
Inductive DownloadReply :=
| DownloadRefused (resp : Api.Response)
| DownloadJSON (statusCode : Z) (success : bool) (message filename path : string)
| DownloadAborted (panic : string).

Definition panicNilPointer : string :=
  "runtime error: invalid memory address or nil pointer dereference".

Section Handlers.
Variable uint32OutOfRange : Float64.float64 -> Z.
Variable byteOutOfRange : Float64.float64 -> Z.
Variable Sin : Float64.float64 -> Float64.float64.
Variable rngFloat64 : Z -> nat -> Float64.float64.
Variable Base : string -> string.
Variable ParseJID : string -> WaTypes.JID + string.
Variable ToLower : string -> string.
Variable Join : string -> string -> string.

#[local] Abbreviation SendWhatsAppMessage :=
  (Messaging.SendWhatsAppMessage uint32OutOfRange byteOutOfRange Sin rngFloat64 Base
     ParseJID ToLower).

(** [sendHandler(runtime)]; [decoded] is what [decodeJSONBody] makes of the
    body, [None] when it refuses it. *)
Definition sendHandler (env : Messaging.SendEnv) (r : Api.Request)
    (decoded : option SendMessageRequest) (w : Api.World)
    : option (Handled * list Messaging.Effect) :=
  if negb (String.eqb (Api.Method r) "POST")
  then Some (Answered (Api.httpError "Method not allowed" Api.StatusMethodNotAllowed), [])
  else
    match decoded with
    | None => Some (Answered (Api.httpError "Invalid request format" StatusBadRequest), [])
    | Some req =>
        if String.eqb (Recipient req) ""
        then Some (Answered (Api.httpError "Recipient is required" StatusBadRequest), [])
        else if String.eqb (Message req) "" && String.eqb (MediaPath req) ""
        then Some (Answered (Api.httpError "Message or media path is required"
                               StatusBadRequest), [])
        else
          match Api.rt_client w with
          | None =>
              Some (Answered
                      (Api.writeJSON StatusServiceUnavailable false
                         "WhatsApp client is not initialized. Start connect first."),
                    [])
          | Some client =>
              match SendWhatsAppMessage env (Api.IsConnected client) (Recipient req)
                      (Message req) (MediaPath req) with
              | None => None
              | Some (Messaging.Panicked p, effects) => Some (Aborted p, effects)
              | Some (Messaging.Returned success message, effects) =>
                  let statusCode :=
                    if negb success then Api.StatusInternalServerError else Api.StatusOK in
                  Some (Answered (Api.writeJSON statusCode success message), effects)
              end
          end
    end.

(** [downloadHandler(runtime)]. *)
Definition downloadHandler (env : Download.DownloadEnv) (r : Api.Request)
    (decoded : option DownloadMediaRequest) (w : Api.World)
    : DownloadReply * list Download.Effect :=
  if negb (String.eqb (Api.Method r) "POST")
  then (DownloadRefused (Api.httpError "Method not allowed" Api.StatusMethodNotAllowed), [])
  else
    match decoded with
    | None =>
        (DownloadRefused (Api.httpError "Invalid request format" StatusBadRequest), [])
    | Some req =>
        if String.eqb (MessageID req) "" || String.eqb (ChatJID req) ""
        then (DownloadRefused
                (Api.httpError "Message ID and Chat JID are required" StatusBadRequest),
              [])
        else
          match Api.rt_client w, Api.rt_messageStore w with
          | None, _ =>
              (DownloadJSON StatusServiceUnavailable false
                 "WhatsApp client is not initialized. Start connect first." "" "",
               [])
          | Some _, None =>
              (* [messageStore.GetMediaInfo] on a nil store reads [store.db] *)
              (DownloadAborted panicNilPointer, [])
          | Some _, Some messageStore =>
              let '(result, effects) :=
                Download.DownloadMedia Join env messageStore (MessageID req)
                  (ChatJID req) in
              if negb (Download.dl_success result)
                 || bool_decide (Download.dl_err result ≠ None)
              then
                let errMsg :=
                  match Download.dl_err result with
                  | Some err => err
                  | None => "Unknown error"
                  end in
                (DownloadJSON Api.StatusInternalServerError false
                   ("Failed to download media: " ++ errMsg) "" "",
                 effects)
              else
                (DownloadJSON Api.StatusOK true
                   ("Successfully downloaded " ++ Download.dl_mediaType result ++ " media")
                   (Download.dl_filename result) (Download.dl_path result),
                 effects)
          end
    end.

End Handlers.

End MediaApi.

(* ===================================================================== *)
(** * The vocabulary of the properties *)
(* ===================================================================== *)

Module Props.
Import GoStrings Storage.

(** The [last_message_time] the cache holds for a chat. *)
Definition last_message_time (jid : string) (store : MessageStore) : option Time :=
  match chats store !! jid with
  | Some row => chat_last_message_time row
  | None => None
  end.

(** [upsert_aliases(C, A, t)] then [promote_sender(C, A)], as
    [syncSenderAliases] runs them. *)
Definition upsert_then_promote (C : string) (A : list string) (t : Time)
    (store : MessageStore) : MessageStore :=
  fst (PromoteCanonicalSender C A (fst (StoreSenderAliases C A t store))).

(** The sender of [r] is in [A ∖ {C}], ids compared in normal form. *)
Definition stale_sender (C : string) (A : list string) (r : MessageRow) : Prop :=
  msg_sender r ∈ (normalizeSenderID <$> A) ∧ msg_sender r ≠ normalizeSenderID C.

(** A row carries a payload: text or a media type. *)
Definition has_payload (r : MessageRow) : Prop :=
  msg_content r ≠ "" ∨ msg_media_type r ≠ "".

(** Every message row of the cache carries a payload. *)
Definition payload_ok (store : MessageStore) : Prop :=
  Forall has_payload (messages store).

(** The write operations of the store, with their arguments. *)
Inductive StoreOp :=
| OpStoreChat (jid name : string) (lastMessageTime : Time)
| OpStoreSenderAliases (canonicalID : string) (aliases : list string) (updatedAt : Time)
| OpPromoteCanonicalSender (canonicalID : string) (aliases : list string)
| OpPromoteCanonicalChat (canonicalID : string) (aliases : list string)
| OpStoreMessage (row : MessageRow)
| OpStoreMediaInfo (id chatJID url : string)
    (mediaKey fileSHA256 fileEncSHA256 : list byte) (fileLength : Z)
| OpReset (fault : ResetFault).

Definition apply (store : MessageStore) (op : StoreOp) : MessageStore :=
  fst match op with
      | OpStoreChat jid name t => StoreChat jid name t store
      | OpStoreSenderAliases c a t => StoreSenderAliases c a t store
      | OpPromoteCanonicalSender c a => PromoteCanonicalSender c a store
      | OpPromoteCanonicalChat c a => PromoteCanonicalChat c a store
      | OpStoreMessage r => StoreMessageRow r store
      | OpStoreMediaInfo id chat url key sha enc len =>
          StoreMediaInfo id chat url key sha enc len store
      | OpReset fault => Reset fault store
      end.

(** The cache after a sequence of operations on the new database. *)
Definition run (ops : list StoreOp) : MessageStore := foldl apply fresh ops.

(** The rows of [messages] with the primary key [k]. *)
Definition rows_with_key (k : string * string) (store : MessageStore) : list MessageRow :=
  filter (λ x, msg_key x = k) (messages store).

(** The engine takes the INSERT of [r]: its chat has a row and its file
    length can be bound. *)
Definition accepted (r : MessageRow) (store : MessageStore) : Prop :=
  is_Some (chats store !! msg_chat_jid r) ∧ msg_file_length r < 2 ^ 63.

(** The status [SetSyncing] and [SetSyncingProgress] publish during a
    history batch. *)
Definition syncingStatus (progress current total : Z) : Bootstrap.AuthStatus :=
  Bootstrap.mkAuthStatus "syncing" false "Syncing WhatsApp messages" "" ""
    progress current total.

(** The status [SetConnected] publishes at its end. *)
Definition connectedStatus : Bootstrap.AuthStatus :=
  Bootstrap.mkAuthStatus "connected" true "WhatsApp connected" "" "" 100 0 0.

(** The numbers of processed conversations reported during a batch of [n]:
    1, 2, ..., [n]. *)
Definition processedCounts (n : nat) : list Z := Z.of_nat <$> seq 1 n.

(** [25 + 70·processed/N] clamped to 95, in exact integer arithmetic. *)
Definition exactProgress (N processed : Z) : Z := Z.min 95 (25 + 70 * processed / N).

(** [n] reports of the progress in a row, the first for conversation
    [idx + 1]. *)
Fixpoint reports (intOutOfRange : Float64.float64 -> Z) (total idx : Z) (n : nat)
    (status : Bootstrap.StatusCell) : Bootstrap.StatusCell :=
  match n with
  | O => status
  | S n' =>
      reports intOutOfRange total (idx + 1) n'
        (Sync.updateProgress intOutOfRange total (idx + 1) status)
  end.

(** The published progress for [processed] of [N] is the exact value; and
    the same for every [processed] up to [N] and every [N] up to [bound]. *)
Definition progressIsExact (intOutOfRange : Float64.float64 -> Z) (N processed : Z)
    : bool :=
  Z.eqb (Bootstrap.clampProgress (Sync.progressValue intOutOfRange N processed))
    (exactProgress N processed).

Definition progressIsExactUpTo (intOutOfRange : Float64.float64 -> Z) (bound : nat)
    : bool :=
  forallb
    (λ n, forallb (progressIsExact intOutOfRange (Z.of_nat n)) (processedCounts n))
    (seq 1 bound).

(** A client that knows nothing: no device id, no LID index, and every
    request to the server or the contact store fails. *)
Definition offlineClient : WaTypes.Client :=
  WaTypes.mkClient None None (λ _, None) (λ _, None).

(** A history payload of [n] conversations without an id. *)
Definition anonymousBatch (n : nat) : list Sync.Conversation :=
  replicate n (Sync.mkConversation None [] None None).

(** A cache with the chat ["123"] and one text message in it, sent by
    [sender]. *)
Definition text_row (sender : string) : MessageRow :=
  mkMessage "m1" "123" sender "hi" 7 false "" "" "" [] [] [] 0.

Definition one_row_store (sender : string) : MessageStore :=
  mkStore {["123" := mkChat (Some "Ann") (Some 7)]} [text_row sender] ∅.

(** A runtime whose client is linked to a device and connected, with a
    cache that holds a chat and a message; and the request that revokes. *)
Definition linkedClient : Api.ClientHandle :=
  Api.mkHandle (Some (WaTypes.NewJID "15551234567" WaTypes.DefaultUserServer)) true.

Definition linkedWorld : Api.World :=
  Api.mkWorld (Some linkedClient) (Some (one_row_store "abc")) Bootstrap.initial None.

Definition postRevoke : Api.Request :=
  Api.mkRequest "POST" "/api/disconnect/revoke" "Bearer token".

(** The remote logout fails; the local steps fail as [deleteErr] and
    [fault] say. *)
Definition failedLogout (deleteErr : Storage.error) (fault : ResetFault) : Api.RevokeEnv :=
  Api.mkRevokeEnv (Api.SetupOk linkedClient) (Some "remote timeout") deleteErr fault.

(** The 27 bytes of an Ogg page header: the magic, version and flags, the
    granule position, the serial number, the page sequence number, the
    checksum, and the number of segments. *)
Definition oggHeader (granule : list byte) (pageSeqNum numSegments : byte) : list byte :=
  (Audio.OggS ++ [x00; x00] ++ granule ++ [x00; x00; x00; x00]
   ++ [pageSeqNum; x00; x00; x00] ++ [x00; x00; x00; x00] ++ [numSegments])%list.

(** A file cut off inside its first page: the header announces 255 segments
    of 255 bytes each, and one byte of them is there.  [os.ReadFile] hands
    its 283 bytes over in a slice of capacity 512. *)
Definition truncatedFirstPage : Audio.ByteSlice :=
  Audio.mkSlice
    (oggHeader (replicate 8 x00) x00 xff ++ replicate 255 xff ++ [x00])%list
    (replicate 229 x00).

(** [n] executions of [StoreMessage] with the columns of [r]. *)
Definition store_times (n : nat) (r : MessageRow) (store : MessageStore) : MessageStore :=
  Nat.iter n (λ s, fst (StoreMessageRow r s)) store.

(** ** The constraints of the schema, and the effect of a promotion *)

(** The primary key of [messages] holds: no two rows share
    [(id, chat_jid)]. *)
Definition keys_unique (store : MessageStore) : Prop :=
  NoDup (msg_key <$> messages store).

(** The foreign key of [messages] holds: the chat of every message has a
    row. *)
Definition chats_exist (store : MessageStore) : Prop :=
  Forall (λ r, is_Some (chats store !! msg_chat_jid r)) (messages store).

(** No chat row holds a NULL. *)
Definition chats_filled (store : MessageStore) : Prop :=
  map_Forall (λ _ row, is_Some (chat_name row) ∧ is_Some (chat_last_message_time row))
    (chats store).

(** What [UPDATE messages SET chat_jid = canonical WHERE chat_jid = alias],
    run for every alias of [keys], makes of a row. *)
Definition move_chat (canonical : string) (keys : list string) (r : MessageRow)
    : MessageRow :=
  if bool_decide (msg_chat_jid r ∈ keys) then set_chat_jid canonical r else r.

(** [StoreSenderAliases] and [PromoteCanonicalChat] when Go hands out the
    keys of the map [unique] in the order [order]. *)
Definition StoreSenderAliases_ranging (order : list string) (canonicalID : string)
    (updatedAt : Time) (store : MessageStore) : MessageStore * error :=
  let canonical := normalizeSenderID canonicalID in
  if String.eqb canonical "" then (store, None)
  else
    (with_aliases
       (foldl (upsert_alias canonical updatedAt) (sender_id_aliases store) order)
       store,
     None).

Definition PromoteCanonicalChat_ranging (order : list string) (canonicalID : string)
    (store : MessageStore) : MessageStore * error :=
  let canonical := normalizeSenderID canonicalID in
  if String.eqb canonical "" then (store, None)
  else if Nat.eqb (length order) 0 then (store, None)
  else
    match promote_chat_all canonical store order with
    | inr e => (store, Some e)
    | inl tx => (tx, None)
    end.

(** The [updated_at] an upsert at time [t] can leave in a row that held
    [old]: the new time when there was no row, and otherwise one of the
    two times, the one the engine orders later. *)
Definition upserted_time (old : option AliasRow) (t u : Time) : Prop :=
  match old with
  | Some row => u = t ∨ u = alias_updated_at row
  | None => u = t
  end.

(** The chats table after the [INSERT INTO chats ... SELECT ... ON CONFLICT]
    that [PromoteCanonicalChat] runs for one alias. *)
Definition copied_chats (canonical alias : string) (tbl : gmap string ChatRow)
    : gmap string ChatRow :=
  match tbl !! alias with
  | None => tbl
  | Some src =>
      match tbl !! canonical with
      | None => <[canonical := src]> tbl
      | Some cur => <[canonical := merge_chat cur src]> tbl
      end
  end.

(** A cache in which the contact ["123"] also has a chat under its hidden
    id ["abc"], with one message in each. *)
Definition split_chat_store : MessageStore :=
  mkStore
    (<["abc" := mkChat (Some "Ann (hidden)") (Some 9)]>
       {["123" := mkChat (Some "Ann") (Some 7)]})
    [text_row "123"; mkMessage "m2" "abc" "abc" "hello" 9 false "" "" "" [] [] [] 0]
    ∅.

(** An id in the form the alias table keys on: not empty, and without a
    server part. *)
Definition plain_id (id : string) : Prop :=
  id ≠ "" ∧ ContainsByte "@"%char id = false.

(** A client whose LID index maps the hidden id ["abc"] to the phone number
    ["123"] and back, and knows nothing else. *)
Definition linkedIndex : WaTypes.LIDStore :=
  WaTypes.mkLIDStore
    (λ jid, if String.eqb (WaTypes.User jid) "abc"
            then Some (WaTypes.NewJID "123" WaTypes.DefaultUserServer) else None)
    (λ jid, if String.eqb (WaTypes.User jid) "123"
            then Some (WaTypes.NewJID "abc" WaTypes.HiddenUserServer) else None).

Definition indexedClient : WaTypes.Client :=
  WaTypes.mkClient None (Some linkedIndex) (λ _, None) (λ _, None).

(** ** The published status *)

(** The exported writers of package [bootstrap], with their arguments;
    [setAuthStatus] itself is not exported, so every write of the status is
    one of these. *)
Inductive StatusOp :=
| OpSetConnecting (message : string)
| OpSetAwaitingQR (qrCode message : string)
| OpSetConnected (message : string)
| OpSetDisconnected (message : string)
| OpSetLoggedOut (message : string)
| OpSetAuthError (message : string)
| OpSetLoggingIn (message : string)
| OpSetSyncing (message : string) (progress current total : Z)
| OpSetSyncingProgress (progress current total : Z).

Definition applyStatusOp (qrcodeEncode : string -> option (list byte))
    (base64 : list byte -> string) (cell : Bootstrap.StatusCell) (op : StatusOp)
    : Bootstrap.StatusCell :=
  match op with
  | OpSetConnecting m => Bootstrap.SetConnecting m cell
  | OpSetAwaitingQR code m => Bootstrap.SetAwaitingQR qrcodeEncode base64 code m cell
  | OpSetConnected m => Bootstrap.SetConnected m cell
  | OpSetDisconnected m => Bootstrap.SetDisconnected m cell
  | OpSetLoggedOut m => Bootstrap.SetLoggedOut m cell
  | OpSetAuthError m => Bootstrap.SetAuthError m cell
  | OpSetLoggingIn m => Bootstrap.SetLoggingIn m cell
  | OpSetSyncing m p c t => Bootstrap.SetSyncing m p c t cell
  | OpSetSyncingProgress p c t => Bootstrap.SetSyncingProgress p c t cell
  end.

(** The status after a sequence of writes on the initial one. *)
Definition runStatus (qrcodeEncode : string -> option (list byte))
    (base64 : list byte -> string) (ops : list StatusOp) : Bootstrap.StatusCell :=
  foldl (applyStatusOp qrcodeEncode base64) Bootstrap.initial ops.

(** The states the writers set. *)
Definition knownStates : list string :=
  ["disconnected"; "connecting"; "awaiting_qr"; "connected"; "logged_out"; "error";
   "logging_in"; "syncing"].

(** A status is coherent: its state is a known one, it says [connected]
    exactly when the state is ["connected"], and its progress is a
    percentage, 100 when connected. *)
Definition coherent (s : Bootstrap.AuthStatus) : Prop :=
  Bootstrap.State s ∈ knownStates
  ∧ (Bootstrap.Connected s = true ↔ Bootstrap.State s = "connected")
  ∧ 0 ≤ Bootstrap.SyncProgress s ≤ 100
  ∧ (Bootstrap.State s = "connected" → Bootstrap.SyncProgress s = 100).

(** What was published after [before]. *)
Definition published_since (before after : Bootstrap.StatusCell)
    : list Bootstrap.AuthStatus :=
  drop (length (Bootstrap.published before)) (Bootstrap.published after).

(** ** Scopes *)

(** A scope token: not empty, and free of the two separators; and a run of
    separators between two tokens. *)
Definition scope_token (t : string) : Prop :=
  t ≠ "" ∧ forallb (λ c, negb (Api.scopeSeparator c)) (list_ascii_of_string t) = true.

Definition separator_run (s : string) : Prop :=
  s ≠ "" ∧ forallb Api.scopeSeparator (list_ascii_of_string s) = true.

(** The checks of the auth wrapper on a request, for the handler [h]. *)
Definition authorized (ParseWithClaims : Api.bridgeAuthConfig -> string -> option Api.bridgeJWTClaims)
    (authConfig : Api.bridgeAuthConfig) (h : Api.Handler) (r : Api.Request) : Prop :=
  let authHeader := TrimSpace (Api.Authorization r) in
  Api.muxLookup Api.routes (Api.Path r) = Some h
  ∧ Api.Method r = Api.handlerMethod h
  ∧ (String.length Api.bearer < String.length authHeader)%nat
  ∧ HasPrefix authHeader Api.bearer = true
  ∧ ∃ claims,
      ParseWithClaims authConfig (TrimSpace (TrimPrefix authHeader Api.bearer)) = Some claims
      ∧ Api.ExpiresAt claims ≠ None ∧ Api.IssuedAt claims ≠ None
      ∧ TrimSpace (Api.Subject claims) ≠ "" ∧ TrimSpace (Api.RuntimeID claims) ≠ ""
      ∧ Api.hasRequiredScope (Api.Scope claims)
          (fst (Api.requiredScopeForRoute (Api.Method r) (Api.Path r))) = true.

(** ** Messages and conversations *)

(** A protobuf message carries none of the four media parts. *)
Definition no_media_part (msg : option Sync.WaMessage) : Prop :=
  match msg with
  | None => True
  | Some m =>
      Sync.wa_ImageMessage m = None ∧ Sync.wa_VideoMessage m = None
      ∧ Sync.wa_AudioMessage m = None ∧ Sync.wa_DocumentMessage m = None
  end.

(** The time stamp of the first message of a conversation (0 when the
    message has none); [None] when the list is empty, its first entry is
    nil or holds no message. *)
Definition latest_timestamp (c : Sync.Conversation) : option Z :=
  match Sync.conv_Messages c with
  | Some hm :: _ =>
      match Sync.hsm_Message hm with
      | Some wm => Some (Sync.wmi_MessageTimestamp wm)
      | None => None
      end
  | _ => None
  end.

(** A live text message of the contact ["15551234567"]. *)
Definition liveText : Sync.MessageEvent :=
  Sync.mkMessageEvent
    (Sync.mkMessageInfo (WaTypes.NewJID "15551234567" WaTypes.DefaultUserServer)
       (WaTypes.NewJID "15551234567" WaTypes.DefaultUserServer) WaTypes.EmptyJID
       "3EB0" 1700 false)
    (Some (Sync.mkWaMessage "hello" None None None None None)).

(** A history conversation whose first message is nil and whose second
    message is a text with a time stamp. *)
Definition headlessConversation : Sync.Conversation :=
  Sync.mkConversation (Some "15551234567@s.whatsapp.net")
    [None;
     Some (Sync.mkHistorySyncMsg
             (Some (Sync.mkWebMessageInfo
                      (Some (Sync.mkMessageKey (Some false) None (Some "3EB1")))
                      (Some (Sync.mkWaMessage "hello" None None None None None))
                      1700)))]
    None None.

(** ** Sending *)

(** The last call of a trace is a [SendMessage], and the environment took
    it without an error. *)
Definition delivered (env : Messaging.SendEnv) (effects : list Messaging.Effect) : Prop :=
  ∃ before to msg,
    effects = (before ++ [Messaging.SendMessage to msg])%list
    ∧ Messaging.env_SendMessage env to msg = None.

End Props.

(** Cases on the comparisons of a string with the literals of the code. *)
Ltac eqb_cases :=
  repeat match goal with
         | |- context [String.eqb ?a ?b] =>
             destruct (String.eqb_spec a b); subst; cbn [andb]
         | H : context [String.eqb ?a ?b] |- _ =>
             destruct (String.eqb_spec a b); subst; cbn [andb] in H
         end.

(* ===================================================================== *)
(** * Properties of the cache store *)
(* ===================================================================== *)

Section StoreFacts.
Import GoStrings Storage Props.

Lemma eqb_empty_false (s : string) : s ≠ "" → String.eqb s "" = false.
Proof. intros H. by apply String.eqb_neq. Qed.

Lemma StoreMessageRow_eta (r : MessageRow) (store : MessageStore) :
  StoreMessageRow r store =
  if String.eqb (msg_content r) "" && String.eqb (msg_media_type r) ""
  then (store, None) else insert_or_replace_message r store.
Proof. by destruct r. Qed.

Lemma has_payload_guard (r : MessageRow) :
  has_payload r ↔ String.eqb (msg_content r) "" && String.eqb (msg_media_type r) "" = false.
Proof.
  unfold has_payload. rewrite andb_false_iff, !String.eqb_neq. tauto.
Qed.

(** [StoreChat] writes the bound time whatever the row held. *)
Lemma StoreChat_last_message_time (store : MessageStore) (jid name : string) (t : Time) :
  last_message_time jid (fst (StoreChat jid name t store)) = Some t.
Proof. unfold last_message_time, StoreChat. simpl. by rewrite lookup_insert_eq. Qed.

(** C1.  [StoreChat] does not keep [last_message_time] monotonic: on the new
    database, storing the chat with time 200 and then with time 100 leaves
    100 in the row. *)
Theorem StoreChat_rewinds_last_message_time :
  let s1 := fst (StoreChat "15551234567" "Ann" 200 fresh) in
  let s2 := fst (StoreChat "15551234567" "Ann" 100 s1) in
  last_message_time "15551234567" s1 = Some 200
  ∧ last_message_time "15551234567" s2 = Some 100.
Proof. split; apply StoreChat_last_message_time. Qed.

(** ** Aliases and the promotion of senders *)

Lemma StoreSenderAliases_messages (C : string) (A : list string) (t : Time)
    (store : MessageStore) :
  messages (fst (StoreSenderAliases C A t store)) = messages store.
Proof. unfold StoreSenderAliases. by destruct (String.eqb _ _). Qed.

Lemma StoreSenderAliases_chats (C : string) (A : list string) (t : Time)
    (store : MessageStore) :
  chats (fst (StoreSenderAliases C A t store)) = chats store.
Proof. unfold StoreSenderAliases. by destruct (String.eqb _ _). Qed.

Lemma elem_of_promote_keys (canonical : string) (A : list string) (x : string) :
  x ∈ promote_keys canonical A ↔
  x ∈ (normalizeSenderID <$> A) ∧ x ≠ "" ∧ x ≠ canonical.
Proof.
  unfold promote_keys. rewrite elem_of_remove_dups, list_elem_of_filter. tauto.
Qed.

(** Two upserts of the same statement on different aliases commute: the
    order in which Go ranges over [unique] does not show in the table. *)
Lemma upsert_alias_comm (canonical : string) (t : Time) (tbl : gmap string AliasRow)
    (a b : string) :
  a ≠ b →
  upsert_alias canonical t (upsert_alias canonical t tbl a) b
  = upsert_alias canonical t (upsert_alias canonical t tbl b) a.
Proof.
  intros Hab. unfold upsert_alias.
  destruct (tbl !! a) as [ra|] eqn:Ha, (tbl !! b) as [rb|] eqn:Hb;
    rewrite ?lookup_insert_ne, ?Ha, ?Hb by congruence;
    by apply insert_insert_ne.
Qed.

(** In a message table rewritten by [UPDATE messages SET sender = c WHERE
    sender IN keys], no sender is one of the keys, provided [c] is none. *)
Lemma update_sender_in_clears (canonical : string) (keys : list string)
    (rows : list MessageRow) (r : MessageRow) :
  canonical ∉ keys →
  r ∈ (update_sender_in canonical keys <$> rows) →
  msg_sender r ∉ keys.
Proof.
  intros Hc [r0 [-> _]]%list_elem_of_fmap. unfold update_sender_in.
  case_bool_decide; simpl; auto.
Qed.




(** ** The payload invariant *)

Lemma payload_ok_fmap (f : MessageRow → MessageRow) (rows : list MessageRow) :
  (∀ r, msg_content (f r) = msg_content r ∧ msg_media_type (f r) = msg_media_type r) →
  Forall has_payload rows → Forall has_payload (f <$> rows).
Proof.
  intros Hf H. apply Forall_fmap. eapply Forall_impl; [exact H |].
  intros r Hr. unfold has_payload, compose in *. by destruct (Hf r) as [-> ->].
Qed.

Lemma payload_ok_promote_chat_alias (canonical alias : string) (tx tx' : MessageStore) :
  promote_chat_alias canonical tx alias = inl tx' → payload_ok tx → payload_ok tx'.
Proof.
  unfold promote_chat_alias, payload_ok.
  repeat case_bool_decide; try discriminate.
  intros [= <-] Hok. simpl. apply payload_ok_fmap; [| done].
  intros r. by case_bool_decide.
Qed.

Lemma payload_ok_promote_chat_all (canonical : string) (aliases : list string) :
  ∀ tx tx', promote_chat_all canonical tx aliases = inl tx' →
            payload_ok tx → payload_ok tx'.
Proof.
  induction aliases as [|a aliases IH]; simpl; intros tx tx'.
  - by intros [= <-].
  - destruct (promote_chat_alias canonical tx a) as [tx1|e] eqn:Ha; [| discriminate].
    intros Hall Hok. eapply IH; [exact Hall |].
    by eapply payload_ok_promote_chat_alias.
Qed.

Lemma payload_ok_Reset (fault : ResetFault) (store : MessageStore) :
  payload_ok store → payload_ok (fst (Reset fault store)).
Proof.
  intros H. destruct fault as [|e|n e|e]; simpl; try done.
  - by apply Forall_nil.
  - destruct n as [|[|[|n]]]; simpl; try done. by apply Forall_nil.
Qed.

Lemma payload_ok_StoreMessageRow (r : MessageRow) (store : MessageStore) :
  payload_ok store → payload_ok (fst (StoreMessageRow r store)).
Proof.
  intros H. rewrite StoreMessageRow_eta.
  destruct (String.eqb (msg_content r) "" && String.eqb (msg_media_type r) "") eqn:Hg;
    [done |].
  unfold insert_or_replace_message.
  destruct (Z.leb _ _); [done |].
  destruct (chats store !! msg_chat_jid r); [| done].
  simpl. unfold payload_ok. simpl. apply Forall_app. split.
  - apply Forall_forall. intros x [_ Hx]%list_elem_of_filter.
    revert x Hx. by apply Forall_forall.
  - apply Forall_singleton. by apply has_payload_guard.
Qed.

(** Every operation of the store keeps the invariant. *)
Lemma payload_ok_apply (store : MessageStore) (op : StoreOp) :
  payload_ok store → payload_ok (apply store op).
Proof.
  intros H. destruct op; unfold apply.
  - done.
  - unfold payload_ok. by rewrite StoreSenderAliases_messages.
  - unfold PromoteCanonicalSender.
    destruct (String.eqb _ _); [done |]. destruct (Nat.eqb _ _); [done |].
    simpl. apply payload_ok_fmap; [| done].
    intros r. unfold update_sender_in. by case_bool_decide.
  - unfold PromoteCanonicalChat.
    destruct (String.eqb _ _); [done |]. destruct (Nat.eqb _ _); [done |].
    destruct (promote_chat_all _ _ _) as [tx|e] eqn:Hall; [| done].
    by eapply payload_ok_promote_chat_all.
  - by apply payload_ok_StoreMessageRow.
  - unfold StoreMediaInfo. destruct (Z.leb _ _); [done |].
    simpl. apply payload_ok_fmap; [| done].
    intros r. by case_bool_decide.
  - by apply payload_ok_Reset.
Qed.

Lemma payload_ok_foldl (ops : list StoreOp) :
  ∀ store, payload_ok store → payload_ok (foldl apply store ops).
Proof.
  induction ops as [|op ops IH]; simpl; intros store H; [done |].
  apply IH. by apply payload_ok_apply.
Qed.

(** C4.  [StoreMessage] with empty content and empty media type returns
    [nil] and leaves the cache as it was; and after any sequence of store
    operations on the new database every message row has a content or a
    media type that is not empty. *)
Theorem StoreMessage_never_persists_empty_payload :
  (∀ store id chatJID sender timestamp isFromMe filename url
     mediaKey fileSHA256 fileEncSHA256 fileLength,
     StoreMessage id chatJID sender "" timestamp isFromMe "" filename url
       mediaKey fileSHA256 fileEncSHA256 fileLength store = (store, None))
  ∧ (∀ ops r, r ∈ messages (run ops) → msg_content r ≠ "" ∨ msg_media_type r ≠ "").
Proof.
  split; [reflexivity |].
  intros ops r Hr.
  assert (H : payload_ok (run ops)) by (apply payload_ok_foldl, Forall_nil_2).
  unfold payload_ok in H. rewrite Forall_forall in H. by apply H.
Qed.

(** ** Idempotence of [StoreMessage] *)

Lemma rows_with_key_after_insert (r : MessageRow) (rows : list MessageRow) :
  filter (λ x, msg_key x = msg_key r)
    (filter (λ x, msg_key x ≠ msg_key r) rows ++ [r])%list = [r].
Proof.
  rewrite filter_app.
  assert (Hr : filter (λ x, msg_key x = msg_key r) [r] = [r]).
  { rewrite filter_cons. destruct (decide (msg_key r = msg_key r)); done. }
  rewrite Hr.
  replace (filter _ (filter _ rows)) with (@nil MessageRow); [done |].
  symmetry. induction rows as [|x rows IH]; [done |].
  rewrite (filter_cons (λ x, msg_key x ≠ msg_key r)).
  destruct (decide (msg_key x ≠ msg_key r)); [| done].
  by rewrite filter_cons_False.
Qed.

Lemma filter_other_after_insert (r : MessageRow) (rows : list MessageRow) :
  filter (λ x, msg_key x ≠ msg_key r)
    (filter (λ x, msg_key x ≠ msg_key r) rows ++ [r])%list
  = filter (λ x, msg_key x ≠ msg_key r) rows.
Proof.
  rewrite filter_app.
  assert (Hr : filter (λ x, msg_key x ≠ msg_key r) [r] = []).
  { rewrite filter_cons. destruct (decide (msg_key r ≠ msg_key r)); done. }
  rewrite Hr, app_nil_r. induction rows as [|x rows IH]; [done |].
  rewrite !(filter_cons (λ x, msg_key x ≠ msg_key r)).
  destruct (decide (msg_key x ≠ msg_key r)); [| done].
  rewrite filter_cons_True by done. by rewrite IH.
Qed.

Lemma insert_accepted (r : MessageRow) (store : MessageStore) :
  accepted r store →
  insert_or_replace_message r store
  = (with_messages (filter (λ x, msg_key x ≠ msg_key r) (messages store) ++ [r]) store,
     None).
Proof.
  intros [[c Hc] Hlen]. unfold insert_or_replace_message.
  destruct (Z.leb_spec (2 ^ 63) (msg_file_length r)); [lia |]. by rewrite Hc.
Qed.

Lemma insert_rejected (r : MessageRow) (store : MessageStore) :
  ¬ accepted r store → fst (insert_or_replace_message r store) = store.
Proof.
  intros Hn. unfold insert_or_replace_message.
  destruct (Z.leb_spec (2 ^ 63) (msg_file_length r)); [done |].
  destruct (chats store !! msg_chat_jid r) eqn:Hc; [| done].
  exfalso. apply Hn. split; [by eexists | done].
Qed.

Lemma accepted_dec (r : MessageRow) (store : MessageStore) :
  accepted r store ∨ ¬ accepted r store.
Proof.
  unfold accepted. destruct (chats store !! msg_chat_jid r) eqn:Hc.
  - destruct (Z.lt_ge_cases (msg_file_length r) (2 ^ 63)).
    + left. split; [by eexists | done].
    + right. intros [_ ?]. lia.
  - right. intros [[? ?] _]. congruence.
Qed.

(** A second execution with the same columns changes nothing more. *)
Lemma StoreMessageRow_twice (r : MessageRow) (store : MessageStore) :
  fst (StoreMessageRow r (fst (StoreMessageRow r store))) = fst (StoreMessageRow r store).
Proof.
  rewrite !StoreMessageRow_eta.
  destruct (String.eqb (msg_content r) "" && String.eqb (msg_media_type r) ""); [done |].
  destruct (accepted_dec r store) as [Ha|Hn].
  - rewrite (insert_accepted r store Ha). simpl.
    rewrite insert_accepted by (destruct Ha; by split).
    unfold with_messages. simpl. by rewrite filter_other_after_insert.
  - rewrite (insert_rejected r store Hn). by rewrite (insert_rejected r store Hn).
Qed.

Lemma store_times_once (n : nat) (r : MessageRow) (store : MessageStore) :
  (1 ≤ n)%nat → store_times n r store = fst (StoreMessageRow r store).
Proof.
  unfold store_times. induction n as [|n IH]; [lia |]. intros _.
  destruct n as [|n]; [done |].
  change (Nat.iter (S (S n)) ?f ?s) with (f (Nat.iter (S n) f s)).
  rewrite IH by lia. apply StoreMessageRow_twice.
Qed.




End StoreFacts.

(* ===================================================================== *)
(** * Properties of the identity resolver and of the live handler *)
(* ===================================================================== *)

Section ResolverFacts.
Import GoStrings WaTypes Identity.

Lemma nonempty_length (s : string) : s ≠ "" → Nat.ltb 0 (String.length s) = true.
Proof. destruct s; [done | reflexivity]. Qed.

(** C9.  For a group id [G@g.us] (a JID with user part [G], not empty, and
    server [g.us], whatever its device part) [canonicalizeChatID] returns
    the string [G@g.us], and [chatAliasIDs] returns no alias. *)
Theorem canonicalizeChatID_keeps_group_id (client : Client) (G : string)
    (agent device integrator : Z) (canonicalChatID : string) :
  G ≠ "" →
  canonicalizeChatID client (mkJID G agent device integrator "g.us") = G ++ "@g.us"
  ∧ chatAliasIDs client (mkJID G agent device integrator "g.us") canonicalChatID = [].
Proof.
  intros HG. split; [| reflexivity].
  unfold canonicalizeChatID, JIDString. simpl. by rewrite nonempty_length.
Qed.

(** The witness: a group id as the platform hands them out. *)
Lemma canonicalizeChatID_keeps_group_id_witness :
  "120363025246125486" ≠ ""
  ∧ canonicalizeChatID Props.offlineClient (mkJID "120363025246125486" 0 0 0 "g.us")
    = "120363025246125486@g.us".
Proof.
  assert (H : "120363025246125486" ≠ "") by discriminate.
  split; [exact H |].
  exact (proj1 (canonicalizeChatID_keeps_group_id Props.offlineClient
                  "120363025246125486" 0 0 0 "" H)).
Defined.

End ResolverFacts.

Section LiveFacts.
Import GoStrings WaTypes Identity Storage Sync.

(** C10.  A live message with empty content and no media type is dropped
    after its chat was stored: [handleMessage] leaves the cache with the
    chat row of the canonical chat id set to the resolved name and the
    time of the message, and with the message and alias tables as they
    were. *)
Theorem handleMessage_empty_payload_stores_chat_only (stamp : string) (client : Client)
    (messageStore : MessageStore) (msg : MessageEvent) :
  extractTextContent (evt_Message msg) = "" →
  mi_mediaType (extractMediaInfo stamp (evt_Message msg)) = "" →
  let info := evt_Info msg in
  let chatID := canonicalizeChatID client (ToNonAD (info_Chat info)) in
  let name :=
    getChatName client messageStore (ToNonAD (info_Chat info)) chatID None
      (canonicalizeSender client (info_Sender info) (info_SenderAlt info)) in
  let after := handleMessage stamp client messageStore msg in
  chats after
  = <[chatID := mkChat (Some name) (Some (info_Timestamp info))]> (chats messageStore)
  ∧ chats after !! chatID = Some (mkChat (Some name) (Some (info_Timestamp info)))
  ∧ messages after = messages messageStore
  ∧ sender_id_aliases after = sender_id_aliases messageStore.
Proof.
  intros Hc Hm. unfold handleMessage. rewrite Hc, Hm. simpl.
  repeat split. by rewrite lookup_insert_eq.
Qed.

(** The witness: an event without a protobuf message, from a contact. *)
Lemma handleMessage_empty_payload_stores_chat_only_witness :
  let msg :=
    mkMessageEvent
      (mkMessageInfo (NewJID "15551234567" DefaultUserServer)
         (NewJID "15551234567" DefaultUserServer) EmptyJID "3EB0" 1700 false)
      None in
  extractTextContent (evt_Message msg) = ""
  ∧ mi_mediaType (extractMediaInfo "20240101_000000" (evt_Message msg)) = ""
  ∧ messages (handleMessage "20240101_000000" Props.offlineClient fresh msg) = [].
Proof.
  split; [reflexivity |]. split; [reflexivity |].
  exact (proj1 (proj2 (proj2
    (handleMessage_empty_payload_stores_chat_only "20240101_000000" Props.offlineClient
       fresh
       (mkMessageEvent
          (mkMessageInfo (NewJID "15551234567" DefaultUserServer)
             (NewJID "15551234567" DefaultUserServer) EmptyJID "3EB0" 1700 false)
          None)
       eq_refl eq_refl)))).
Defined.

End LiveFacts.

(* ===================================================================== *)
(** * Properties of the history handler *)
(* ===================================================================== *)

Section HistoryFacts.
Import WaTypes Storage Sync Props.
Import Bootstrap.

Variable ParseJID : string -> option JID.
Variable intOutOfRange : Float64.float64 -> Z.
Variable stampAt : Z -> nat -> string.

#[local] Abbreviation updateProgress := (Sync.updateProgress intOutOfRange).
#[local] Abbreviation progressValue := (Sync.progressValue intOutOfRange).
#[local] Abbreviation historyConversation :=
  (Sync.historyConversation ParseJID intOutOfRange stampAt).
#[local] Abbreviation historyLoop := (Sync.historyLoop ParseJID intOutOfRange stampAt).
#[local] Abbreviation handleHistorySync :=
  (Sync.handleHistorySync ParseJID intOutOfRange stampAt).
#[local] Abbreviation reports := (Props.reports intOutOfRange).

(** Whatever a conversation holds, its turn of the loop reports the
    progress exactly once, and nothing else reaches the status. *)
Lemma historyConversation_status (client : Client) (total idx : Z)
    (conversation : Conversation) (w : World) :
  Sync.w_status (historyConversation client total idx conversation w)
  = updateProgress total (idx + 1) (Sync.w_status w).
Proof.
  unfold Sync.historyConversation.
  destruct (conv_ID conversation) as [chatJID|]; [| done].
  destruct (ParseJID chatJID) as [jid|]; [| done].
  destruct (conv_Messages conversation) as [|latestMsg rest]; [done |].
  destruct latestMsg as [hm|]; [| done].
  destruct (hsm_Message hm) as [latest|]; [| done].
  by destruct (Z.eqb (wmi_MessageTimestamp latest) 0).
Qed.

Lemma historyLoop_status (client : Client) (total : Z) (conversations : list Conversation) :
  ∀ idx w,
    Sync.w_status (historyLoop client total idx conversations w)
    = reports total idx (length conversations) (Sync.w_status w).
Proof.
  induction conversations as [|c cs IH]; intros idx w; simpl; [done |].
  by rewrite IH, historyConversation_status.
Qed.

(** A report made while the status is [syncing] keeps the state and the
    message and replaces the three counters. *)
Lemma updateProgress_syncing (total processed : Z) (cell : StatusCell)
    (progress current : Z) :
  0 < total →
  Bootstrap.current cell = syncingStatus progress current total →
  updateProgress total processed cell
  = mkCell (syncingStatus (clampProgress (progressValue total processed)) processed total)
      (published cell
       ++ [syncingStatus (clampProgress (progressValue total processed)) processed total])%list.
Proof.
  intros Ht Hc. unfold Sync.updateProgress.
  destruct (Z.leb_spec total 0); [lia |].
  unfold SetSyncingProgress, GetAuthStatus, setAuthStatus. by rewrite Hc.
Qed.

Lemma reports_syncing (total : Z) (n : nat) :
  0 < total →
  ∀ idx cell progress current,
    Bootstrap.current cell = syncingStatus progress current total →
    published (reports total idx n cell)
    = (published cell
       ++ ((λ k, syncingStatus (clampProgress (progressValue total (idx + k))) (idx + k) total)
             <$> processedCounts n))%list
    ∧ (∃ p c, Bootstrap.current (reports total idx n cell) = syncingStatus p c total).
Proof.
  intros Ht. induction n as [|n IH]; intros idx cell progress current Hc.
  - simpl. rewrite app_nil_r. eauto.
  - simpl reports.
    rewrite (updateProgress_syncing total (idx + 1) cell progress current Ht Hc).
    match goal with
    | |- context [Props.reports _ _ _ _ ?c] =>
        destruct (IH (idx + 1) c _ _ eq_refl) as [Hp Hcur]
    end.
    rewrite Hp. split; [| exact Hcur]. simpl published.
    rewrite <- app_assoc. f_equal. unfold processedCounts.
    change (seq 1 (S n)) with (1%nat :: seq 2 n).
    rewrite <- (fmap_S_seq 1 n), fmap_cons. simpl. f_equal.
    rewrite <- !list_fmap_compose. apply list_fmap_ext. intros i x _. simpl.
    replace (idx + 1 + Z.of_nat x) with (idx + Z.pos (Pos.of_succ_nat x)) by lia.
    reflexivity.
Qed.

(** The clamp of the closure and of [SetSyncingProgress] keep every
    published progress between 0 and 95. *)
Lemma progress_bounds (total processed : Z) :
  0 ≤ clampProgress (progressValue total processed) ≤ 95.
Proof.
  unfold Sync.progressValue, clampProgress.
  set (raw := 25 + Float64.to_integer _ _ _ _).
  destruct (Z.ltb_spec 95 raw); simpl; [lia |].
  destruct (Z.ltb_spec raw 0); [lia |].
  destruct (Z.ltb_spec 100 raw); lia.
Qed.

(** For ten conversations the reported values, whatever the platform. *)
Lemma progress_of_ten :
  (λ k, clampProgress (progressValue 10 k)) <$> processedCounts 10
  = [32; 39; 46; 53; 60; 67; 74; 81; 88; 95].
Proof. by vm_compute. Qed.

(** For batches of up to 64 conversations the published progress is
    [25 + 70·processed/N] clamped to 95, the quotient rounded down (checked
    by evaluation of the binary64 arithmetic); the first batch size at which
    the two differ is 70. *)
Lemma progress_exact_up_to_64 (N processed : Z) :
  1 ≤ processed ≤ N → N ≤ 64 →
  clampProgress (progressValue N processed) = exactProgress N processed.
Proof.
  intros Hk HN.
  assert (Hall : progressIsExactUpTo intOutOfRange 64 = true) by (by vm_compute).
  unfold progressIsExactUpTo in Hall. rewrite forallb_forall in Hall.
  specialize (Hall (Z.to_nat N)). rewrite forallb_forall in Hall.
  assert (Hin : In (Z.to_nat N) (seq 1 64)) by (apply in_seq; lia).
  specialize (Hall Hin processed). rewrite Z2Nat.id in Hall by lia.
  assert (Hp : In processed (processedCounts (Z.to_nat N))).
  { unfold processedCounts. apply list_elem_of_In, list_elem_of_fmap.
    exists (Z.to_nat processed). split; [lia |].
    apply list_elem_of_In, in_seq. lia. }
  specialize (Hall Hp). unfold progressIsExact in Hall. by apply Z.eqb_eq in Hall.
Qed.

(** C8, the counterexample.  In a batch of 70 conversations the report
    after the 47th publishes 71: the quotient 47/70 and its product with 70
    are rounded to [float64] and the product, a little below 47, is cut to
    46; [25 + 70·47/70] is 72. *)
Lemma history_progress_47_of_70 :
  SyncProgress
    <$> (published
           (Sync.w_status
              (Sync.handleHistorySync (λ _, None) (λ _, 0) (λ _ _, "") offlineClient
                 (anonymousBatch 70) (Sync.mkWorld fresh Bootstrap.initial)))
         !! 47%nat)
  = Some 71
  ∧ exactProgress 70 47 = 72.
Proof. split; by vm_compute. Qed.

(** C8, as the code has it.  For a batch of [N > 0] conversations, whatever
    they hold, the handler publishes, in this order: [syncing] with
    progress 25, current 0 and total [N]; after the [k]-th conversation
    ([k] = 1..[N]) [syncing] with current [k], total [N] and the progress
    [25 + int(float64(k) / float64(N) * 70)] clamped to 95; and at the end
    [connected].  Every published progress is at most 95, and for [N = 10]
    the values are 32, 39, 46, 53, 60, 67, 74, 81, 88, 95. *)
Theorem handleHistorySync_progress (client : Client) (conversations : list Conversation)
    (w : World) :
  let N := Z.of_nat (length conversations) in
  0 < N →
  let after := Sync.w_status (handleHistorySync client conversations w) in
  published after
  = (published (Sync.w_status w)
     ++ [syncingStatus 25 0 N]
     ++ ((λ k, syncingStatus (clampProgress (progressValue N k)) k N)
           <$> processedCounts (length conversations))
     ++ [connectedStatus])%list
  ∧ Bootstrap.current after = connectedStatus
  ∧ (∀ k, 0 ≤ clampProgress (progressValue N k) ≤ 95)
  ∧ (λ k, clampProgress (progressValue 10 k)) <$> processedCounts 10
    = [32; 39; 46; 53; 60; 67; 74; 81; 88; 95].
Proof.
  intros N HN after. subst after. unfold Sync.handleHistorySync. fold N.
  destruct (Z.ltb_spec 0 N) as [_|]; [| lia]. simpl Sync.w_status.
  rewrite historyLoop_status. simpl Sync.w_status.
  set (start := SetSyncing "Syncing WhatsApp messages" 25 0 N (Sync.w_status w)).
  destruct (reports_syncing N (length conversations) HN 0 start 25 0 eq_refl)
    as [Hp _].
  split; [| split; [reflexivity | split; [intros k; apply progress_bounds | apply progress_of_ten]]].
  unfold SetConnected, setAuthStatus. simpl published. rewrite Hp.
  subst start. unfold SetSyncing, setAuthStatus. simpl published.
  rewrite <- !app_assoc. reflexivity.
Qed.

End HistoryFacts.

(** The witness: a batch of three conversations on the initial status. *)
Lemma handleHistorySync_progress_witness :
  0 < Z.of_nat (length (Props.anonymousBatch 3))
  ∧ Bootstrap.current
      (Sync.w_status
         (Sync.handleHistorySync (λ _, None) (λ _, 0) (λ _ _, "") Props.offlineClient
            (Props.anonymousBatch 3) (Sync.mkWorld Storage.fresh Bootstrap.initial)))
    = Props.connectedStatus.
Proof.
  assert (H : 0 < Z.of_nat (length (Props.anonymousBatch 3))) by (vm_compute; reflexivity).
  split; [exact H |].
  exact (proj1 (proj2 (handleHistorySync_progress (λ _, None) (λ _, 0) (λ _ _, "")
                         Props.offlineClient (Props.anonymousBatch 3)
                         (Sync.mkWorld Storage.fresh Bootstrap.initial) H))).
Defined.

(* ===================================================================== *)
(** * Properties of the control plane *)
(* ===================================================================== *)

Section ApiFacts.
Import GoStrings Storage Api.

Variable ParseWithClaims : bridgeAuthConfig -> string -> option bridgeJWTClaims.
Variable cleanPath : string -> string.

#[local] Abbreviation withAuth := (withRequiredBridgeJWTAuth ParseWithClaims).
#[local] Abbreviation serve := (Api.serve ParseWithClaims cleanPath).

(** On a registered path, a method the handler does not take has no
    scope. *)
Lemma requiredScope_wrong_method (method path : string) (h : Handler) :
  muxLookup routes path = Some h → method ≠ handlerMethod h →
  requiredScopeForRoute method path = ("", false).
Proof.
  unfold routes, requiredScopeForRoute. cbn [muxLookup]. intros Hh Hm.
  eqb_cases; try discriminate; injection Hh as <-; cbn in Hm; congruence.
Qed.

(** A method and a path that have a scope are a registered path and the
    method of its handler. *)
Lemma requiredScope_registered (method path scope : string) :
  requiredScopeForRoute method path = (scope, true) →
  ∃ h, muxLookup routes path = Some h ∧ method = handlerMethod h.
Proof.
  unfold routes, requiredScopeForRoute. cbn [muxLookup]. intros Hs.
  eqb_cases; try discriminate; try congruence; eexists; split; reflexivity.
Qed.

(** What the wrapper lets through has passed every check. *)
Lemma withAuth_entered (authConfig : bridgeAuthConfig) (h g : Handler) (r : Request) :
  withAuth authConfig (handlerEntry g) r = Entered h →
  h = g ∧ Method r = handlerMethod g
  ∧ ∃ scope claims,
      requiredScopeForRoute (Method r) (Path r) = (scope, true)
      ∧ ParseWithClaims authConfig
          (TrimSpace (TrimPrefix (TrimSpace (Authorization r)) bearer)) = Some claims
      ∧ ExpiresAt claims ≠ None ∧ IssuedAt claims ≠ None
      ∧ TrimSpace (Subject claims) ≠ "" ∧ TrimSpace (RuntimeID claims) ≠ ""
      ∧ hasRequiredScope (Scope claims) scope = true.
Proof.
  unfold withRequiredBridgeJWTAuth.
  destruct (_ || _); [discriminate |].
  destruct (requiredScopeForRoute (Method r) (Path r)) as [scope ok] eqn:Hs.
  destruct ok; simpl; [| discriminate].
  destruct (ParseWithClaims _ _) as [claims|] eqn:Hc; [| discriminate].
  repeat case_bool_decide; simpl; try discriminate.
  destruct (String.eqb_spec (TrimSpace (Subject claims)) ""); [discriminate |].
  destruct (String.eqb_spec (TrimSpace (RuntimeID claims)) ""); [discriminate |].
  destruct (hasRequiredScope _ _) eqn:Hr; simpl; [| discriminate].
  unfold handlerEntry.
  destruct (String.eqb_spec (Method r) (handlerMethod g)); simpl; [| discriminate].
  intros [= <-]. repeat split; [done |]. by exists scope, claims.
Qed.

(** The wrapper never answers 405. *)
Lemma withAuth_not_405 (authConfig : bridgeAuthConfig) (g : Handler) (r : Request)
    (resp : Response) :
  muxLookup routes (Path r) = Some g →
  withAuth authConfig (handlerEntry g) r = Replied resp → StatusCode resp ≠ 405.
Proof.
  intros Hg. unfold withRequiredBridgeJWTAuth.
  destruct (_ || _); [by intros [= <-] |].
  destruct (requiredScopeForRoute (Method r) (Path r)) as [scope ok] eqn:Hs.
  destruct ok; simpl; [| by intros [= <-]].
  destruct (ParseWithClaims _ _) as [claims|]; [| by intros [= <-]].
  destruct (_ || _); [by intros [= <-] |].
  destruct (String.eqb _ _); [by intros [= <-] |].
  destruct (hasRequiredScope _ _); simpl; [| by intros [= <-]].
  apply requiredScope_registered in Hs as [h [Hh Hm]].
  rewrite Hg in Hh. injection Hh as ->.
  unfold handlerEntry. rewrite Hm, String.eqb_refl. discriminate.
Qed.



End ApiFacts.


Section RevokeFacts.
Import GoStrings Storage Api Props.

(** [Reset] empties the three tables, or fails and leaves them. *)
Lemma Reset_cases (fault : ResetFault) (store : MessageStore) :
  Reset fault store = (fresh, None) ∨ ∃ e, Reset fault store = (store, Some e).
Proof.
  destruct fault as [|e|n e|e]; simpl; eauto.
  destruct n as [|[|[|n]]]; simpl; eauto.
Qed.

(** C2, the counterexamples.  The remote logout fails with "remote
    timeout".  When deleting the device store fails too, the answer is 500,
    the cache keeps its rows, the device id stays and no status is
    published.  When the local steps succeed, the answer is 502 with a
    fixed message that holds no error text. *)
Lemma revoke_partial_failure_cases :
  (let out := revokeDisconnectHandler (failedLogout (Some "disk full") NoFault)
                postRevoke linkedWorld in
   StatusCode (snd out) = 500
   ∧ rt_messageStore (fst out) = Some (one_row_store "abc")
   ∧ w_handle (fst out) = Some (Disconnect linkedClient)
   ∧ Bootstrap.State (Bootstrap.current (w_status (fst out))) = "disconnected")
  ∧ (let out := revokeDisconnectHandler (failedLogout None NoFault)
                  postRevoke linkedWorld in
     ∃ message, snd out = writeJSON 502 false message
                ∧ Contains message "remote timeout" = false).
Proof.
  split; [by vm_compute |]. eexists. split; [reflexivity | by vm_compute].
Qed.

(** C2, as the code has it.  Revoke is called for a client that is linked
    to a device, and the remote logout fails with [err].  The client is
    detached in every case.  When deleting the device store fails with
    [cleanupErr], the answer is 500 with both errors in the message, and
    the cache and the status are untouched.  Otherwise the device id is
    gone; then, when the cache reset fails with [cacheErr], the answer is
    500 with [err] and [cacheErr] in the message and the cache is
    unchanged; and when it succeeds, the three tables are empty,
    [logged_out] is published and the answer is 502 with the fixed message
    of the handler. *)
Theorem revoke_after_failed_logout (env : RevokeEnv) (r : Request) (w : World)
    (status : Bootstrap.StatusCell) (client : ClientHandle) (jid : WaTypes.JID)
    (err : string) :
  Method r = "POST" →
  acquireClient env w = (status, inl client) →
  StoreID client = Some jid →
  env_logout env = Some err →
  let after := fst (revokeDisconnectHandler env r w) in
  let resp := snd (revokeDisconnectHandler env r w) in
  rt_client after = None
  ∧ (∀ cleanupErr, env_delete env = Some cleanupErr →
       resp = writeJSON 500 false
                ("Failed to revoke WhatsApp device (" ++ err
                 ++ ") and local cleanup also failed (" ++ cleanupErr ++ ")")
       ∧ rt_messageStore after = rt_messageStore w
       ∧ w_status after = status
       ∧ w_handle after = Some (mkHandle (Some jid) false))
  ∧ (env_delete env = None →
     w_handle after = Some (mkHandle None false)
     ∧ ∀ store, rt_messageStore w = Some store →
         (∀ cacheErr, snd (Reset (env_reset env) store) = Some cacheErr →
            resp = writeJSON 500 false
                     ("Failed to revoke WhatsApp device (" ++ err
                      ++ "); local credentials were cleared but message cleanup failed ("
                      ++ cacheErr ++ ")")
            ∧ rt_messageStore after = Some store
            ∧ w_status after = status)
         ∧ (snd (Reset (env_reset env) store) = None →
            resp = writeJSON 502 false
                     "Failed to revoke WhatsApp device remotely. Local credentials were cleared."
            ∧ rt_messageStore after = Some fresh
            ∧ w_status after
              = Bootstrap.SetLoggedOut
                  "WhatsApp local credentials cleared. Re-authentication is required."
                  status
            ∧ Bootstrap.State (Bootstrap.current (w_status after)) = "logged_out")).
Proof.
  intros Hm Hacq Hid Hlog after resp. subst after resp.
  unfold revokeDisconnectHandler, revokeBody. rewrite Hm, Hacq, Hid, Hlog. simpl negb.
  cbv iota. unfold revokeAfterFailedLogout, clearLocalDeviceCredentials, Disconnect.
  simpl StoreID. rewrite Hid.
  destruct (env_delete env) as [cleanupErr|] eqn:Hdel.
  - simpl. split; [done |]. split; [| done].
    by intros ? [= <-].
  - unfold clearLocalMessageCache. simpl IsConnected.
    destruct (rt_messageStore w) as [store|] eqn:Hstore.
    + destruct (Reset_cases (env_reset env) store) as [Hr|[e Hr]]; rewrite Hr; simpl.
      * split; [done |]. split; [done |]. intros _. split; [done |].
        intros ? [= <-]. rewrite Hr. simpl. split; [done |]. by intros _.
      * split; [done |]. split; [done |]. intros _. split; [done |].
        intros ? [= <-]. rewrite Hr. simpl. split; [| done].
        by intros ? [= <-].
    + simpl. split; [done |]. split; [done |]. intros _. split; done.
Qed.

(** The witness: the local steps succeed. *)
Lemma revoke_after_failed_logout_witness :
  Method postRevoke = "POST"
  ∧ rt_client (fst (revokeDisconnectHandler (failedLogout None NoFault)
                      postRevoke linkedWorld)) = None.
Proof.
  split; [reflexivity |].
  exact (proj1 (revoke_after_failed_logout (failedLogout None NoFault) postRevoke
                  linkedWorld Bootstrap.initial linkedClient
                  (WaTypes.NewJID "15551234567" WaTypes.DefaultUserServer)
                  "remote timeout" eq_refl eq_refl eq_refl eq_refl)).
Defined.

End RevokeFacts.

(* ===================================================================== *)
(** * Properties of the Ogg Opus analysis *)
(* ===================================================================== *)

Section AudioFacts.
Import Float64 Audio Props.

Variable uint32OutOfRange : float64 -> Z.
Variable byteOutOfRange : float64 -> Z.
Variable Sin : float64 -> float64.
Variable rngFloat64 : Z -> nat -> float64.

#[local] Abbreviation analyzeOggOpus :=
  (Audio.analyzeOggOpus uint32OutOfRange byteOutOfRange Sin rngFloat64).
#[local] Abbreviation durationOf := (Audio.durationOf uint32OutOfRange).
#[local] Abbreviation placeholderWaveform :=
  (Audio.placeholderWaveform byteOutOfRange Sin rngFloat64).

Lemma byteZ_nonneg (b : byte) : 0 ≤ byteZ b.
Proof. unfold byteZ. lia. Qed.

Lemma littleEndian_nonneg (bs : list byte) : 0 ≤ littleEndian bs.
Proof.
  induction bs as [|b bs IH]; simpl; [lia |].
  apply Z.lor_nonneg. split; [apply byteZ_nonneg |]. by apply Z.shiftl_nonneg.
Qed.

Lemma segments_nonneg (segmentTable : list byte) :
  0 ≤ foldr (λ segLen n, byteZ segLen + n) 0 segmentTable.
Proof.
  induction segmentTable as [|b bs IH]; simpl; [lia |].
  pose proof (byteZ_nonneg b). lia.
Qed.

(** The loop ends: every turn moves [i] forward, by one byte or by a page
    of at least 27, and stops at [len(data)]. *)
Lemma scanPages_fuel (data : ByteSlice) :
  ∀ fuel i st, 0 ≤ i → (Z.to_nat (len data - i) < fuel)%nat →
               scanPages fuel data i st ≠ None.
Proof.
  induction fuel as [|fuel IH]; intros i st Hi Hf; [lia |].
  simpl. destruct (Z.leb_spec (len data) i); [done |].
  destruct (Z.leb_spec (len data) (i + 27)); [done |].
  destruct (negb _).
  { apply IH; lia. }
  set (numSegments := littleEndian (slice (elems data) (i + 26) (i + 27))).
  destruct (Z.leb_spec (len data) (i + 27 + numSegments)); [done |].
  match goal with
  | |- context [readOpusHead data i ?size] => set (pageSize := size)
  end.
  assert (Hp : 27 ≤ pageSize).
  { subst pageSize.
    pose proof (littleEndian_nonneg (slice (elems data) (i + 26) (i + 27))) as Hn.
    pose proof (segments_nonneg (slice (elems data) (i + 27) (i + 27 + numSegments)))
      as Hs.
    fold numSegments in Hn. lia. }
  match goal with
  | |- context [if ?c then readOpusHead data i pageSize st else inl st] =>
      destruct (if c then readOpusHead data i pageSize st else inl st) as [st'|p];
        [| done]
  end.
  apply IH; lia.
Qed.

(** [analyzeOggOpus] always ends: in an error, a result or a panic. *)
Lemma analyzeOggOpus_ends (data : ByteSlice) : is_Some (analyzeOggOpus data).
Proof.
  unfold Audio.analyzeOggOpus. destruct (_ || _); [by eexists |].
  pose proof (scanPages_fuel data (S (length (elems data))) 0 initialScan) as H.
  destruct (scanPages _ _ _ _) as [[st|p]|]; [by eexists | by eexists |].
  exfalso. apply H; [lia | | done]. unfold len. lia.
Qed.

(** When it returns, the duration is between 1 and 300 and the waveform
    has 64 entries. *)
Lemma analyzeOggOpus_result_shape (data : ByteSlice) (duration : Z) (waveform : list Z) :
  analyzeOggOpus data = Some (Returns duration waveform) →
  1 ≤ duration ≤ 300 ∧ length waveform = 64%nat.
Proof.
  unfold Audio.analyzeOggOpus. destruct (_ || _); [discriminate |].
  destruct (scanPages _ _ _ _) as [[st|p]|]; try discriminate.
  intros [= <- <-]. split.
  - unfold Audio.durationOf. set (raw := if Z.ltb 0 _ then _ else _).
    destruct (Z.ltb_spec raw 1); [lia |]. destruct (Z.ltb_spec 300 raw); lia.
  - unfold Audio.placeholderWaveform. by rewrite length_fmap, length_seq.
Qed.

(** C6.  On the file cut off inside its first page, [analyzeOggOpus] does
    not return: the slice expression [data[i : i+pageSize]] asks for 65307
    bytes of a slice whose capacity is 512, and the run-time panics. *)
Theorem analyzeOggOpus_panics_on_truncated_page :
  len truncatedFirstPage = 283
  ∧ cap truncatedFirstPage = 512
  ∧ analyzeOggOpus truncatedFirstPage = Some (Panics panicSliceBounds).
Proof. by vm_compute. Qed.

End AudioFacts.

(* ===================================================================== *)
(** * Further properties of the cache store *)
(* ===================================================================== *)

Section AliasFacts.
Import GoStrings Storage Props.

(** One upsert, read back. *)
Lemma upsert_alias_lookup (canonical : string) (t : Time) (tbl : gmap string AliasRow)
    (a : string) :
  (∃ u, upsert_alias canonical t tbl a !! a = Some (mkAlias canonical u)
        ∧ upserted_time (tbl !! a) t u)
  ∧ ∀ k, k ≠ a → upsert_alias canonical t tbl a !! k = tbl !! k.
Proof.
  unfold upsert_alias, upserted_time. split.
  - destruct (tbl !! a) as [old|]; rewrite lookup_insert_eq; eexists; (split; [reflexivity |]).
    + destruct (Z.ltb _ _); [by left | by right].
    + done.
  - intros k Hk. destruct (tbl !! a); by rewrite lookup_insert_ne.
Qed.

(** The upserts of the loop leave the other keys alone. *)
Lemma foldl_upsert_alias_other (canonical : string) (t : Time) (keys : list string) :
  ∀ tbl k, k ∉ keys → foldl (upsert_alias canonical t) tbl keys !! k = tbl !! k.
Proof.
  induction keys as [|a keys IH]; intros tbl k Hk; simpl; [done |].
  apply not_elem_of_cons in Hk as [Hka Hk].
  rewrite IH by done. by apply upsert_alias_lookup.
Qed.

(** The upserts of the loop, read back: a key of the loop holds the
    canonical id, with the new time or the one it held. *)
Lemma foldl_upsert_alias_lookup (canonical : string) (t : Time) (keys : list string) :
  ∀ tbl k, k ∈ keys →
    ∃ u, foldl (upsert_alias canonical t) tbl keys !! k = Some (mkAlias canonical u)
         ∧ upserted_time (tbl !! k) t u.
Proof.
  induction keys as [|a keys IH]; intros tbl k Hk; simpl.
  - by apply not_elem_of_nil in Hk.
  - destruct (upsert_alias_lookup canonical t tbl a) as [(u0 & Ha & Hu0) Hother].
    destruct (decide (k ∈ keys)) as [Hin|Hnin].
    + destruct (IH (upsert_alias canonical t tbl a) k Hin) as (u & Hk' & Hu).
      exists u. split; [done |].
      destruct (decide (k = a)) as [->|Hne].
      * rewrite Ha in Hu. simpl in Hu. unfold upserted_time in *.
        destruct (tbl !! a); destruct Hu as [->| ->]; simpl; tauto.
      * by rewrite Hother in Hu.
    + apply elem_of_cons in Hk as [->|Hk]; [| done].
      exists u0. split; [| done]. by rewrite foldl_upsert_alias_other.
Qed.

Lemma elem_of_alias_keys (canonical : string) (A : list string) (k : string) :
  k ∈ alias_keys canonical A ↔ k = canonical ∨ (k ≠ "" ∧ k ∈ normalizeSenderID <$> A).
Proof.
  unfold alias_keys.
  rewrite elem_of_remove_dups, elem_of_cons, list_elem_of_filter. tauto.
Qed.

(** X1.  [StoreSenderAliases], read back.  When the normal form of the
    canonical id is not empty, the call returns no error, leaves chats and
    messages alone, and afterwards the canonical id and every alias with a
    non-empty normal form map to the canonical id.  The [updated_at] of
    such a row is the new time when the key had no row, and otherwise the
    new time or the one the row held, never a third value.  Every other
    key keeps its row. *)
Theorem StoreSenderAliases_lookup (store : MessageStore) (C : string) (A : list string)
    (t : Time) :
  normalizeSenderID C ≠ "" →
  let canonical := normalizeSenderID C in
  let after := fst (StoreSenderAliases C A t store) in
  snd (StoreSenderAliases C A t store) = None
  ∧ chats after = chats store
  ∧ messages after = messages store
  ∧ (∀ k, k = canonical ∨ (k ≠ "" ∧ k ∈ normalizeSenderID <$> A) →
          ∃ u, sender_id_aliases after !! k = Some (mkAlias canonical u)
               ∧ upserted_time (sender_id_aliases store !! k) t u)
  ∧ (∀ k, k ≠ canonical → k ∉ normalizeSenderID <$> A →
          sender_id_aliases after !! k = sender_id_aliases store !! k).
Proof.
  intros HC canonical after. subst canonical after. unfold StoreSenderAliases.
  rewrite (eqb_empty_false _ HC). simpl.
  split; [done |]. split; [done |]. split; [done |]. split.
  - intros k Hk. apply foldl_upsert_alias_lookup. by apply elem_of_alias_keys.
  - intros k Hc HA. apply foldl_upsert_alias_other.
    rewrite elem_of_alias_keys. tauto.
Qed.

(** The witness: the phone number ["123"] with its hidden id ["abc"]. *)
Lemma StoreSenderAliases_lookup_witness :
  normalizeSenderID "123@s.whatsapp.net" ≠ ""
  ∧ snd (StoreSenderAliases "123@s.whatsapp.net" ["abc@lid"] 9 (one_row_store "abc")) = None.
Proof.
  assert (H : normalizeSenderID "123@s.whatsapp.net" ≠ "") by (by vm_compute).
  split; [exact H |].
  exact (proj1 (StoreSenderAliases_lookup (one_row_store "abc") "123@s.whatsapp.net"
                  ["abc@lid"] 9 H)).
Defined.

(** Upserts commute, equal aliases included. *)
Lemma upsert_alias_swap (canonical : string) (t : Time) (tbl : gmap string AliasRow)
    (a b : string) :
  upsert_alias canonical t (upsert_alias canonical t tbl a) b
  = upsert_alias canonical t (upsert_alias canonical t tbl b) a.
Proof.
  destruct (decide (a = b)) as [->|Hab]; [done |]. by apply upsert_alias_comm.
Qed.

Lemma foldl_upsert_alias_perm (canonical : string) (t : Time) (keys keys' : list string) :
  keys ≡ₚ keys' →
  ∀ tbl, foldl (upsert_alias canonical t) tbl keys
         = foldl (upsert_alias canonical t) tbl keys'.
Proof.
  induction 1 as [|a l l' _ IH|a b l|l1 l2 l3 _ IH1 _ IH2]; intros tbl; simpl.
  - done.
  - apply IH.
  - by rewrite upsert_alias_swap.
  - by rewrite IH1, IH2.
Qed.

(** X2.  Go ranges over the map [unique] in an order of its choosing; the
    table [StoreSenderAliases] writes is the same for every order. *)
Theorem StoreSenderAliases_any_order (order : list string) (store : MessageStore)
    (C : string) (A : list string) (t : Time) :
  order ≡ₚ alias_keys (normalizeSenderID C) A →
  StoreSenderAliases_ranging order C t store = StoreSenderAliases C A t store.
Proof.
  intros Hp. unfold StoreSenderAliases_ranging, StoreSenderAliases.
  destruct (String.eqb _ _); [done |].
  by rewrite (foldl_upsert_alias_perm _ _ _ _ Hp).
Qed.

(** The witness: the two keys of the example in the other order. *)
Lemma StoreSenderAliases_any_order_witness :
  ["abc"; "123"] ≡ₚ alias_keys (normalizeSenderID "123@s.whatsapp.net") ["abc@lid"]
  ∧ StoreSenderAliases_ranging ["abc"; "123"] "123@s.whatsapp.net" 9 (one_row_store "abc")
    = StoreSenderAliases "123@s.whatsapp.net" ["abc@lid"] 9 (one_row_store "abc").
Proof.
  assert (H : ["abc"; "123"] ≡ₚ alias_keys (normalizeSenderID "123@s.whatsapp.net")
                                   ["abc@lid"])
    by (vm_compute; apply perm_swap).
  split; [exact H |].
  exact (StoreSenderAliases_any_order ["abc"; "123"] (one_row_store "abc")
           "123@s.whatsapp.net" ["abc@lid"] 9 H).
Defined.

End AliasFacts.

Section PromoteChatFacts.
Import GoStrings Storage Props.

(** What the three statements of one alias leave, when none fails. *)
Lemma promote_chat_alias_inl (canonical alias : string) (tx tx' : MessageStore) :
  promote_chat_alias canonical tx alias = inl tx' →
  messages tx' = move_chat canonical [alias] <$> messages tx
  ∧ chats tx' = delete alias (copied_chats canonical alias (chats tx))
  ∧ sender_id_aliases tx' = sender_id_aliases tx
  ∧ (filter (λ r, msg_chat_jid r = alias) (messages tx) ≠ [] →
     is_Some (copied_chats canonical alias (chats tx) !! canonical))
  ∧ ¬ Exists (λ r, (msg_id r, canonical)
                     ∈ msg_key <$> filter (λ r, msg_chat_jid r ≠ alias) (messages tx))
        (filter (λ r, msg_chat_jid r = alias) (messages tx)).
Proof.
  unfold promote_chat_alias. fold (copied_chats canonical alias (chats tx)).
  case_bool_decide as Hdup; [discriminate |].
  case_bool_decide as Hfk; [discriminate |].
  intros [= <-]. simpl. split; [| split; [done | split; [done | split; [| done]]]].
  - apply list_fmap_ext. intros i r _. unfold move_chat.
    repeat case_bool_decide; try done.
    + exfalso. match goal with H : _ ∉ [_] |- _ => apply H end. subst. apply list_elem_of_here.
    + exfalso. match goal with H : _ ∈ [_] |- _ => apply list_elem_of_singleton in H end. done.
  - intros Hm. destruct (copied_chats canonical alias (chats tx) !! canonical) eqn:Hc;
      [by eexists |]. exfalso. apply Hfk. by split.
Qed.

Lemma move_chat_cons (canonical a : string) (rest : list string) (r : MessageRow) :
  canonical ∉ rest →
  move_chat canonical rest (move_chat canonical [a] r) = move_chat canonical (a :: rest) r.
Proof.
  intros Hc. unfold move_chat.
  destruct (decide (msg_chat_jid r = a)) as [Ha|Ha].
  - rewrite (bool_decide_eq_true_2 (msg_chat_jid r ∈ [a])) by (rewrite Ha; apply list_elem_of_here).
    rewrite (bool_decide_eq_true_2 (msg_chat_jid r ∈ a :: rest)) by (rewrite Ha; apply list_elem_of_here).
    simpl. by rewrite bool_decide_eq_false_2.
  - rewrite (bool_decide_eq_false_2 (msg_chat_jid r ∈ [a])) by (by rewrite list_elem_of_singleton).
    erewrite (bool_decide_ext (msg_chat_jid r ∈ a :: rest)); [reflexivity |].
    rewrite elem_of_cons. tauto.
Qed.

Lemma copied_chats_other (canonical alias b : string) (tbl : gmap string ChatRow) :
  b ≠ canonical → copied_chats canonical alias tbl !! b = tbl !! b.
Proof.
  intros Hb. unfold copied_chats.
  destruct (tbl !! alias); [| done].
  destruct (tbl !! canonical); by rewrite lookup_insert_ne.
Qed.

(** The loop over the aliases, when no statement fails. *)
Lemma promote_chat_all_inl (canonical : string) (order : list string) :
  canonical ∉ order →
  ∀ tx tx', promote_chat_all canonical tx order = inl tx' →
    messages tx' = move_chat canonical order <$> messages tx
    ∧ sender_id_aliases tx' = sender_id_aliases tx
    ∧ (∀ a, a ∈ order → chats tx' !! a = None)
    ∧ (∀ b, b ∉ order → b ≠ canonical → chats tx' !! b = chats tx !! b).
Proof.
  induction order as [|a order IH]; intros Hc tx tx'; simpl.
  - intros [= <-]. split; [| split; [done | split; [| done]]].
    + symmetry. etrans; [| apply list_fmap_id]. apply list_fmap_ext. intros i r _.
      unfold move_chat. rewrite bool_decide_eq_false_2; [done | apply not_elem_of_nil].
    + intros a Ha. by apply not_elem_of_nil in Ha.
  - destruct (promote_chat_alias canonical tx a) as [tx1|e] eqn:Ha; [| discriminate].
    intros Hall.
    apply not_elem_of_cons in Hc as [Hca Hc].
    apply promote_chat_alias_inl in Ha as (Hm1 & Hc1 & Ha1 & _ & _).
    apply IH in Hall as (Hm & Hal & Hin & Hout); [| done].
    split; [| split; [congruence | split]].
    + rewrite Hm, Hm1, <- list_fmap_compose. apply list_fmap_ext. intros i r _.
      simpl. by apply move_chat_cons.
    + intros b [->|Hb]%elem_of_cons; [| by apply Hin].
      destruct (decide (a ∈ order)) as [Hao|Hao]; [by apply Hin |].
      rewrite Hout by done. rewrite Hc1. apply lookup_delete_eq.
    + intros b [Hba Hbo]%not_elem_of_cons Hbc.
      rewrite Hout, Hc1 by done. rewrite lookup_delete_ne by done.
      by apply copied_chats_other.
Qed.

Lemma promote_keys_canonical (canonical : string) (A : list string) :
  canonical ∉ promote_keys canonical A.
Proof. rewrite elem_of_promote_keys. tauto. Qed.

(** X3.  [PromoteCanonicalChat] for a canonical id whose normal form is not
    empty, whatever the order in which Go ranges over the aliases.  When a
    statement fails the transaction is rolled back and the cache is as it
    was.  Otherwise every message of an alias chat has moved to the
    canonical chat, all its other columns and the rows of other chats
    untouched; no alias has a chat row any more; chats other than the
    aliases and the canonical one keep their rows; and the alias table is
    not written. *)
Theorem PromoteCanonicalChat_moves_chats (order : list string) (store : MessageStore)
    (C : string) (A : list string) :
  normalizeSenderID C ≠ "" →
  order ≡ₚ promote_keys (normalizeSenderID C) A →
  let canonical := normalizeSenderID C in
  let after := fst (PromoteCanonicalChat_ranging order C store) in
  (snd (PromoteCanonicalChat_ranging order C store) ≠ None → after = store)
  ∧ (snd (PromoteCanonicalChat_ranging order C store) = None →
     messages after = move_chat canonical (promote_keys canonical A) <$> messages store
     ∧ (∀ a, a ∈ promote_keys canonical A → chats after !! a = None)
     ∧ (∀ b, b ∉ promote_keys canonical A → b ≠ canonical →
             chats after !! b = chats store !! b)
     ∧ sender_id_aliases after = sender_id_aliases store)
  ∧ PromoteCanonicalChat_ranging (promote_keys canonical A) C store
    = PromoteCanonicalChat C A store.
Proof.
  intros HC Hp canonical after. subst canonical after.
  split; [| split; [| reflexivity]].
  - unfold PromoteCanonicalChat_ranging.
    destruct (String.eqb _ _); [done |]. destruct (Nat.eqb _ _); [done |].
    by destruct (promote_chat_all _ _ _).
  - unfold PromoteCanonicalChat_ranging. rewrite (eqb_empty_false _ HC).
    assert (Hmove : ∀ r, move_chat (normalizeSenderID C) (promote_keys (normalizeSenderID C) A) r
                         = move_chat (normalizeSenderID C) order r).
    { intros r. unfold move_chat. erewrite bool_decide_ext; [reflexivity |].
      by rewrite Hp. }
    destruct (Nat.eqb_spec (length order) 0) as [Hlen|_].
    + apply nil_length_inv in Hlen. subst order. intros _. simpl.
      apply Permutation_nil_l in Hp. rewrite <- Hp.
      split; [| split; [| done]].
      * symmetry. etrans; [| apply list_fmap_id]. apply list_fmap_ext. intros i r _.
        unfold move_chat. rewrite bool_decide_eq_false_2; [done | apply not_elem_of_nil].
      * intros a Ha. by apply not_elem_of_nil in Ha.
    + destruct (promote_chat_all _ _ _) as [tx|e] eqn:Hall; [| done]. intros _. simpl.
      apply promote_chat_all_inl in Hall as (Hm & Hal & Hin & Hout).
      2:{ rewrite Hp. apply promote_keys_canonical. }
      split; [| split; [| split; [| done]]].
      * rewrite Hm. apply list_fmap_ext. intros i r _. by rewrite Hmove.
      * intros a Ha. apply Hin. by rewrite Hp.
      * intros b Hb Hbc. apply Hout; [| done]. by rewrite Hp.
Qed.

End PromoteChatFacts.

Section PromoteChatTimes.
Import GoStrings Storage Props.

(** One alias: the time of the canonical chat is one the two chats had,
    it is there when one of them had one, and a name of the canonical chat
    that is not empty is kept. *)
Lemma promote_chat_alias_merge (canonical alias : string) (tx tx' : MessageStore) :
  alias ≠ canonical →
  promote_chat_alias canonical tx alias = inl tx' →
  (∀ t, last_message_time canonical tx' = Some t →
        last_message_time canonical tx = Some t ∨ last_message_time alias tx = Some t)
  ∧ (∀ a, a = canonical ∨ a = alias → is_Some (last_message_time a tx) →
          is_Some (last_message_time canonical tx'))
  ∧ last_message_time alias tx' = None
  ∧ (∀ b, b ≠ alias → b ≠ canonical →
          last_message_time b tx' = last_message_time b tx)
  ∧ (∀ n, n ≠ "" → GetChatName canonical tx = Some n → GetChatName canonical tx' = Some n).
Proof.
  intros Hne (_ & Hc & _)%promote_chat_alias_inl.
  unfold last_message_time, GetChatName. rewrite Hc.
  rewrite lookup_delete_eq, (lookup_delete_ne _ alias canonical) by done.
  split; [| split; [| split; [done | split]]].
  - intros t. unfold copied_chats.
    destruct (chats tx !! alias) as [src|]; [| tauto].
    destruct (chats tx !! canonical) as [cur|]; rewrite lookup_insert_eq; [| tauto].
    unfold merge_chat. simpl.
    destruct (chat_last_message_time cur) as [c|], (chat_last_message_time src) as [e|];
      try tauto.
    destruct (Z.ltb c e); tauto.
  - intros a Ha. unfold copied_chats.
    destruct (chats tx !! alias) as [src|] eqn:Hsrc.
    + destruct (chats tx !! canonical) as [cur|] eqn:Hcur; rewrite lookup_insert_eq.
      * unfold merge_chat. simpl. destruct Ha as [-> | ->].
        -- rewrite Hcur. intros [c ->].
           destruct (chat_last_message_time src) as [e|]; [| by eexists].
           destruct (Z.ltb c e); by eexists.
        -- rewrite Hsrc. intros [e ->].
           destruct (chat_last_message_time cur) as [c|]; [| by eexists].
           destruct (Z.ltb c e); by eexists.
      * destruct Ha as [-> | ->]; [rewrite Hcur; by intros [? [=]] | by rewrite Hsrc].
    + destruct Ha as [-> | ->]; [done | rewrite Hsrc; by intros [? [=]]].
  - intros b Hba Hbc. rewrite lookup_delete_ne by done.
    by rewrite copied_chats_other.
  - intros n Hn. unfold copied_chats.
    destruct (chats tx !! alias) as [src|]; [| done].
    destruct (chats tx !! canonical) as [cur|]; [| discriminate].
    rewrite lookup_insert_eq. unfold merge_chat. simpl.
    intros ->. by rewrite (eqb_empty_false _ Hn).
Qed.

Lemma promote_chat_all_merge (canonical : string) (order : list string) :
  canonical ∉ order →
  ∀ tx tx', promote_chat_all canonical tx order = inl tx' →
    (∀ t, last_message_time canonical tx' = Some t →
          ∃ a, (a = canonical ∨ a ∈ order) ∧ last_message_time a tx = Some t)
    ∧ (∀ a, a = canonical ∨ a ∈ order → is_Some (last_message_time a tx) →
            is_Some (last_message_time canonical tx'))
    ∧ (∀ n, n ≠ "" → GetChatName canonical tx = Some n → GetChatName canonical tx' = Some n).
Proof.
  induction order as [|x order IH]; intros Hc tx tx'; simpl.
  - intros [= <-]. split; [| split; [| done]].
    + intros t Ht. exists canonical. by split; [left |].
    + intros a [->|Ha]; [done | by apply not_elem_of_nil in Ha].
  - destruct (promote_chat_alias canonical tx x) as [tx1|e] eqn:Hx; [| discriminate].
    intros Hall.
    apply not_elem_of_cons in Hc as [Hcx Hc].
    apply promote_chat_alias_merge in Hx as (Hfrom & Hsome & Hgone & Hother & Hn1); [| done].
    apply IH in Hall as (Ht & Hs & Hn); [| done].
    split; [| split; [| by eauto]].
    + intros t Hafter. destruct (Ht t Hafter) as (a & Ha & Hat).
      destruct Ha as [->|Ha].
      * destruct (Hfrom t Hat) as [Hcan|Hal].
        -- exists canonical. by split; [left |].
        -- exists x. split; [right; apply list_elem_of_here | done].
      * destruct (decide (a = x)) as [->|Hax]; [congruence |].
        destruct (decide (a = canonical)) as [->|Hac]; [done |].
        exists a. split; [right; by apply list_elem_of_further |].
        by rewrite <- Hother.
    + intros a Ha Hat.
      destruct (decide (a = canonical)) as [->|Hac].
      { apply (Hs canonical); [by left |]. apply (Hsome canonical); [by left | done]. }
      destruct (decide (a = x)) as [->|Hax].
      { apply (Hs canonical); [by left |]. apply (Hsome x); [by right | done]. }
      destruct Ha as [->|[->|Hao]%elem_of_cons]; [done | done |].
      apply (Hs a); [by right |]. by rewrite Hother.
Qed.

(** X4.  [PromoteCanonicalChat] merges the chat rows without inventing or
    losing anything.  When it succeeds (the normal form of the canonical
    id not empty, the aliases taken in any order), a name of the canonical
    chat that was not empty is kept; the [last_message_time] of the
    canonical chat is one that the canonical chat or a merged alias chat
    had before; and the canonical chat has a time when one of them had
    one. *)
Theorem PromoteCanonicalChat_merges_name_and_time (order : list string)
    (store : MessageStore) (C : string) (A : list string) :
  normalizeSenderID C ≠ "" →
  order ≡ₚ promote_keys (normalizeSenderID C) A →
  snd (PromoteCanonicalChat_ranging order C store) = None →
  let canonical := normalizeSenderID C in
  let after := fst (PromoteCanonicalChat_ranging order C store) in
  (∀ n, n ≠ "" → GetChatName canonical store = Some n →
        GetChatName canonical after = Some n)
  ∧ (∀ t, last_message_time canonical after = Some t →
          ∃ a, (a = canonical ∨ a ∈ promote_keys canonical A)
               ∧ last_message_time a store = Some t)
  ∧ (∀ a, a = canonical ∨ a ∈ promote_keys canonical A →
          is_Some (last_message_time a store) →
          is_Some (last_message_time canonical after)).
Proof.
  intros HC Hp. unfold PromoteCanonicalChat_ranging. rewrite (eqb_empty_false _ HC).
  destruct (Nat.eqb_spec (length order) 0) as [Hlen|_].
  - apply nil_length_inv in Hlen. subst order. intros _. simpl.
    apply Permutation_nil_l in Hp. rewrite <- Hp. split; [done |]. split.
    + intros t Ht. exists (normalizeSenderID C). by split; [left |].
    + intros a [->|Ha]; [done | by apply not_elem_of_nil in Ha].
  - destruct (promote_chat_all _ _ _) as [tx|e] eqn:Hall; [| done]. intros _. simpl.
    apply promote_chat_all_merge in Hall as (Ht & Hs & Hn).
    2:{ rewrite Hp. apply promote_keys_canonical. }
    split; [done |]. split.
    + intros t Hafter. destruct (Ht t Hafter) as (a & Ha & Hat).
      exists a. split; [| done]. by rewrite <- Hp.
    + intros a Ha. apply Hs. by rewrite Hp.
Qed.

(** The witness: the hidden id ["abc"] is merged into the chat ["123"]. *)
Lemma PromoteCanonicalChat_merges_name_and_time_witness :
  normalizeSenderID "123" ≠ ""
  ∧ ["abc"] ≡ₚ promote_keys (normalizeSenderID "123") ["abc@lid"; "123"]
  ∧ snd (PromoteCanonicalChat_ranging ["abc"] "123" split_chat_store) = None
  ∧ GetChatName "123" (fst (PromoteCanonicalChat_ranging ["abc"] "123" split_chat_store))
    = Some "Ann".
Proof.
  assert (HC : normalizeSenderID "123" ≠ "") by (by vm_compute).
  assert (Hp : ["abc"] ≡ₚ promote_keys (normalizeSenderID "123") ["abc@lid"; "123"])
    by (by vm_compute).
  assert (He : snd (PromoteCanonicalChat_ranging ["abc"] "123" split_chat_store) = None)
    by (by vm_compute).
  split; [exact HC |]. split; [exact Hp |]. split; [exact He |].
  apply (proj1 (PromoteCanonicalChat_merges_name_and_time ["abc"] split_chat_store "123"
                  ["abc@lid"; "123"] HC Hp He) "Ann").
  - discriminate.
  - by vm_compute.
Defined.

(** The witness of the move: the message of the chat ["abc"] ends up in the
    chat ["123"]. *)
Lemma PromoteCanonicalChat_moves_chats_witness :
  normalizeSenderID "123" ≠ ""
  ∧ ["abc"] ≡ₚ promote_keys (normalizeSenderID "123") ["abc@lid"; "123"]
  ∧ PromoteCanonicalChat_ranging (promote_keys (normalizeSenderID "123") ["abc@lid"; "123"])
      "123" split_chat_store
    = PromoteCanonicalChat "123" ["abc@lid"; "123"] split_chat_store.
Proof.
  assert (HC : normalizeSenderID "123" ≠ "") by (by vm_compute).
  assert (Hp : ["abc"] ≡ₚ promote_keys (normalizeSenderID "123") ["abc@lid"; "123"])
    by (by vm_compute).
  split; [exact HC |]. split; [exact Hp |].
  exact (proj2 (proj2 (PromoteCanonicalChat_moves_chats ["abc"] split_chat_store "123"
                         ["abc@lid"; "123"] HC Hp))).
Defined.

End PromoteChatTimes.

Section ConstraintFacts.
Import GoStrings Storage Props.

Lemma NoDup_fmap_inj_on {A B : Type} (f : A → B) (l : list A) (x y : A) :
  NoDup (f <$> l) → x ∈ l → y ∈ l → f x = f y → x = y.
Proof.
  induction l as [|z l IH]; simpl; intros Hnd Hx Hy Hf.
  - by apply not_elem_of_nil in Hx.
  - apply NoDup_cons in Hnd as [Hz Hnd].
    apply elem_of_cons in Hx as [->|Hx]; apply elem_of_cons in Hy as [->|Hy]; auto.
    + exfalso. apply Hz. rewrite Hf. by apply list_elem_of_fmap_2.
    + exfalso. apply Hz. rewrite <- Hf. by apply list_elem_of_fmap_2.
Qed.

Lemma keys_fmap_same (f : MessageRow → MessageRow) (rows : list MessageRow) :
  (∀ r, msg_key (f r) = msg_key r) → msg_key <$> (f <$> rows) = msg_key <$> rows.
Proof.
  intros Hf. rewrite <- list_fmap_compose. apply list_fmap_ext. intros i r _. apply Hf.
Qed.

Lemma chats_exist_fmap (f : MessageRow → MessageRow) (tbl : gmap string ChatRow)
    (rows : list MessageRow) :
  (∀ r, msg_chat_jid (f r) = msg_chat_jid r) →
  Forall (λ r, is_Some (tbl !! msg_chat_jid r)) rows →
  Forall (λ r, is_Some (tbl !! msg_chat_jid r)) (f <$> rows).
Proof.
  intros Hf H. apply Forall_fmap. eapply Forall_impl; [exact H |].
  intros r Hr. simpl. by rewrite Hf.
Qed.

Lemma copied_chats_is_Some (canonical alias c : string) (tbl : gmap string ChatRow) :
  is_Some (tbl !! c) → is_Some (copied_chats canonical alias tbl !! c).
Proof.
  intros Hc. unfold copied_chats. destruct (tbl !! alias); [| done].
  destruct (decide (c = canonical)) as [->|Hne].
  - destruct (tbl !! canonical); rewrite lookup_insert_eq; by eexists.
  - destruct (tbl !! canonical); by rewrite lookup_insert_ne.
Qed.

(** One alias of a promotion keeps the two constraints. *)
Lemma constraints_promote_chat_alias (canonical alias : string) (tx tx' : MessageStore) :
  alias ≠ canonical →
  promote_chat_alias canonical tx alias = inl tx' →
  keys_unique tx ∧ chats_exist tx → keys_unique tx' ∧ chats_exist tx'.
Proof.
  intros Hne (Hm & Hc & _ & Hfk & Hdup)%promote_chat_alias_inl [Hk He].
  unfold keys_unique, chats_exist in *. rewrite Hm, Hc. split.
  - rewrite <- list_fmap_compose. apply NoDup_fmap_2_strong; [| by eapply NoDup_fmap_1].
    intros x y Hx Hy Hxy. apply (NoDup_fmap_inj_on msg_key (messages tx)); try done.
    revert Hxy. unfold compose, move_chat, msg_key. simpl.
    rewrite !(bool_decide_ext (_ ∈ [alias]) (_ = alias)) by apply list_elem_of_singleton.
    repeat case_bool_decide; simpl; intros Heq; try congruence;
      injection Heq as Hid Hjid.
    + exfalso. apply Hdup. apply Exists_exists. exists x. split.
      * by apply list_elem_of_filter.
      * apply list_elem_of_fmap. exists y. split; [unfold msg_key; congruence |].
        by apply list_elem_of_filter.
    + exfalso. apply Hdup. apply Exists_exists. exists y. split.
      * by apply list_elem_of_filter.
      * apply list_elem_of_fmap. exists x. split; [unfold msg_key; congruence |].
        by apply list_elem_of_filter.
  - apply Forall_fmap. apply Forall_forall. intros r Hr.
    rewrite Forall_forall in He. specialize (He r Hr). simpl in He.
    unfold compose, move_chat.
    rewrite (bool_decide_ext (_ ∈ [alias]) (_ = alias)) by apply list_elem_of_singleton.
    case_bool_decide as Hra; simpl.
    + rewrite lookup_delete_ne by done. apply Hfk.
      intros Hnil. assert (Hin : r ∈ filter (λ r, msg_chat_jid r = alias) (messages tx))
        by (by apply list_elem_of_filter).
      rewrite Hnil in Hin. by apply not_elem_of_nil in Hin.
    + rewrite lookup_delete_ne by done. by apply copied_chats_is_Some.
Qed.

Lemma constraints_promote_chat_all (canonical : string) (order : list string) :
  canonical ∉ order →
  ∀ tx tx', promote_chat_all canonical tx order = inl tx' →
            keys_unique tx ∧ chats_exist tx → keys_unique tx' ∧ chats_exist tx'.
Proof.
  induction order as [|a order IH]; intros Hc tx tx'; simpl.
  - by intros [= <-].
  - destruct (promote_chat_alias canonical tx a) as [tx1|e] eqn:Ha; [| discriminate].
    apply not_elem_of_cons in Hc as [Hca Hc].
    intros Hall Hok. eapply IH; [done | exact Hall |].
    eapply constraints_promote_chat_alias; [| exact Ha | exact Hok]. done.
Qed.

Lemma constraints_StoreMessageRow (r : MessageRow) (store : MessageStore) :
  keys_unique store ∧ chats_exist store →
  keys_unique (fst (StoreMessageRow r store)) ∧ chats_exist (fst (StoreMessageRow r store)).
Proof.
  intros [Hk He]. rewrite StoreMessageRow_eta.
  destruct (String.eqb (msg_content r) "" && String.eqb (msg_media_type r) ""); [done |].
  unfold insert_or_replace_message.
  destruct (Z.leb _ _); [done |].
  destruct (chats store !! msg_chat_jid r) as [c|] eqn:Hc; [| done].
  unfold keys_unique, chats_exist in *. simpl. split.
  - rewrite fmap_app. apply NoDup_app. split; [| split].
    + eapply sublist_NoDup; [exact Hk |]. apply fmap_sublist, sublist_filter.
    + intros k [x [-> [Hx _]%list_elem_of_filter]]%list_elem_of_fmap Hin.
      apply list_elem_of_singleton in Hin. done.
    + apply NoDup_singleton.
  - apply Forall_app. split.
    + apply Forall_forall. intros x [_ Hx]%list_elem_of_filter.
      rewrite Forall_forall in He. by apply He.
    + apply Forall_singleton. by eexists.
Qed.

(** Every operation of the store keeps the primary key and the foreign key
    of [messages]. *)
Lemma constraints_apply (store : MessageStore) (op : StoreOp) :
  keys_unique store ∧ chats_exist store →
  keys_unique (apply store op) ∧ chats_exist (apply store op).
Proof.
  intros [Hk He].
  destruct op as [jid name t|c a t|c a|c a|r|id chat url key sha enc len|fault];
    unfold apply.
  - unfold keys_unique, chats_exist in *. simpl. split; [done |].
    eapply Forall_impl; [exact He |]. intros r Hr. simpl.
    destruct (decide (jid = msg_chat_jid r)) as [->|Hne].
    + rewrite lookup_insert_eq. by eexists.
    + by rewrite lookup_insert_ne.
  - unfold keys_unique, chats_exist.
    by rewrite StoreSenderAliases_messages, StoreSenderAliases_chats.
  - unfold PromoteCanonicalSender.
    destruct (String.eqb _ _); [done |]. destruct (Nat.eqb _ _); [done |].
    unfold keys_unique, chats_exist in *. simpl. split.
    + rewrite keys_fmap_same; [done |]. intros r. unfold update_sender_in.
      by case_bool_decide.
    + apply chats_exist_fmap; [| done]. intros r. unfold update_sender_in.
      by case_bool_decide.
  - unfold PromoteCanonicalChat.
    destruct (String.eqb _ _); [done |]. destruct (Nat.eqb _ _); [done |].
    destruct (promote_chat_all _ _ _) as [tx|e] eqn:Hall; [| done].
    eapply constraints_promote_chat_all; [| exact Hall | done].
    apply promote_keys_canonical.
  - by apply constraints_StoreMessageRow.
  - unfold StoreMediaInfo. destruct (Z.leb _ _); [done |].
    unfold keys_unique, chats_exist in *. simpl. split.
    + rewrite keys_fmap_same; [done |]. intros r. by case_bool_decide.
    + apply chats_exist_fmap; [| done]. intros r. by case_bool_decide.
  - destruct (Reset_cases fault store) as [->|[e ->]]; [| done].
    split; [apply NoDup_nil_2 | apply Forall_nil_2].
Qed.

(** X5.  The constraints of the schema hold in every state of the cache that
    the operations of the store reach from the new database: no two message
    rows share the key [(id, chat_jid)], and the chat of every message has
    a row in [chats] ([PromoteCanonicalChat], which deletes chat rows and
    rewrites the chat of messages, included). *)
Theorem store_keeps_its_constraints (ops : list StoreOp) :
  NoDup (msg_key <$> messages (run ops))
  ∧ ∀ r, r ∈ messages (run ops) → is_Some (chats (run ops) !! msg_chat_jid r).
Proof.
  assert (H : keys_unique (run ops) ∧ chats_exist (run ops)).
  { unfold run.
    assert (Hgen : ∀ store, keys_unique store ∧ chats_exist store →
                            keys_unique (foldl apply store ops)
                            ∧ chats_exist (foldl apply store ops)).
    { induction ops as [|op ops IH]; simpl; intros store Hs; [done |].
      apply IH. by apply constraints_apply. }
    apply Hgen. split; [apply NoDup_nil_2 | apply Forall_nil_2]. }
  destruct H as [Hk He]. split; [exact Hk |].
  intros r Hr. unfold chats_exist in He. rewrite Forall_forall in He. by apply He.
Qed.

End ConstraintFacts.

Section ChatRowFacts.
Import GoStrings Storage Props.

Lemma merge_chat_filled (cur src : ChatRow) :
  is_Some (chat_name cur) ∧ is_Some (chat_last_message_time cur) →
  is_Some (chat_name src) ∧ is_Some (chat_last_message_time src) →
  is_Some (chat_name (merge_chat cur src))
  ∧ is_Some (chat_last_message_time (merge_chat cur src)).
Proof.
  intros [[n Hn] [c Hc]] [[m Hm] [e He]]. unfold merge_chat. simpl.
  rewrite Hn, Hc, Hm, He. split.
  - by destruct (String.eqb n "").
  - by destruct (Z.ltb c e).
Qed.

Lemma chats_filled_promote_chat_alias (canonical alias : string) (tx tx' : MessageStore) :
  promote_chat_alias canonical tx alias = inl tx' → chats_filled tx → chats_filled tx'.
Proof.
  intros (_ & Hc & _)%promote_chat_alias_inl Hf. unfold chats_filled in *. rewrite Hc.
  apply map_Forall_delete. unfold copied_chats.
  destruct (chats tx !! alias) as [src|] eqn:Hsrc; [| done].
  pose proof (map_Forall_lookup_1 _ _ _ _ Hf Hsrc) as Hs. simpl in Hs.
  destruct (chats tx !! canonical) as [cur|] eqn:Hcur.
  - apply map_Forall_insert_2; [| done].
    pose proof (map_Forall_lookup_1 _ _ _ _ Hf Hcur) as Hcf. simpl in Hcf.
    by apply merge_chat_filled.
  - by apply map_Forall_insert_2.
Qed.

Lemma chats_filled_promote_chat_all (canonical : string) (order : list string) :
  ∀ tx tx', promote_chat_all canonical tx order = inl tx' →
            chats_filled tx → chats_filled tx'.
Proof.
  induction order as [|a order IH]; intros tx tx'; simpl.
  - by intros [= <-].
  - destruct (promote_chat_alias canonical tx a) as [tx1|e] eqn:Ha; [| discriminate].
    intros Hall Hf. eapply IH; [exact Hall |].
    by eapply chats_filled_promote_chat_alias.
Qed.

Lemma chats_filled_apply (store : MessageStore) (op : StoreOp) :
  chats_filled store → chats_filled (apply store op).
Proof.
  intros Hf.
  destruct op as [jid name t|c a t|c a|c a|r|id chat url key sha enc len|fault];
    unfold apply.
  - unfold chats_filled. simpl. apply map_Forall_insert_2; [| done].
    simpl. split; by eexists.
  - unfold chats_filled. by rewrite StoreSenderAliases_chats.
  - unfold PromoteCanonicalSender.
    destruct (String.eqb _ _); [done |]. by destruct (Nat.eqb _ _).
  - unfold PromoteCanonicalChat.
    destruct (String.eqb _ _); [done |]. destruct (Nat.eqb _ _); [done |].
    destruct (promote_chat_all _ _ _) as [tx|e] eqn:Hall; [| done].
    by eapply chats_filled_promote_chat_all.
  - rewrite StoreMessageRow_eta. destruct (_ && _); [done |].
    unfold insert_or_replace_message. destruct (Z.leb _ _); [done |].
    by destruct (chats store !! msg_chat_jid r).
  - unfold StoreMediaInfo. by destruct (Z.leb _ _).
  - destruct (Reset_cases fault store) as [->|[e ->]]; [| done].
    apply map_Forall_empty.
Qed.


End ChatRowFacts.

Section QueryFacts.
Import GoStrings Storage Props.

Lemma head_filter_fmap (P : MessageRow → Prop) `{!∀ x, Decision (P x)}
    (f : MessageRow → MessageRow) (rows : list MessageRow) :
  (∀ r, P (f r) ↔ P r) → head (filter P (f <$> rows)) = f <$> head (filter P rows).
Proof.
  intros Hf. induction rows as [|r rows IH]; [done |].
  rewrite fmap_cons, !filter_cons.
  destruct (decide (P (f r))) as [Hp|Hp], (decide (P r)) as [Hq|Hq]; simpl; try done.
  - exfalso. by apply Hq, Hf.
  - exfalso. by apply Hp, Hf.
Qed.

Lemma head_filter_None_fmap (P : MessageRow → Prop) `{!∀ x, Decision (P x)}
    (f : MessageRow → MessageRow) (rows : list MessageRow) :
  head (filter P rows) = None → (∀ r, ¬ P r → f r = r) → f <$> rows = rows.
Proof.
  intros Hh Hf. induction rows as [|r rows IH]; [done |].
  rewrite filter_cons in Hh. destruct (decide (P r)) as [Hp|Hp]; [discriminate |].
  rewrite fmap_cons, IH by done. by rewrite Hf.
Qed.

Lemma head_filter_holds (P : MessageRow → Prop) `{!∀ x, Decision (P x)}
    (rows : list MessageRow) (x : MessageRow) :
  head (filter P rows) = Some x → P x.
Proof.
  intros Hh. assert (Hin : x ∈ filter P rows).
  { destruct (filter P rows) as [|y l]; [discriminate |].
    simpl in Hh. injection Hh as ->. apply list_elem_of_here. }
  by apply list_elem_of_filter in Hin as [? _].
Qed.

Lemma head_filter_other (k : string * string) (r : MessageRow) (rows : list MessageRow) :
  k ≠ msg_key r →
  head (filter (λ x, msg_key x = k) (filter (λ x, msg_key x ≠ msg_key r) rows ++ [r])%list)
  = head (filter (λ x, msg_key x = k) rows).
Proof.
  intros Hk. rewrite filter_app.
  assert (Hr : filter (λ x, msg_key x = k) [r] = []).
  { rewrite filter_cons. destruct (decide (msg_key r = k)); [congruence | done]. }
  rewrite Hr, app_nil_r. f_equal.
  induction rows as [|x rows IH]; [done |].
  rewrite (filter_cons (λ x, msg_key x ≠ msg_key r)).
  destruct (decide (msg_key x ≠ msg_key r)) as [Hx|Hx].
  - rewrite !(filter_cons (λ x, msg_key x = k)). by rewrite IH.
  - rewrite IH. rewrite (filter_cons (λ x, msg_key x = k)).
    destruct (decide (msg_key x = k)) as [Hxk|]; [| done].
    exfalso. apply Hx. congruence.
Qed.

(** X7.  A message that [StoreMessage] stored is read back: for a row with a
    payload that the engine takes, [GetMediaInfo] and
    [GetMessageMediaTypeAndFilename] at its key return its media columns
    without an error, and the rows at every other key are the ones that
    were there. *)
Theorem GetMediaInfo_after_StoreMessage (store : MessageStore) (r : MessageRow) :
  has_payload r → accepted r store →
  let after := fst (StoreMessageRow r store) in
  message_row (msg_id r) (msg_chat_jid r) after = Some r
  ∧ GetMediaInfo (msg_id r) (msg_chat_jid r) after
    = (mkMediaColumns (msg_media_type r) (msg_filename r) (msg_url r) (msg_media_key r)
         (msg_file_sha256 r) (msg_file_enc_sha256 r) (msg_file_length r),
       None)
  ∧ GetMessageMediaTypeAndFilename (msg_id r) (msg_chat_jid r) after
    = ((msg_media_type r, msg_filename r), None)
  ∧ ∀ id chatJID, (id, chatJID) ≠ msg_key r →
      message_row id chatJID after = message_row id chatJID store.
Proof.
  intros Hp Ha after. subst after.
  rewrite StoreMessageRow_eta, (proj1 (has_payload_guard r) Hp), (insert_accepted r store Ha).
  simpl.
  assert (Hrow : message_row (msg_id r) (msg_chat_jid r)
                   (with_messages
                      (filter (λ x, msg_key x ≠ msg_key r) (messages store) ++ [r]) store)
                 = Some r).
  { unfold message_row. simpl.
    change (msg_id r, msg_chat_jid r) with (msg_key r).
    by rewrite rows_with_key_after_insert. }
  split; [exact Hrow |].
  unfold GetMediaInfo, GetMessageMediaTypeAndFilename. rewrite Hrow.
  split; [done |]. split; [done |].
  intros id chatJID Hk. unfold message_row. simpl. by apply head_filter_other.
Qed.

(** The witness: a text message into the chat of the example. *)
Lemma GetMediaInfo_after_StoreMessage_witness :
  has_payload (text_row "abc") ∧ accepted (text_row "abc") (one_row_store "xyz")
  ∧ message_row "m1" "123" (fst (StoreMessageRow (text_row "abc") (one_row_store "xyz")))
    = Some (text_row "abc").
Proof.
  assert (Hp : has_payload (text_row "abc")) by (left; by vm_compute).
  assert (Ha : accepted (text_row "abc") (one_row_store "xyz")).
  { split; [by eexists | by vm_compute]. }
  split; [exact Hp |]. split; [exact Ha |].
  exact (proj1 (GetMediaInfo_after_StoreMessage (one_row_store "xyz") (text_row "abc") Hp Ha)).
Defined.

(** The row [StoreMediaInfo] makes of [r]. *)
Lemma StoreMediaInfo_row_key (id chatJID url : string)
    (mediaKey fileSHA256 fileEncSHA256 : list byte) (fileLength : Z) (r : MessageRow) :
  msg_key
    (if bool_decide (msg_key r = (id, chatJID))
     then mkMessage (msg_id r) (msg_chat_jid r) (msg_sender r) (msg_content r)
            (msg_timestamp r) (msg_is_from_me r) (msg_media_type r) (msg_filename r)
            url mediaKey fileSHA256 fileEncSHA256 fileLength
     else r)
  = msg_key r.
Proof. by case_bool_decide. Qed.

(** X8.  [StoreMediaInfo] rewrites the five download columns of the row with
    the given key and nothing else: the row keeps its sender, content,
    time, media type and file name, and [GetMediaInfo] returns the new
    columns; rows at other keys, the chats and the aliases are untouched.
    When no row has the key the call changes nothing and still returns no
    error; a file length of 2^63 or more is refused. *)
Theorem StoreMediaInfo_updates_download_columns (store : MessageStore)
    (id chatJID url : string) (mediaKey fileSHA256 fileEncSHA256 : list byte)
    (fileLength : Z) :
  let out := StoreMediaInfo id chatJID url mediaKey fileSHA256 fileEncSHA256 fileLength
               store in
  (2 ^ 63 ≤ fileLength → out = (store, Some err_uint64))
  ∧ (fileLength < 2 ^ 63 →
     snd out = None
     ∧ chats (fst out) = chats store
     ∧ sender_id_aliases (fst out) = sender_id_aliases store
     ∧ (message_row id chatJID store = None → fst out = store)
     ∧ (∀ r, message_row id chatJID store = Some r →
          message_row id chatJID (fst out)
          = Some (mkMessage (msg_id r) (msg_chat_jid r) (msg_sender r) (msg_content r)
                    (msg_timestamp r) (msg_is_from_me r) (msg_media_type r)
                    (msg_filename r) url mediaKey fileSHA256 fileEncSHA256 fileLength)
          ∧ GetMediaInfo id chatJID (fst out)
            = (mkMediaColumns (msg_media_type r) (msg_filename r) url mediaKey
                 fileSHA256 fileEncSHA256 fileLength,
               None))
     ∧ (∀ id' chatJID', (id', chatJID') ≠ (id, chatJID) →
          message_row id' chatJID' (fst out) = message_row id' chatJID' store)).
Proof.
  intros out. subst out. unfold StoreMediaInfo. split.
  - intros Hlen. destruct (Z.leb_spec (2 ^ 63) fileLength); [done | lia].
  - intros Hlen. destruct (Z.leb_spec (2 ^ 63) fileLength); [lia |]. simpl.
    split; [done |]. split; [done |]. split; [done |]. split; [| split].
    + intros Hnone. unfold message_row in Hnone.
      rewrite (head_filter_None_fmap _ _ _ Hnone).
      * by destruct store.
      * intros r Hr. by rewrite bool_decide_eq_false_2.
    + intros r Hr.
      assert (Hrow : message_row id chatJID
                       (with_messages
                          ((λ r, if bool_decide (msg_key r = (id, chatJID))
                                 then mkMessage (msg_id r) (msg_chat_jid r) (msg_sender r)
                                        (msg_content r) (msg_timestamp r) (msg_is_from_me r)
                                        (msg_media_type r) (msg_filename r) url mediaKey
                                        fileSHA256 fileEncSHA256 fileLength
                                 else r) <$> messages store) store)
                     = Some (mkMessage (msg_id r) (msg_chat_jid r) (msg_sender r)
                               (msg_content r) (msg_timestamp r) (msg_is_from_me r)
                               (msg_media_type r) (msg_filename r) url mediaKey
                               fileSHA256 fileEncSHA256 fileLength)).
      { unfold message_row in *. simpl. rewrite head_filter_fmap.
        - rewrite Hr. simpl. f_equal. rewrite bool_decide_eq_true_2; [done |].
          by apply head_filter_holds in Hr.
        - intros x. by rewrite StoreMediaInfo_row_key. }
      split; [exact Hrow |]. unfold GetMediaInfo. by rewrite Hrow.
    + intros id' chatJID' Hk. unfold message_row. simpl. rewrite head_filter_fmap.
      * destruct (head (filter _ (messages store))) as [x|] eqn:Hx; [| done].
        simpl. f_equal. rewrite bool_decide_eq_false_2; [done |].
        apply head_filter_holds in Hx. congruence.
      * intros x. by rewrite StoreMediaInfo_row_key.
Qed.

End QueryFacts.

(* ===================================================================== *)
(** * Further properties of the identity resolver *)
(* ===================================================================== *)

Section NormalFormFacts.
Import GoStrings WaTypes Props.

Lemma BeforeByte_free (c : ascii) (s : string) : ContainsByte c (BeforeByte c s) = false.
Proof.
  induction s as [|d s IH]; simpl; [done |].
  destruct (Ascii.eqb c d) eqn:Hcd; simpl; [done |]. by rewrite Hcd.
Qed.

Lemma normalizeSenderID_free (id : string) :
  ContainsByte "@"%char (Storage.normalizeSenderID id) = false.
Proof.
  unfold Storage.normalizeSenderID.
  destruct (String.eqb (TrimSpace id) ""); [done |].
  destruct (ContainsByte "@"%char (TrimSpace id)) eqn:Hat; [apply BeforeByte_free | done].
Qed.

(** X9.  The normal form of an id never holds an ['@']: what
    [normalizeSenderID] returns is the trimmed id cut before its first
    ['@'], and the trimmed id itself when it has none.  The copy of the
    function in package [whatsapp] returns the same as the one in package
    [storage]. *)
Theorem normalizeSenderID_strips_server (id : string) :
  ContainsByte "@"%char (Storage.normalizeSenderID id) = false
  ∧ Storage.normalizeSenderID id = BeforeByte "@"%char (TrimSpace id)
  ∧ (ContainsByte "@"%char (TrimSpace id) = false →
     Storage.normalizeSenderID id = TrimSpace id)
  ∧ Identity.normalizeSenderID id = Storage.normalizeSenderID id.
Proof.
  split; [apply normalizeSenderID_free |]. split; [| split; [| reflexivity]].
  - unfold Storage.normalizeSenderID.
    destruct (String.eqb_spec (TrimSpace id) "") as [->|_]; [done |].
    destruct (ContainsByte "@"%char (TrimSpace id)) eqn:Hat; [done |].
    symmetry. revert Hat. generalize (TrimSpace id) as s.
    induction s as [|d s IH]; cbn [ContainsByte BeforeByte]; [done |].
    destruct (Ascii.eqb "@" d); [by intros [=] |]. intros Hs. by rewrite IH.
  - intros Hat. unfold Storage.normalizeSenderID. rewrite Hat.
    by destruct (String.eqb_spec (TrimSpace id) "") as [->|_].
Qed.

End NormalFormFacts.

Section AliasListFacts.
Import GoStrings WaTypes Identity Props.

Lemma add_keeps (ids : list string) (id : string) :
  NoDup ids ∧ Forall plain_id ids →
  NoDup (add ids id) ∧ Forall plain_id (add ids id)
  ∧ (length (add ids id) ≤ S (length ids))%nat
  ∧ (∀ x, x ∈ ids → x ∈ add ids id)
  ∧ (normalizeSenderID id ≠ "" → normalizeSenderID id ∈ add ids id).
Proof.
  intros [Hnd Hok]. unfold add.
  destruct (String.eqb_spec (normalizeSenderID id) "") as [He|Hne]; simpl.
  { split; [done |]. split; [done |]. split; [lia |]. split; [done |].
    by intros Hne. }
  case_bool_decide as Hin.
  { split; [done |]. split; [done |]. split; [lia |]. split; done. }
  repeat split.
  - apply NoDup_app. repeat split; [done | | apply NoDup_singleton].
    intros x Hx Hx'. apply list_elem_of_singleton in Hx'. by subst.
  - apply Forall_app. split; [done |]. apply Forall_singleton. split; [done |].
    apply normalizeSenderID_free.
  - rewrite length_app. simpl. lia.
  - intros x Hx. apply elem_of_app. by left.
  - intros _. apply elem_of_app. right. apply list_elem_of_here.
Qed.

Lemma add_opt_keeps (ids : list string) (id : option string) :
  NoDup ids ∧ Forall plain_id ids →
  NoDup (add_opt ids id) ∧ Forall plain_id (add_opt ids id)
  ∧ (length (add_opt ids id) ≤ S (length ids))%nat
  ∧ (∀ x, x ∈ ids → x ∈ add_opt ids id).
Proof.
  intros H. destruct id as [s|]; simpl.
  - destruct (add_keeps ids s H) as (? & ? & ? & ? & _). done.
  - destruct H. split; [done |]. split; [done |]. split; [lia | done].
Qed.

(** X10.  The list [senderAliasIDs] returns, for every client and every pair
    of JIDs: it has no duplicates and at most five entries, every entry is
    a non-empty id without a server part, and it holds the normal form of
    the canonical id and of the user parts of the sender and of its
    alternative, as far as they are not empty. *)
Theorem senderAliasIDs_wellformed (client : Client) (senderJID senderAlt : JID)
    (canonicalID : string) :
  let ids := senderAliasIDs client senderJID senderAlt canonicalID in
  NoDup ids
  ∧ Forall plain_id ids
  ∧ (length ids ≤ 5)%nat
  ∧ ∀ id, id = canonicalID ∨ id = User senderJID ∨ id = User senderAlt →
          normalizeSenderID id ≠ "" → normalizeSenderID id ∈ ids.
Proof.
  intros ids. subst ids. unfold senderAliasIDs. simpl.
  assert (H0 : NoDup (@nil string) ∧ Forall plain_id (@nil string))
    by (split; [apply NoDup_nil_2 | apply Forall_nil_2]).
  destruct (add_keeps [] canonicalID H0) as (N1 & F1 & L1 & _ & M1).
  set (ids1 := add [] canonicalID) in *.
  destruct (add_keeps ids1 (User senderJID) (conj N1 F1)) as (N2 & F2 & L2 & K2 & M2).
  set (ids2 := add ids1 (User senderJID)) in *.
  destruct (add_keeps ids2 (User senderAlt) (conj N2 F2)) as (N3 & F3 & L3 & K3 & M3).
  set (ids3 := add ids2 (User senderAlt)) in *.
  assert (Hmem : ∀ id, id = canonicalID ∨ id = User senderJID ∨ id = User senderAlt →
                       normalizeSenderID id ≠ "" → normalizeSenderID id ∈ ids3).
  { intros id [->|[->| ->]] Hne; auto. }
  simpl in L1. destruct (LIDs client) as [lids|].
  - match goal with
    | |- context [add_opt ids3 ?o] =>
        destruct (add_opt_keeps ids3 o (conj N3 F3)) as (N4 & F4 & L4 & K4);
        set (ids4 := add_opt ids3 o) in *
    end.
    match goal with
    | |- context [add_opt ids4 ?o] =>
        destruct (add_opt_keeps ids4 o (conj N4 F4)) as (N5 & F5 & L5 & K5)
    end.
    split; [done |]. split; [done |]. split; [lia |]. intros id Hid Hne. auto.
  - split; [done |]. split; [done |]. split; [lia | done].
Qed.

End AliasListFacts.

Section CanonicalSenderFacts.
Import GoStrings WaTypes Identity Props.

Variable ParseJID : string -> option JID.

#[local] Abbreviation parseSenderJID := (Identity.parseSenderJID ParseJID).

(** X11.  How [canonicalizeSender] picks the canonical id.  A sender without
    a server has none.  A phone-number alternative with a user part wins
    over the sender, whatever the client knows.  A phone-number sender
    without such an alternative is its own canonical id.  And a hidden
    (LID) sender that the LID index of the client maps to a phone number
    with a user part gets that user part. *)
Theorem canonicalizeSender_resolution (client : Client) (senderJID senderAlt : JID) :
  (Server senderJID = "" → canonicalizeSender client senderJID senderAlt = "")
  ∧ (Server senderJID ≠ "" → Server senderAlt = DefaultUserServer →
     User senderAlt ≠ "" →
     canonicalizeSender client senderJID senderAlt = User senderAlt)
  ∧ (Server senderJID = DefaultUserServer → Server senderAlt ≠ DefaultUserServer →
     canonicalizeSender client senderJID senderAlt = User senderJID)
  ∧ (Server senderJID = HiddenUserServer → Server senderAlt ≠ DefaultUserServer →
     ∀ lids pn, LIDs client = Some lids → GetPNForLID lids (ToNonAD senderJID) = Some pn →
                Server pn ≠ "" → User pn ≠ "" →
                canonicalizeSender client senderJID senderAlt = User pn).
Proof.
  unfold canonicalizeSender, IsEmpty. simpl.
  split; [| split; [| split]].
  - intros ->. reflexivity.
  - intros Hs Ha Hu. rewrite Ha. rewrite (eqb_empty_false _ Hs). simpl.
    rewrite Ha. simpl. by rewrite (eqb_empty_false _ Hu).
  - intros Hs Ha. rewrite Hs. simpl.
    assert (Hb : negb (String.eqb (Server senderAlt) "")
                 && String.eqb (Server senderAlt) DefaultUserServer = false).
    { apply andb_false_iff. right. by apply String.eqb_neq. }
    rewrite Hb. simpl. rewrite Hs. simpl. by destruct (String.eqb (User senderJID) "").
  - intros Hs Ha lids pn Hl Hpn Hps Hpu. rewrite Hs. simpl.
    assert (Hb : negb (String.eqb (Server senderAlt) "")
                 && String.eqb (Server senderAlt) DefaultUserServer = false).
    { apply andb_false_iff. right. by apply String.eqb_neq. }
    rewrite Hb. simpl. rewrite Hs. simpl. rewrite Hl, Hpn.
    rewrite (eqb_empty_false _ Hps). simpl. by rewrite (eqb_empty_false _ Hpu).
Qed.

(** The witness: the hidden sender ["abc"] of a client whose index knows
    its phone number. *)
Lemma canonicalizeSender_resolution_witness :
  canonicalizeSender indexedClient (mkJID "abc" 0 7 0 HiddenUserServer) EmptyJID = "123".
Proof.
  apply (proj2 (proj2 (proj2 (canonicalizeSender_resolution indexedClient
                                (mkJID "abc" 0 7 0 HiddenUserServer) EmptyJID)))
           eq_refl ltac:(discriminate) linkedIndex
           (NewJID "123" DefaultUserServer) eq_refl eq_refl
           ltac:(discriminate) ltac:(discriminate)).
Defined.

(** X12.  The sender of a history message that is given as a bare id (no
    ['@']): [parseSenderJID] makes it a phone-number JID of the trimmed
    text, and [canonicalizeSender] returns the trimmed text, whatever the
    client knows.  A blank sender gives the empty JID and the empty
    canonical id.  And the JID [parseSenderJID] returns never has a device
    or an agent part. *)
Theorem parseSenderJID_bare_id (client : Client) (sender : string) :
  (TrimSpace sender = "" →
   parseSenderJID sender = EmptyJID
   ∧ canonicalizeSender client (parseSenderJID sender) EmptyJID = "")
  ∧ (TrimSpace sender ≠ "" → ContainsByte "@"%char (TrimSpace sender) = false →
     parseSenderJID sender = NewJID (TrimSpace sender) DefaultUserServer
     ∧ canonicalizeSender client (parseSenderJID sender) EmptyJID = TrimSpace sender)
  ∧ Device (parseSenderJID sender) = 0 ∧ RawAgent (parseSenderJID sender) = 0.
Proof.
  unfold Identity.parseSenderJID. split; [| split].
  - intros ->. done.
  - intros Hne Hat. rewrite (eqb_empty_false _ Hne), Hat. split; [done |].
    unfold canonicalizeSender, IsEmpty. simpl. by rewrite (eqb_empty_false _ Hne).
  - destruct (String.eqb _ _); [done |].
    by destruct (if ContainsByte _ _ then _ else _).
Qed.

End CanonicalSenderFacts.

(** The witness: a participant given as a number with blanks around it. *)
Lemma parseSenderJID_bare_id_witness :
  GoStrings.TrimSpace " 15551234567 " ≠ ""
  ∧ GoStrings.ContainsByte "@"%char (GoStrings.TrimSpace " 15551234567 ") = false
  ∧ Identity.canonicalizeSender Props.offlineClient
      (Identity.parseSenderJID (λ _, None) " 15551234567 ") WaTypes.EmptyJID
    = GoStrings.TrimSpace " 15551234567 ".
Proof.
  assert (H1 : GoStrings.TrimSpace " 15551234567 " ≠ "") by (by vm_compute).
  assert (H2 : GoStrings.ContainsByte "@"%char (GoStrings.TrimSpace " 15551234567 ") = false)
    by (by vm_compute).
  split; [exact H1 |]. split; [exact H2 |].
  exact (proj2 (proj1 (proj2 (parseSenderJID_bare_id (λ _, None) Props.offlineClient
                                " 15551234567 ")) H1 H2)).
Defined.

(* ===================================================================== *)
(** * Properties of the published status *)
(* ===================================================================== *)

Ltac known_state :=
  unfold Props.knownStates;
  repeat first [apply list_elem_of_here | apply list_elem_of_further].

Section StatusFacts.
Import Bootstrap Props.

Variable qrcodeEncode : string -> option (list byte).
Variable base64 : list byte -> string.

#[local] Abbreviation applyStatusOp := (Props.applyStatusOp qrcodeEncode base64).
#[local] Abbreviation runStatus := (Props.runStatus qrcodeEncode base64).

Lemma clampProgress_range (progress : Z) : 0 ≤ clampProgress progress ≤ 100.
Proof.
  unfold clampProgress. destruct (Z.ltb_spec progress 0); [lia |].
  destruct (Z.ltb_spec 100 progress); lia.
Qed.

(** Every writer appends the status it sets to what was published. *)
Lemma applyStatusOp_published (cell : StatusCell) (op : StatusOp) :
  published (applyStatusOp cell op) = (published cell ++ [current (applyStatusOp cell op)])%list.
Proof. by destruct op. Qed.

(** Every writer sets a coherent status, provided the one it finds is
    coherent. *)
Lemma applyStatusOp_coherent (cell : StatusCell) (op : StatusOp) :
  coherent (current cell) → coherent (current (applyStatusOp cell op)).
Proof.
  intros (Hk & Hc & Hp & H100). unfold coherent.
  destruct op as [m|code m|m|m|m|m|m|m p c t|p c t]; simpl.
  1,2,4,5,6,7:
    (split; [known_state | split; [split; intros [=] | split; [lia | intros [=]]]]).
  - split; [known_state | split; [done | split; [lia | done]]].
  - split; [known_state | split; [split; intros [=] |]].
    split; [apply clampProgress_range | intros [=]].
  - unfold GetAuthStatus.
    destruct (String.eqb_spec (State (current cell)) "syncing") as [Hs|Hs]; simpl.
    + split; [done |]. split; [done |]. split; [apply clampProgress_range |].
      rewrite Hs. intros [=].
    + split; [known_state | split; [split; intros [=] |]].
      split; [apply clampProgress_range | intros [=]].
Qed.

Lemma runStatus_coherent (ops : list StatusOp) :
  ∀ cell, coherent (current cell) → Forall coherent (published cell) →
          coherent (current (foldl applyStatusOp cell ops))
          ∧ Forall coherent (published (foldl applyStatusOp cell ops)).
Proof.
  induction ops as [|op ops IH]; simpl; intros cell Hc Hp; [done |].
  apply IH.
  - by apply applyStatusOp_coherent.
  - rewrite applyStatusOp_published. apply Forall_app. split; [done |].
    apply Forall_singleton. by apply applyStatusOp_coherent.
Qed.

(** X13.  The status is written by the exported writers of package
    [bootstrap] only.  After any sequence of their calls, the current
    status and every status that was published on the way is coherent: its
    state is one of the eight states, [Connected] is true exactly when the
    state is ["connected"], the sync progress lies between 0 and 100, and
    it is 100 when the state is ["connected"]. *)
Theorem published_status_is_coherent (ops : list StatusOp) :
  coherent (current (runStatus ops)) ∧ Forall coherent (published (runStatus ops)).
Proof.
  apply runStatus_coherent; [| apply Forall_nil_2].
  unfold coherent. simpl.
  split; [known_state |]. split; [split; intros [=] |]. split; [lia | intros [=]].
Qed.

End StatusFacts.

Section FallbackFacts.
Import WaTypes Storage Sync Props.
Import Bootstrap.

Variable ParseJID : string -> option JID.
Variable intOutOfRange : Float64.float64 -> Z.
Variable stampAt : Z -> nat -> string.

#[local] Abbreviation handleHistorySync :=
  (Sync.handleHistorySync ParseJID intOutOfRange stampAt).

(** X14.  The [Connected] event arms a timer that publishes [connected] if,
    twenty seconds later, the status is still [syncing] with no totals.
    A history batch of [N > 0] conversations is safe from it: at none of
    the statuses the handler publishes would the timer do anything, and
    after the batch it changes nothing. *)
Theorem history_sync_disarms_fallback (client : Client)
    (conversations : list Conversation) (w : World) :
  0 < Z.of_nat (length conversations) →
  let after := Sync.w_status (handleHistorySync client conversations w) in
  Forall (λ s, fallbackDue s = false) (published_since (Sync.w_status w) after)
  ∧ syncFallback after = after.
Proof.
  intros HN after. subst after. unfold Sync.handleHistorySync.
  set (N := Z.of_nat (length conversations)) in *.
  destruct (Z.ltb_spec 0 N) as [_|]; [| lia]. simpl Sync.w_status.
  rewrite historyLoop_status. simpl Sync.w_status.
  set (start := SetSyncing "Syncing WhatsApp messages" 25 0 N (Sync.w_status w)).
  destruct (reports_syncing intOutOfRange N (length conversations) HN 0 start 25 0 eq_refl)
    as [Hp _].
  split; [| reflexivity].
  unfold published_since, SetConnected, setAuthStatus. simpl published. rewrite Hp.
  subst start. unfold SetSyncing, setAuthStatus. simpl published.
  rewrite <- !app_assoc, drop_app_length.
  assert (HN0 : Z.eqb N 0 = false) by (apply Z.eqb_neq; lia).
  apply Forall_app. split; [| apply Forall_app; split].
  - apply Forall_singleton. unfold fallbackDue. simpl. by rewrite HN0.
  - apply Forall_fmap, Forall_forall. intros k _. unfold fallbackDue. simpl.
    by rewrite HN0.
  - by apply Forall_singleton.
Qed.

(** X15.  Without a history batch the timer ends the sync: whatever the
    status was when the [Connected] event came, after the event and the
    timer the status is [connected], with the progress at 100. *)
Theorem connected_event_ends_connected (cell : StatusCell) :
  current (syncFallback (onConnected cell)) = connectedStatus
  ∧ (State (current cell) ∈ ["awaiting_qr"; "logging_in"; "syncing"] →
     published (syncFallback (onConnected cell))
     = (published cell
        ++ [mkAuthStatus "syncing" false "Syncing WhatsApp messages" "" "" 20 0 0;
            connectedStatus])%list)
  ∧ (State (current cell) ∉ ["awaiting_qr"; "logging_in"; "syncing"] →
     published (syncFallback (onConnected cell)) = (published cell ++ [connectedStatus])%list).
Proof.
  unfold onConnected, GetAuthStatus.
  destruct (String.eqb_spec (State (current cell)) "awaiting_qr") as [H1|H1];
    [| destruct (String.eqb_spec (State (current cell)) "logging_in") as [H2|H2];
       [| destruct (String.eqb_spec (State (current cell)) "syncing") as [H3|H3]]];
    simpl.
  1,2,3: (split; [reflexivity |]; split;
          [intros _; unfold syncFallback, SetSyncing, SetConnected, setAuthStatus; simpl;
           by rewrite <- app_assoc
          | intros Hn; exfalso; apply Hn]).
  - rewrite H1. apply list_elem_of_here.
  - rewrite H2. apply list_elem_of_further, list_elem_of_here.
  - rewrite H3. do 2 apply list_elem_of_further. apply list_elem_of_here.
  - split; [reflexivity |]. split; [| done].
    intros Hin. repeat (apply elem_of_cons in Hin as [Hin|Hin]; [done |]).
    by apply not_elem_of_nil in Hin.
Qed.

End FallbackFacts.

(** The witness: a batch of three conversations on the initial status. *)
Lemma history_sync_disarms_fallback_witness :
  0 < Z.of_nat (length (Props.anonymousBatch 3))
  ∧ Sync.syncFallback
      (Sync.w_status
         (Sync.handleHistorySync (λ _, None) (λ _, 0) (λ _ _, "") Props.offlineClient
            (Props.anonymousBatch 3) (Sync.mkWorld Storage.fresh Bootstrap.initial)))
    = Sync.w_status
        (Sync.handleHistorySync (λ _, None) (λ _, 0) (λ _ _, "") Props.offlineClient
           (Props.anonymousBatch 3) (Sync.mkWorld Storage.fresh Bootstrap.initial)).
Proof.
  assert (H : 0 < Z.of_nat (length (Props.anonymousBatch 3))) by (vm_compute; reflexivity).
  split; [exact H |].
  exact (proj2 (history_sync_disarms_fallback (λ _, None) (λ _, 0) (λ _ _, "")
                  Props.offlineClient (Props.anonymousBatch 3)
                  (Sync.mkWorld Storage.fresh Bootstrap.initial) H)).
Defined.

(* ===================================================================== *)
(** * Further properties of the control plane *)
(* ===================================================================== *)

Section StatusHandlerFacts.
Import GoStrings Storage Api Props.

Variable qrcodeEncode : string -> option (list byte).
Variable base64 : list byte -> string.

#[local] Abbreviation runStatus := (Props.runStatus qrcodeEncode base64).

(** X16.  [GET /api/auth/status] on a runtime whose status was written by the
    writers of package [bootstrap]: the handler answers 200, and in its
    payload the state is one of the eight states, [connected] is true
    exactly when the state is ["connected"], and the progress is between 0
    and 100.  The payload is the published status, except that a client
    that is linked and whose socket is up turns the states ["connected"]
    and ["disconnected"] into ["connected"]; the handler does not write the
    status. *)
Theorem authStatusHandler_reports_coherent_status (ops : list StatusOp)
    (client : option ClientHandle) (messageStore : option MessageStore)
    (handle : option ClientHandle) (r : Request) :
  Method r = "GET" →
  let status := Bootstrap.current (runStatus ops) in
  ∃ payload,
    authStatusHandler r (mkWorld client messageStore (runStatus ops) handle)
    = StatusJSON 200 payload
    ∧ resp_State payload ∈ knownStates
    ∧ (resp_Connected payload = true ↔ resp_State payload = "connected")
    ∧ 0 ≤ resp_SyncProgress payload ≤ 100
    ∧ (resp_State payload = Bootstrap.State status
       ∨ (resp_State payload = "connected" ∧ Bootstrap.State status = "disconnected"
          ∧ ∃ c, client = Some c ∧ StoreID c ≠ None ∧ IsConnected c = true))
    ∧ resp_SyncProgress payload = Bootstrap.SyncProgress status
    ∧ resp_QRCode payload = Bootstrap.QRCode status.
Proof.
  intros Hm status.
  destruct (runStatus_coherent qrcodeEncode base64 ops Bootstrap.initial) as [Hc _].
  { unfold coherent. simpl.
    split; [known_state |]. split; [split; intros [=] |]. split; [lia | intros [=]]. }
  { apply Forall_nil_2. }
  fold (runStatus ops) in Hc. fold status in Hc.
  destruct Hc as (Hk & Hconn & Hp & _).
  unfold authStatusHandler. rewrite Hm. simpl negb. cbv iota.
  unfold Bootstrap.GetAuthStatus. simpl rt_client. simpl w_status. fold status.
  match goal with
  | |- context [if ?c then Bootstrap.mkAuthStatus _ _ _ _ _ _ _ _ else status] =>
      destruct c eqn:Hover
  end.
  - eexists. split; [reflexivity |]. simpl.
    split; [known_state |]. split; [done |]. split; [done |]. split; [| done].
    apply andb_true_iff in Hover as [Hlc Hst].
    apply andb_true_iff in Hlc as [Hl Hic].
    destruct client as [c|]; [| discriminate].
    apply orb_true_iff in Hst as [Hst|Hst]; apply String.eqb_eq in Hst.
    + left. done.
    + right. split; [done |]. split; [done |]. exists c.
      split; [done |]. split; [| done]. by apply bool_decide_eq_true_1 in Hl.
  - eexists. split; [reflexivity |]. simpl.
    split; [done |]. split; [done |]. split; [done |]. split; [by left | done].
Qed.

End StatusHandlerFacts.

(** The witness: the status right after [SetConnected]. *)
Lemma authStatusHandler_reports_coherent_status_witness :
  Api.Method (Api.mkRequest "GET" "/api/auth/status" "Bearer token") = "GET"
  ∧ ∃ payload,
      Api.authStatusHandler (Api.mkRequest "GET" "/api/auth/status" "Bearer token")
        (Api.mkWorld None None
           (Props.runStatus (λ _, None) (λ _, "") [Props.OpSetConnected "WhatsApp connected"])
           None)
      = Api.StatusJSON 200 payload
      ∧ Api.resp_State payload ∈ Props.knownStates.
Proof.
  split; [reflexivity |].
  destruct (authStatusHandler_reports_coherent_status (λ _, None) (λ _, "")
              [Props.OpSetConnected "WhatsApp connected"] None None None
              (Api.mkRequest "GET" "/api/auth/status" "Bearer token") eq_refl)
    as (payload & H1 & H2 & _).
  exists payload. split; [exact H1 | exact H2].
Defined.

Section DisconnectFacts.
Import GoStrings Storage Api Props.

(** X17.  [POST /api/disconnect] always answers 200 and leaves the runtime
    without a client.  It keeps the message cache, and it keeps the device
    credentials: the client it detaches still has its device id, with the
    socket closed.  With a client it publishes [disconnected]; without one
    it publishes nothing and says so.  A second disconnect finds no
    client. *)
Theorem disconnectHandler_keeps_cache_and_credentials (r : Request) (w : World) :
  Method r = "POST" →
  let after := fst (disconnectHandler r w) in
  let resp := snd (disconnectHandler r w) in
  StatusCode resp = 200
  ∧ rt_client after = None
  ∧ rt_messageStore after = rt_messageStore w
  ∧ (∀ client, rt_client w = Some client →
       w_handle after = Some (mkHandle (StoreID client) false)
       ∧ w_status after = Bootstrap.SetDisconnected "WhatsApp disconnected" (w_status w)
       ∧ resp = writeJSON 200 true "WhatsApp disconnected")
  ∧ (rt_client w = None →
       w_status after = w_status w
       ∧ resp = writeJSON 200 true "WhatsApp client is not initialized")
  ∧ snd (disconnectHandler r after) = writeJSON 200 true "WhatsApp client is not initialized"
  ∧ w_status (fst (disconnectHandler r after)) = w_status after.
Proof.
  intros Hm after resp. subst after resp. unfold disconnectHandler. rewrite Hm. simpl negb.
  cbv iota. destruct (rt_client w) as [client|]; simpl.
  - split; [done |]. split; [done |]. split; [done |].
    split; [| split; [done | split; done]].
    intros c [= <-]. split; [| done]. f_equal. by destruct client as [sid [|]].
  - split; [done |]. split; [done |]. split; [done |].
    split; [done | split; [done | split; done]].
Qed.

(** The witness: the linked runtime of the examples. *)
Lemma disconnectHandler_keeps_cache_and_credentials_witness :
  Method (mkRequest "POST" "/api/disconnect" "Bearer token") = "POST"
  ∧ rt_messageStore
      (fst (disconnectHandler (mkRequest "POST" "/api/disconnect" "Bearer token")
              linkedWorld))
    = rt_messageStore linkedWorld.
Proof.
  split; [reflexivity |].
  exact (proj1 (proj2 (proj2 (disconnectHandler_keeps_cache_and_credentials
                                (mkRequest "POST" "/api/disconnect" "Bearer token")
                                linkedWorld eq_refl)))).
Defined.

End DisconnectFacts.

Section RevokeOutcomes.
Import GoStrings Storage Api Props.

(** What [acquireClient] publishes: nothing when the runtime has a client;
    else [connecting] and, on a failure, [error]. *)
Lemma acquireClient_published (env : RevokeEnv) (w : World) :
  ∃ more, Bootstrap.published (fst (acquireClient env w))
          = (Bootstrap.published (w_status w) ++ more)%list
          ∧ Forall (λ s, Bootstrap.State s ≠ "logged_out") more.
Proof.
  unfold acquireClient. destruct (rt_client w) as [client|].
  - exists []. by rewrite app_nil_r.
  - unfold newClient, SetupClient.
    destruct (env_setup env); simpl; rewrite <- ?app_assoc; eexists;
      (split; [reflexivity |]); repeat constructor; discriminate.
Qed.

Lemma published_since_app (before after : Bootstrap.StatusCell)
    (more : list Bootstrap.AuthStatus) :
  Bootstrap.published after = (Bootstrap.published before ++ more)%list →
  published_since before after = more.
Proof. intros H. unfold published_since. by rewrite H, drop_app_length. Qed.

(** X18.  Every way [POST /api/disconnect/revoke] can end.  The runtime is
    left without a client, and the answer is 200, 500 or 502.  Unless the
    answer is 500, the three tables of the cache are empty, [logged_out] is
    the published state, and the client the handler worked on has no device
    id and no open socket.  When the answer is 500 the cache is as it was
    and the handler has not published [logged_out].  The body says
    [success: true] exactly when the answer is 200. *)
Theorem revoke_ends_in_one_of_three (env : RevokeEnv) (r : Request) (w : World) :
  Method r = "POST" →
  let after := fst (revokeDisconnectHandler env r w) in
  let resp := snd (revokeDisconnectHandler env r w) in
  rt_client after = None
  ∧ (StatusCode resp = 200 ∨ StatusCode resp = 500 ∨ StatusCode resp = 502)
  ∧ (StatusCode resp ≠ 500 →
     rt_messageStore after = (λ _, fresh) <$> rt_messageStore w
     ∧ Bootstrap.State (Bootstrap.current (w_status after)) = "logged_out"
     ∧ ∃ client, w_handle after = Some client
                 ∧ StoreID client = None ∧ IsConnected client = false)
  ∧ (StatusCode resp = 500 →
     rt_messageStore after = rt_messageStore w
     ∧ Forall (λ s, Bootstrap.State s ≠ "logged_out")
         (published_since (w_status w) (w_status after)))
  ∧ (StatusCode resp = 200 ↔ ∃ message, ResponseBody resp = Json true message).
Proof.
  intros Hm after resp. subst after resp.
  unfold revokeDisconnectHandler, revokeBody. rewrite Hm. simpl negb. cbv iota.
  destruct (acquireClient_published env w) as (more & Hpub & Hmore).
  destruct (acquireClient env w) as [status [client|err]] eqn:Hacq; simpl in Hpub.
  2:{ simpl. split; [done |]. split; [by right; left |]. split; [done |].
      split; [| split; [discriminate | by intros [? [=]]]].
      intros _. split; [done |]. by rewrite (published_since_app _ _ more). }
  assert (Hfin : ∀ c, StoreID c = None → IsConnected c = false →
            let out := finishRevoke env w status c in
            rt_client (fst out) = None
            ∧ (StatusCode (snd out) = 200 ∨ StatusCode (snd out) = 500
               ∨ StatusCode (snd out) = 502)
            ∧ (StatusCode (snd out) ≠ 500 →
               rt_messageStore (fst out) = (λ _, fresh) <$> rt_messageStore w
               ∧ Bootstrap.State (Bootstrap.current (w_status (fst out))) = "logged_out"
               ∧ ∃ client, w_handle (fst out) = Some client
                           ∧ StoreID client = None ∧ IsConnected client = false)
            ∧ (StatusCode (snd out) = 500 →
               rt_messageStore (fst out) = rt_messageStore w
               ∧ Forall (λ s, Bootstrap.State s ≠ "logged_out")
                   (published_since (w_status w) (w_status (fst out))))
            ∧ (StatusCode (snd out) = 200
               ↔ ∃ message, ResponseBody (snd out) = Json true message)).
  { intros c Hid Hic. unfold finishRevoke, clearLocalMessageCache.
    destruct (rt_messageStore w) as [store|] eqn:Hstore.
    - destruct (Reset_cases (env_reset env) store) as [Hr|[e Hr]]; rewrite Hr; simpl.
      + split; [done |]. split; [by left |]. split; [| split; [done |]].
        * intros _. split; [done |]. split; [done |]. by exists c.
        * split; [by eexists | done].
      + split; [done |]. split; [by right; left |]. split; [done |].
        split; [| split; [discriminate | by intros [? [=]]]].
        intros _. split; [done |]. by rewrite (published_since_app _ _ more).
    - simpl. split; [done |]. split; [by left |]. split; [| split; [done |]].
      + intros _. split; [done |]. split; [done |]. by exists c.
      + split; [by eexists | done]. }
  destruct (StoreID client) as [jid|] eqn:Hid.
  2:{ apply Hfin; [| done]. by destruct client. }
  destruct (env_logout env) as [err|]; [| by apply Hfin].
  unfold revokeAfterFailedLogout, clearLocalDeviceCredentials, Disconnect.
  simpl StoreID. rewrite Hid.
  destruct (env_delete env) as [cleanupErr|]; simpl.
  { split; [done |]. split; [by right; left |]. split; [done |].
    split; [| split; [discriminate | by intros [? [=]]]].
    intros _. split; [done |]. by rewrite (published_since_app _ _ more). }
  unfold clearLocalMessageCache.
  destruct (rt_messageStore w) as [store|] eqn:Hstore.
  - destruct (Reset_cases (env_reset env) store) as [Hr|[e Hr]]; rewrite Hr; simpl.
    + split; [done |]. split; [by right; right |]. split; [| split; [done |]].
      * intros _. split; [done |]. split; [done |]. by eexists.
      * split; [discriminate | by intros [? [=]]].
    + split; [done |]. split; [by right; left |]. split; [done |].
      split; [| split; [discriminate | by intros [? [=]]]].
      intros _. split; [done |]. by rewrite (published_since_app _ _ more).
  - simpl. split; [done |]. split; [by right; right |]. split; [| split; [done |]].
    + intros _. split; [done |]. split; [done |]. by eexists.
    + split; [discriminate | by intros [? [=]]].
Qed.

(** The witness: the linked runtime, with a remote logout that succeeds. *)
Lemma revoke_ends_in_one_of_three_witness :
  Method postRevoke = "POST"
  ∧ rt_client
      (fst (revokeDisconnectHandler
              (mkRevokeEnv (SetupOk linkedClient) None None NoFault) postRevoke linkedWorld))
    = None.
Proof.
  split; [reflexivity |].
  exact (proj1 (revoke_ends_in_one_of_three
                  (mkRevokeEnv (SetupOk linkedClient) None None NoFault)
                  postRevoke linkedWorld eq_refl)).
Defined.

End RevokeOutcomes.

Section GateFacts.
Import GoStrings Storage Api Props.

Variable ParseWithClaims : bridgeAuthConfig -> string -> option bridgeJWTClaims.
Variable cleanPath : string -> string.

#[local] Abbreviation withAuth := (withRequiredBridgeJWTAuth ParseWithClaims).
#[local] Abbreviation serve := (Api.serve ParseWithClaims cleanPath).
#[local] Abbreviation authorized := (Props.authorized ParseWithClaims).

(** A registered path with the method of its handler has a scope. *)
Lemma requiredScope_of_route (path : string) (h : Handler) :
  muxLookup routes path = Some h →
  snd (requiredScopeForRoute (handlerMethod h) path) = true.
Proof.
  unfold routes, requiredScopeForRoute. cbn [muxLookup]. intros Hh.
  eqb_cases; try discriminate; injection Hh as <-; cbn in *; congruence.
Qed.


End GateFacts.

Section ScopeFacts.
Import GoStrings Api Props.

Lemma append_cons (c : ascii) (s t : string) :
  (String c s ++ t)%string = String c (s ++ t).
Proof. reflexivity. Qed.

Lemma append_empty_r (s : string) : (s ++ "")%string = s.
Proof.
  induction s as [|c s IH]; [done |]. by rewrite append_cons, IH.
Qed.

Lemma rev_onto_rev_onto (t : string) :
  ∀ acc acc', rev_onto (rev_onto t acc) acc' = rev_onto acc (t ++ acc').
Proof.
  induction t as [|c t IH]; intros acc acc'; cbn [rev_onto]; [done |].
  by rewrite IH, append_cons.
Qed.

Lemma reverse_rev_onto (t : string) : reverse (rev_onto t "") = t.
Proof. unfold reverse. rewrite rev_onto_rev_onto. apply append_empty_r. Qed.

Lemma rev_onto_nonempty (t acc : string) : t ≠ "" ∨ acc ≠ "" → rev_onto t acc ≠ "".
Proof.
  revert acc. induction t as [|c t IH]; intros acc H; cbn [rev_onto].
  - by destruct H.
  - apply IH. by right.
Qed.

(** A token goes to the current field as a whole. *)
Lemma fields_aux_token (sep : ascii → bool) (t : string) :
  forallb (λ c, negb (sep c)) (list_ascii_of_string t) = true →
  ∀ cur rest, fields_aux sep cur (t ++ rest) = fields_aux sep (rev_onto t cur) rest.
Proof.
  induction t as [|c t IH]; cbn [list_ascii_of_string forallb]; intros Ht cur rest;
    [done |].
  apply andb_true_iff in Ht as [Hc Ht]. apply negb_true_iff in Hc.
  rewrite append_cons. cbn [fields_aux rev_onto]. rewrite Hc. by apply IH.
Qed.

(** A run of separators ends the current field, if there is one. *)
Lemma fields_aux_separators (sep : ascii → bool) (s : string) :
  forallb sep (list_ascii_of_string s) = true →
  ∀ rest, fields_aux sep "" (s ++ rest) = fields_aux sep "" rest.
Proof.
  induction s as [|c s IH]; cbn [list_ascii_of_string forallb]; intros Hs rest; [done |].
  apply andb_true_iff in Hs as [Hc Hs].
  rewrite append_cons. cbn [fields_aux]. rewrite Hc. simpl String.eqb. by apply IH.
Qed.

Lemma fields_aux_separator_run (sep : ascii → bool) (s cur rest : string) :
  s ≠ "" → forallb sep (list_ascii_of_string s) = true → cur ≠ "" →
  fields_aux sep cur (s ++ rest) = reverse cur :: fields_aux sep "" rest.
Proof.
  destruct s as [|c s]; [done |]. cbn [list_ascii_of_string forallb]. intros _ Hs Hcur.
  apply andb_true_iff in Hs as [Hc Hs].
  rewrite append_cons. cbn [fields_aux]. rewrite Hc, (eqb_empty_false _ Hcur).
  f_equal. by apply fields_aux_separators.
Qed.

(** Splitting what was joined gives the tokens back. *)
Lemma FieldsFunc_concat (sep : string) (tokens : list string) :
  separator_run sep → Forall scope_token tokens →
  FieldsFunc (String.concat sep tokens) scopeSeparator = tokens.
Proof.
  intros [Hne Hsep] Htok. unfold FieldsFunc.
  induction Htok as [|t ts [Ht Htc] Hts IH]; [done |].
  destruct ts as [|t' ts].
  - cbn [String.concat]. rewrite <- (append_empty_r t) at 1.
    rewrite fields_aux_token by done. cbn [fields_aux].
    rewrite (eqb_empty_false _ (rev_onto_nonempty t "" (or_introl Ht))).
    by rewrite reverse_rev_onto.
  - change (String.concat sep (t :: t' :: ts))
      with (t ++ sep ++ String.concat sep (t' :: ts))%string.
    rewrite fields_aux_token by done.
    rewrite fields_aux_separator_run;
      [| done | done | by apply rev_onto_nonempty; left].
    by rewrite reverse_rev_onto, IH.
Qed.

(** X20.  A scope claim is a list of tokens separated by blanks and commas,
    and [hasRequiredScope] compares whole tokens: for tokens joined by a
    run of separators, the claim grants a required scope exactly when the
    required scope is not empty and is one of the tokens, or the wildcard
    [whatsapp:*] is one of them.  A token that merely contains the required
    scope grants nothing. *)
Theorem hasRequiredScope_compares_whole_tokens (sep : string) (tokens : list string)
    (requiredScope : string) :
  separator_run sep → Forall scope_token tokens →
  hasRequiredScope (String.concat sep tokens) requiredScope = true
  ↔ requiredScope ≠ "" ∧ (requiredScope ∈ tokens ∨ "whatsapp:*" ∈ tokens).
Proof.
  intros Hsep Htok. unfold hasRequiredScope.
  rewrite (FieldsFunc_concat sep tokens Hsep Htok).
  destruct (String.eqb_spec requiredScope "") as [->|Hne].
  { split; [discriminate | by intros [? _]]. }
  rewrite existsb_exists. split.
  - intros (t & Hin & Ht). split; [done |].
    apply list_elem_of_In in Hin.
    apply orb_true_iff in Ht as [Ht|Ht]; apply String.eqb_eq in Ht; subst; auto.
  - intros [_ [Hin|Hin]].
    + exists requiredScope. split; [by apply list_elem_of_In |].
      by rewrite String.eqb_refl.
    + exists "whatsapp:*". split; [by apply list_elem_of_In |].
      rewrite (String.eqb_refl "whatsapp:*"). apply orb_true_r.
Qed.

(** The witness: two scopes with a comma and a blank between them; the
    scope [whatsapp:send] is not granted by [whatsapp:sender]. *)
Lemma hasRequiredScope_compares_whole_tokens_witness :
  separator_run ", "
  ∧ Forall scope_token ["whatsapp:sender"; "whatsapp:status"]
  ∧ (hasRequiredScope (String.concat ", " ["whatsapp:sender"; "whatsapp:status"])
       "whatsapp:send" = true
     ↔ "whatsapp:send" ≠ ""
       ∧ ("whatsapp:send" ∈ ["whatsapp:sender"; "whatsapp:status"]
          ∨ "whatsapp:*" ∈ ["whatsapp:sender"; "whatsapp:status"])).
Proof.
  assert (Hs : separator_run ", ") by (split; [discriminate | reflexivity]).
  assert (Ht : Forall scope_token ["whatsapp:sender"; "whatsapp:status"]).
  { repeat constructor; discriminate. }
  split; [exact Hs |]. split; [exact Ht |].
  exact (hasRequiredScope_compares_whole_tokens ", "
           ["whatsapp:sender"; "whatsapp:status"] "whatsapp:send" Hs Ht).
Defined.

(** X21.  [loadBridgeAuthConfig]: a secret that is unset or blank is an error;
    otherwise the configuration holds the trimmed secret, and an audience
    and an issuer that are the trimmed variables or, when these are unset
    or blank, the defaults [whatsapp-bridge] and [omicron-api]; none of the
    three is ever empty. *)
Theorem loadBridgeAuthConfig_never_blank (getenv : string → string) :
  (TrimSpace (getenv "WHATSAPP_BRIDGE_JWT_SECRET") = "" →
   loadBridgeAuthConfig getenv
   = inr "WHATSAPP_BRIDGE_JWT_SECRET is required for bridge JWT auth")
  ∧ (TrimSpace (getenv "WHATSAPP_BRIDGE_JWT_SECRET") ≠ "" →
     ∃ config, loadBridgeAuthConfig getenv = inl config
       ∧ jwtSecret config = TrimSpace (getenv "WHATSAPP_BRIDGE_JWT_SECRET")
       ∧ jwtSecret config ≠ "" ∧ audience config ≠ "" ∧ issuer config ≠ ""
       ∧ (TrimSpace (getenv "WHATSAPP_BRIDGE_JWT_AUDIENCE") = "" →
          audience config = "whatsapp-bridge")
       ∧ (TrimSpace (getenv "WHATSAPP_BRIDGE_JWT_AUDIENCE") ≠ "" →
          audience config = TrimSpace (getenv "WHATSAPP_BRIDGE_JWT_AUDIENCE"))
       ∧ (TrimSpace (getenv "WHATSAPP_BRIDGE_JWT_ISSUER") = "" →
          issuer config = "omicron-api")
       ∧ (TrimSpace (getenv "WHATSAPP_BRIDGE_JWT_ISSUER") ≠ "" →
          issuer config = TrimSpace (getenv "WHATSAPP_BRIDGE_JWT_ISSUER"))).
Proof.
  unfold loadBridgeAuthConfig. split.
  - intros ->. reflexivity.
  - intros Hs. rewrite (eqb_empty_false _ Hs). eexists. split; [reflexivity |]. simpl.
    split; [done |]. split; [done |].
    destruct (String.eqb_spec (TrimSpace (getenv "WHATSAPP_BRIDGE_JWT_AUDIENCE")) "")
      as [Ha|Ha];
      destruct (String.eqb_spec (TrimSpace (getenv "WHATSAPP_BRIDGE_JWT_ISSUER")) "")
        as [Hi|Hi];
      repeat split; try done; try discriminate.
Qed.

End ScopeFacts.

(* ===================================================================== *)
(** * Further properties of the event handlers *)
(* ===================================================================== *)

Section MediaInfoFacts.
Import GoStrings WaTypes Storage Sync Props.

Lemma append_literal_nonempty (c : ascii) (s t : string) : (String c s ++ t)%string ≠ "".
Proof. rewrite append_cons. discriminate. Qed.

(** X22.  What [extractMediaInfo] returns.  The media type is [image],
    [video], [audio] or [document], or empty; it is empty exactly when the
    message is nil or carries none of the four media parts, and then all
    seven results are zero values.  An image wins over a video, a video
    over an audio, an audio over a document.  A media type that is not
    empty comes with a file name that is not empty. *)
Theorem extractMediaInfo_kinds (stamp : string) (msg : option WaMessage) :
  let media := extractMediaInfo stamp msg in
  mi_mediaType media ∈ [""; "image"; "video"; "audio"; "document"]
  ∧ (mi_mediaType media = "" ↔ no_media_part msg)
  ∧ (mi_mediaType media = "" → media = noMedia)
  ∧ (mi_mediaType media ≠ "" → mi_filename media ≠ "")
  ∧ (∀ m img, msg = Some m → wa_ImageMessage m = Some img →
              mi_mediaType media = "image" ∧ mi_url media = media_URL img).
Proof.
  intros media. subst media. unfold extractMediaInfo, no_media_part.
  destruct msg as [m|].
  2:{ split; [apply list_elem_of_here |]. split; [done |]. split; [done |].
      split; [done |]. by intros ? ? [=]. }
  destruct (wa_ImageMessage m) as [img|] eqn:Himg.
  { simpl. split; [apply list_elem_of_further, list_elem_of_here |].
    split; [split; [discriminate | by intros [[=] _]] |]. split; [discriminate |].
    split; [intros _; apply append_literal_nonempty |].
    intros m0 img0 [= <-] Hi. rewrite Himg in Hi. by injection Hi as <-. }
  destruct (wa_VideoMessage m) as [vid|].
  { simpl. split; [do 2 apply list_elem_of_further; apply list_elem_of_here |].
    split; [split; [discriminate | by intros (_ & [=] & _)] |]. split; [discriminate |].
    split; [intros _; apply append_literal_nonempty |].
    intros m0 img0 [= <-] Hi. congruence. }
  destruct (wa_AudioMessage m) as [aud|].
  { simpl. split; [do 3 apply list_elem_of_further; apply list_elem_of_here |].
    split; [split; [discriminate | by intros (_ & _ & [=] & _)] |]. split; [discriminate |].
    split; [intros _; apply append_literal_nonempty |].
    intros m0 img0 [= <-] Hi. congruence. }
  destruct (wa_DocumentMessage m) as [doc|].
  { simpl. split; [do 4 apply list_elem_of_further; apply list_elem_of_here |].
    split; [split; [discriminate | by intros (_ & _ & _ & [=])] |]. split; [discriminate |].
    split; [| intros m0 img0 [= <-] Hi; congruence].
    intros _. destruct (String.eqb_spec (media_FileName doc) "") as [_|Hn]; [| done].
    apply append_literal_nonempty. }
  simpl. split; [apply list_elem_of_here |]. split; [done |]. split; [done |].
  split; [done |]. intros m0 img0 [= <-] Hi. congruence.
Qed.

End MediaInfoFacts.

Section LiveStoreFacts.
Import GoStrings WaTypes Identity Storage Sync Props.

Lemma PromoteCanonicalSender_chats (C : string) (A : list string) (store : MessageStore) :
  chats (fst (PromoteCanonicalSender C A store)) = chats store.
Proof.
  unfold PromoteCanonicalSender. destruct (String.eqb _ _); [done |].
  by destruct (Nat.eqb _ _).
Qed.

Lemma promote_chat_all_canonical (canonical : string) (order : list string) :
  canonical ∉ order →
  ∀ tx tx', promote_chat_all canonical tx order = inl tx' →
            is_Some (chats tx !! canonical) → is_Some (chats tx' !! canonical).
Proof.
  induction order as [|a order IH]; intros Hc tx tx'; simpl.
  - by intros [= <-].
  - destruct (promote_chat_alias canonical tx a) as [tx1|e] eqn:Ha; [| discriminate].
    apply not_elem_of_cons in Hc as [Hca Hc].
    intros Hall Hs. eapply IH; [done | exact Hall |].
    apply promote_chat_alias_inl in Ha as (_ & Hc1 & _). rewrite Hc1.
    rewrite lookup_delete_ne by done. by apply copied_chats_is_Some.
Qed.

(** A promotion keeps the row of the canonical chat, when the id is in
    normal form. *)
Lemma PromoteCanonicalChat_canonical (C : string) (A : list string) (store : MessageStore) :
  Storage.normalizeSenderID C = C →
  is_Some (chats store !! C) → is_Some (chats (fst (PromoteCanonicalChat C A store)) !! C).
Proof.
  intros HC Hs. unfold PromoteCanonicalChat. rewrite HC.
  destruct (String.eqb _ _); [done |]. destruct (Nat.eqb _ _); [done |].
  destruct (promote_chat_all _ _ _) as [tx|e] eqn:Hall; [| done]. simpl.
  eapply promote_chat_all_canonical; [| exact Hall | done].
  apply promote_keys_canonical.
Qed.

Lemma syncSenderAliases_chats (store : MessageStore) (C : string) (A : list string)
    (ts : Time) :
  chats (syncSenderAliases store C A ts) = chats store.
Proof.
  unfold syncSenderAliases. by rewrite PromoteCanonicalSender_chats, StoreSenderAliases_chats.
Qed.

Lemma syncChatAliases_canonical (store : MessageStore) (C : string) (A : list string)
    (ts : Time) :
  Storage.normalizeSenderID C = C →
  is_Some (chats store !! C) → is_Some (chats (syncChatAliases store C A ts) !! C).
Proof.
  intros HC Hs. unfold syncChatAliases. apply PromoteCanonicalChat_canonical; [done |].
  by rewrite StoreSenderAliases_chats.
Qed.

(** X23.  A live message with a payload is stored.  When the content or the
    media type is not empty, the file length is below 2^63, and the chat
    is a group or its canonical id is in normal form (as the user part of
    a phone number or hidden id is), then after [handleMessage] the cache
    holds exactly one row with the key of the message in its canonical
    chat, with the canonical sender, the content, the time and the media
    columns of the event; and the chat has its row. *)
Theorem handleMessage_stores_message (stamp : string) (client : Client)
    (messageStore : MessageStore) (msg : MessageEvent) :
  let info := evt_Info msg in
  let chatJID := ToNonAD (info_Chat info) in
  let chatID := canonicalizeChatID client chatJID in
  let sender := canonicalizeSender client (info_Sender info) (info_SenderAlt info) in
  let content := extractTextContent (evt_Message msg) in
  let media := extractMediaInfo stamp (evt_Message msg) in
  content ≠ "" ∨ mi_mediaType media ≠ "" →
  mi_fileLength media < 2 ^ 63 →
  Server chatJID = "g.us" ∨ Storage.normalizeSenderID chatID = chatID →
  let after := handleMessage stamp client messageStore msg in
  rows_with_key (info_ID info, chatID) after
  = [mkMessage (info_ID info) chatID sender content (info_Timestamp info)
       (info_IsFromMe info) (mi_mediaType media) (mi_filename media) (mi_url media)
       (mi_mediaKey media) (mi_fileSHA256 media) (mi_fileEncSHA256 media)
       (mi_fileLength media)]
  ∧ is_Some (chats after !! chatID).
Proof.
  intros info chatJID chatID sender content media Hpay Hlen Hchat after.
  subst after. unfold handleMessage.
  fold info. fold chatJID. fold chatID. fold sender. fold content. fold media.
  assert (Hguard : String.eqb content "" && String.eqb (mi_mediaType media) "" = false).
  { apply andb_false_iff. rewrite !String.eqb_neq. done. }
  rewrite Hguard.
  set (name := getChatName client messageStore chatJID chatID None sender).
  set (s1 := fst (StoreChat chatID name (info_Timestamp info) messageStore)).
  set (s2 := syncSenderAliases s1 sender _ (info_Timestamp info)).
  set (s3 := if negb (String.eqb (Server chatJID) "g.us") then _ else s2).
  assert (H1 : is_Some (chats s1 !! chatID)).
  { subst s1. simpl. rewrite lookup_insert_eq. by eexists. }
  assert (H2 : is_Some (chats s2 !! chatID)).
  { subst s2. by rewrite syncSenderAliases_chats. }
  assert (H3 : is_Some (chats s3 !! chatID)).
  { subst s3. destruct (String.eqb_spec (Server chatJID) "g.us") as [Hg|Hg]; simpl; [done |].
    destruct Hchat as [Hg'|Hn]; [done |]. by apply syncChatAliases_canonical. }
  set (row := mkMessage (info_ID info) chatID sender content (info_Timestamp info)
                (info_IsFromMe info) (mi_mediaType media) (mi_filename media)
                (mi_url media) (mi_mediaKey media) (mi_fileSHA256 media)
                (mi_fileEncSHA256 media) (mi_fileLength media)).
  change (StoreMessage _ _ _ _ _ _ _ _ _ _ _ _ _ s3) with (StoreMessageRow row s3).
  rewrite StoreMessageRow_eta. simpl msg_content. simpl msg_media_type.
  rewrite Hguard. rewrite insert_accepted by (split; done).
  simpl. split; [| done].
  unfold rows_with_key. simpl. change (info_ID info, chatID) with (msg_key row).
  apply rows_with_key_after_insert.
Qed.

(** The witness: a text message of a contact, on the new database. *)
Lemma handleMessage_stores_message_witness :
  rows_with_key ("3EB0", "15551234567")
    (handleMessage "20240101_000000" offlineClient fresh liveText)
  = [mkMessage "3EB0" "15551234567" "15551234567" "hello" 1700 false "" "" "" [] [] [] 0].
Proof.
  apply (proj1 (handleMessage_stores_message "20240101_000000" offlineClient fresh liveText
                  ltac:(left; discriminate) ltac:(reflexivity)
                  ltac:(right; by vm_compute))).
Defined.

End LiveStoreFacts.

Section HistorySkipFacts.
Import GoStrings WaTypes Identity Storage Sync Props.

Variable ParseJID : string -> option JID.
Variable intOutOfRange : Float64.float64 -> Z.
Variable stampAt : Z -> nat -> string.

#[local] Abbreviation historyConversation :=
  (Sync.historyConversation ParseJID intOutOfRange stampAt).

(** X24.  A history conversation is judged by its first message.  When the
    conversation has no id, or an id that does not parse, or when its
    first message is missing, nil, empty or without a time stamp, nothing
    of the conversation reaches the cache, whatever its other messages
    hold; its turn of the loop only reports the progress. *)
Theorem historyConversation_needs_latest_timestamp (client : Client) (total idx : Z)
    (conversation : Conversation) (w : World) :
  conv_ID conversation = None
  ∨ (∃ id, conv_ID conversation = Some id ∧ ParseJID id = None)
  ∨ latest_timestamp conversation = None
  ∨ latest_timestamp conversation = Some 0 →
  w_store (historyConversation client total idx conversation w) = w_store w
  ∧ Sync.w_status (historyConversation client total idx conversation w)
    = Sync.updateProgress intOutOfRange total (idx + 1) (Sync.w_status w).
Proof.
  intros H. split; [| apply historyConversation_status].
  unfold Sync.historyConversation, latest_timestamp in *.
  destruct (conv_ID conversation) as [chatJID|]; [| done].
  destruct (ParseJID chatJID) as [jid|] eqn:Hjid; [| done].
  destruct H as [H|[(id & [= <-] & Hp)|H]]; [done | congruence |].
  destruct (conv_Messages conversation) as [|[hm|] rest]; [done | | done].
  destruct (hsm_Message hm) as [latest|]; [| done].
  destruct H as [H|[= H]]; [done |]. by rewrite H.
Qed.

End HistorySkipFacts.

(** The witness: a conversation whose first message is nil. *)
Lemma historyConversation_needs_latest_timestamp_witness :
  Sync.w_store
    (Sync.historyConversation (λ _, None) (λ _, 0) (λ _ _, "") Props.offlineClient 1 0
       Props.headlessConversation (Sync.mkWorld Storage.fresh Bootstrap.initial))
  = Storage.fresh.
Proof.
  apply (proj1 (historyConversation_needs_latest_timestamp (λ _, None) (λ _, 0) (λ _ _, "")
                  Props.offlineClient 1 0 Props.headlessConversation
                  (Sync.mkWorld Storage.fresh Bootstrap.initial)
                  ltac:(right; right; left; reflexivity))).
Defined.

(* ===================================================================== *)
(** * Properties of the media download *)
(* ===================================================================== *)

Section DirectPathFacts.
Import GoStrings Download.

Lemma AfterFirst_None (sep s : string) :
  AfterFirst sep s = None ↔ Contains s sep = false.
Proof.
  induction s as [|c s IH]; cbn [AfterFirst Contains].
  - destruct (HasPrefix "" sep); simpl; split; intros; done.
  - destruct (HasPrefix (String c s) sep); simpl; [split; intros; done | exact IH].
Qed.

Lemma append_empty_l (s : string) : ("" ++ s)%string = s.
Proof. reflexivity. Qed.

Lemma HasPrefix_cons (a b : ascii) (s p : string) :
  HasPrefix (String b s) (String a p) = Ascii.eqb a b && HasPrefix s p.
Proof. reflexivity. Qed.

Lemma HasPrefix_empty (s : string) : HasPrefix s "" = true.
Proof. by destruct s. Qed.

(** An occurrence of [".net/"] cannot begin inside a host and end inside
    the [".net/"] that follows it. *)
Lemma no_straddle (c : ascii) (h rest : string) :
  HasPrefix (String c h) ".net/" = false →
  HasPrefix (String c h ++ ".net/" ++ rest) ".net/" = false.
Proof.
  destruct h as [|c2 [|c3 [|c4 [|c5 h]]]];
    rewrite ?append_cons, ?append_empty_l, ?append_cons, ?append_empty_l;
    rewrite ?HasPrefix_cons, ?HasPrefix_empty; intros H.
  5: exact H.
  all: repeat (match goal with
               | |- context [Ascii.eqb ?a ?b] =>
                   lazymatch b with
                   | Ascii _ _ _ _ _ _ _ _ => fail
                   | _ => destruct (Ascii.eqb a b)
                   end
               end; try reflexivity).
Qed.

Lemma AfterFirst_here (sep s : string) :
  HasPrefix s sep = true → AfterFirst sep s = Some (drop_bytes (String.length sep) s).
Proof. intros H. destruct s; cbn [AfterFirst]; by rewrite H. Qed.

Lemma AfterFirst_host (host rest : string) :
  Contains host ".net/" = false →
  AfterFirst ".net/" (host ++ ".net/" ++ rest) = Some rest.
Proof.
  induction host as [|c host IH]; intros Hc.
  - rewrite append_empty_l, (AfterFirst_here ".net/"); [reflexivity |].
    rewrite !append_cons, append_empty_l, !HasPrefix_cons. by rewrite HasPrefix_empty.
  - cbn [Contains] in Hc. apply orb_false_iff in Hc as [Hp Hc].
    pose proof (no_straddle c host rest Hp) as Hn.
    rewrite append_cons in *. cbn [AfterFirst]. rewrite Hn. by apply IH.
Qed.

Lemma BeforeByte_app (c : ascii) (s t : string) :
  ContainsByte c s = false → BeforeByte c (s ++ String c t) = s.
Proof.
  induction s as [|d s IH]; cbn [ContainsByte]; intros Hs.
  - cbv [String.append]. cbn [BeforeByte]. by rewrite Ascii.eqb_refl.
  - rewrite append_cons. cbn [BeforeByte].
    destruct (Ascii.eqb c d); [discriminate |]. by rewrite IH.
Qed.

Lemma BeforeByte_none (c : ascii) (s : string) :
  ContainsByte c s = false → BeforeByte c s = s.
Proof.
  induction s as [|d s IH]; cbn [ContainsByte BeforeByte]; intros Hs; [done |].
  destruct (Ascii.eqb c d); [discriminate |]. by rewrite IH.
Qed.

(** X25.  [extractDirectPathFromURL] keeps what lies between the first
    [".net/"] and the first ['?'] after it, behind a slash: for a URL made
    of a host without [".net/"], then [".net/"], a path without ['?'] and
    possibly a query, it returns ["/"] and the path.  A URL without
    [".net/"] is returned as it is.  So the result is the URL itself, or
    it starts with a slash and holds no ['?']. *)
Theorem extractDirectPathFromURL_cuts_host_and_query (url : string) :
  (Contains url ".net/" = false → extractDirectPathFromURL url = url)
  ∧ (∀ host path query,
       Contains host ".net/" = false → ContainsByte "?"%char path = false →
       extractDirectPathFromURL (host ++ ".net/" ++ path) = "/" ++ path
       ∧ extractDirectPathFromURL (host ++ ".net/" ++ path ++ "?" ++ query) = "/" ++ path)
  ∧ (extractDirectPathFromURL url = url
     ∨ (HasPrefix (extractDirectPathFromURL url) "/" = true
        ∧ ContainsByte "?"%char (extractDirectPathFromURL url) = false)).
Proof.
  unfold extractDirectPathFromURL. split; [| split].
  - intros Hc. apply AfterFirst_None in Hc. by rewrite Hc.
  - intros host path query Hh Hp. split.
    + rewrite AfterFirst_host by done. by rewrite BeforeByte_none.
    + rewrite AfterFirst_host by done.
      change ("?" ++ query)%string with (String "?"%char query).
      by rewrite BeforeByte_app.
  - destruct (AfterFirst ".net/" url) as [pathPart|]; [right | by left].
    rewrite append_cons, append_empty_l.
    split; [by rewrite HasPrefix_cons, HasPrefix_empty |].
    cbn [ContainsByte]. apply BeforeByte_free.
Qed.

End DirectPathFacts.

Section DownloadFacts.
Import GoStrings Storage Download Props.

Variable Join : string -> string -> string.

#[local] Abbreviation DownloadMedia := (Download.DownloadMedia Join).

(** Every way [DownloadMedia] ends, by the row of the message and the
    answers of the file system and of the client. *)
Lemma DownloadMedia_cases (env : DownloadEnv) (messageStore : MessageStore)
    (messageID chatJID : string) :
  let result := fst (DownloadMedia env messageStore messageID chatJID) in
  let effects := snd (DownloadMedia env messageStore messageID chatJID) in
  let chatDir := Join "store" (replaceColons chatJID) in
  (dl_success result = true ↔ dl_err result = None)
  ∧ (message_row messageID chatJID messageStore = None →
     result = failed ("failed to find message: " ++ err_no_rows) ∧ effects = [])
  ∧ (∀ r, message_row messageID chatJID messageStore = Some r →
       (msg_media_type r = "" → result = failed "not a media message" ∧ effects = [])
       ∧ (dl_success result = true →
          msg_media_type r ≠ ""
          ∧ dl_mediaType result = msg_media_type r
          ∧ dl_filename result = msg_filename r
          ∧ env_Abs env (Join chatDir (msg_filename r)) = inl (dl_path result)
          ∧ (env_Stat env (Join chatDir (msg_filename r)) = true
             ∧ effects = [MkdirAll chatDir]
             ∨ env_Stat env (Join chatDir (msg_filename r)) = false
               ∧ ∃ downloader mediaData,
                   effects = [MkdirAll chatDir; DownloadCall downloader;
                              WriteFile (Join chatDir (msg_filename r)) mediaData]
                   ∧ env_Download env downloader = inl mediaData
                   ∧ env_WriteFile env (Join chatDir (msg_filename r)) mediaData = None
                   ∧ dl_URL downloader = msg_url r
                   ∧ dl_DirectPath downloader = extractDirectPathFromURL (msg_url r)
                   ∧ dl_MediaKey downloader = msg_media_key r
                   ∧ dl_FileLength downloader = msg_file_length r))
       ∧ (msg_media_type r ∈ ["image"; "video"; "audio"; "document"] →
          ∀ err, dl_err result = Some err →
                 HasPrefix err "unsupported media type" = false))
  ∧ (∀ path data, WriteFile path data ∈ effects →
       ∃ downloader, DownloadCall downloader ∈ effects
                     ∧ env_Download env downloader = inl data).
Proof.
  intros result effects chatDir. subst result effects.
  unfold Download.DownloadMedia, GetMediaInfo, GetMessageMediaTypeAndFilename.
  fold chatDir.
  destruct (message_row messageID chatJID messageStore) as [r|] eqn:Hrow; simpl.
  2:{ split; [split; discriminate |]. split; [done |]. split; [done |].
      intros ? ? Hin. by apply not_elem_of_nil in Hin. }
  destruct (String.eqb_spec (msg_media_type r) "") as [Ht|Ht].
  { simpl. split; [split; discriminate |]. split; [done |]. split.
    - intros ? [= <-]. split; [done |]. split; [discriminate |]. by intros _ ? [= <-].
    - intros ? ? Hin. by apply not_elem_of_nil in Hin. }
  assert (Hno : ∀ path data, WriteFile path data ∉ [MkdirAll chatDir]).
  { intros path data Hin. apply list_elem_of_singleton in Hin. discriminate. }
  destruct (env_MkdirAll env chatDir) as [e|].
  { simpl. split; [split; discriminate |]. split; [done |]. split.
    - intros ? [= <-]. split; [done |]. split; [discriminate |]. by intros _ ? [= <-].
    - intros ? ? Hin. by apply Hno in Hin. }
  destruct (env_Abs env (Join chatDir (msg_filename r))) as [absPath|e] eqn:Habs.
  2:{ simpl. split; [split; discriminate |]. split; [done |]. split.
      - intros ? [= <-]. split; [done |]. split; [discriminate |]. by intros _ ? [= <-].
      - intros ? ? Hin. by apply Hno in Hin. }
  destruct (env_Stat env (Join chatDir (msg_filename r))) eqn:Hstat.
  { simpl. split; [done |]. split; [done |]. split.
    - intros ? [= <-]. split; [done |]. split; [| by intros _ ? [=]].
      intros _. split; [done |]. split; [done |]. split; [done |]. split; [done |].
      by left.
    - intros ? ? Hin. by apply Hno in Hin. }
  destruct (_ || _).
  { simpl. split; [split; discriminate |]. split; [done |]. split.
    - intros ? [= <-]. split; [done |]. split; [discriminate |]. by intros _ ? [= <-].
    - intros ? ? Hin. by apply Hno in Hin. }
  match goal with
  | |- context [match ?t with Some _ => _ | None => _ end] =>
      destruct t as [waMediaType|] eqn:Hkind
  end.
  2:{ simpl. split; [split; discriminate |]. split; [done |]. split.
      - intros ? [= <-]. split; [done |]. split; [discriminate |].
        intros Hin. exfalso. revert Hkind.
        repeat (apply elem_of_cons in Hin as [->|Hin]; [discriminate |]).
        by apply not_elem_of_nil in Hin.
      - intros ? ? Hin. by apply Hno in Hin. }
  match goal with
  | |- context [env_Download env ?d] =>
      set (downloader := d); destruct (env_Download env downloader) as [mediaData|e] eqn:Hdl
  end.
  2:{ simpl. split; [split; discriminate |]. split; [done |]. split.
      - intros ? [= <-]. split; [done |]. split; [discriminate |]. by intros _ ? [= <-].
      - intros ? ? Hin. repeat (apply elem_of_cons in Hin as [Hin|Hin]; [discriminate |]).
        by apply not_elem_of_nil in Hin. }
  assert (Hwrite : ∀ path data,
            WriteFile path data
            ∈ [MkdirAll chatDir; DownloadCall downloader;
               WriteFile (Join chatDir (msg_filename r)) mediaData] →
            ∃ d, DownloadCall d
                 ∈ [MkdirAll chatDir; DownloadCall downloader;
                    WriteFile (Join chatDir (msg_filename r)) mediaData]
                 ∧ env_Download env d = inl data).
  { intros path data Hin. exists downloader.
    split; [apply list_elem_of_further, list_elem_of_here |].
    repeat (apply elem_of_cons in Hin as [Hin|Hin]; [try discriminate |]).
    - by injection Hin as -> ->.
    - by apply not_elem_of_nil in Hin. }
  destruct (env_WriteFile env (Join chatDir (msg_filename r)) mediaData) as [e|] eqn:Hwr.
  { simpl. split; [split; discriminate |]. split; [done |]. split; [| done].
    intros ? [= <-]. split; [done |]. split; [discriminate |]. by intros _ ? [= <-]. }
  simpl. split; [done |]. split; [done |]. split; [| done].
  intros ? [= <-]. split; [done |]. split; [| by intros _ ? [=]].
  intros _. split; [done |]. split; [done |]. split; [done |]. split; [done |].
  right. split; [done |]. exists downloader, mediaData. by repeat split.
Qed.

(** X26.  The ways [DownloadMedia] ends.  It reports success exactly when it
    returns no error.  A message that has no row is "not found", and a
    row without a media type is "not a media message"; in both cases
    nothing outside is touched.  When it reports success, the message has
    a row with a media type, the results are the media type and the file
    name of the row and the absolute form of the local path, and either
    the file was there and only the directory was made, or the media was
    downloaded with the columns of the row and written to the local path
    without an error.  A file is written only with data that a download
    returned.  And a row whose media type is one of the four the handlers
    store never fails for its type. *)
Theorem DownloadMedia_outcomes (env : DownloadEnv) (messageStore : MessageStore)
    (messageID chatJID : string) :
  let result := fst (DownloadMedia env messageStore messageID chatJID) in
  let effects := snd (DownloadMedia env messageStore messageID chatJID) in
  let chatDir := Join "store" (replaceColons chatJID) in
  (dl_success result = true ↔ dl_err result = None)
  ∧ (message_row messageID chatJID messageStore = None →
     result = failed ("failed to find message: " ++ err_no_rows) ∧ effects = [])
  ∧ (∀ r, message_row messageID chatJID messageStore = Some r →
       (msg_media_type r = "" → result = failed "not a media message" ∧ effects = [])
       ∧ (dl_success result = true →
          msg_media_type r ≠ ""
          ∧ dl_mediaType result = msg_media_type r
          ∧ dl_filename result = msg_filename r
          ∧ env_Abs env (Join chatDir (msg_filename r)) = inl (dl_path result)
          ∧ (env_Stat env (Join chatDir (msg_filename r)) = true
             ∧ effects = [MkdirAll chatDir]
             ∨ env_Stat env (Join chatDir (msg_filename r)) = false
               ∧ ∃ downloader mediaData,
                   effects = [MkdirAll chatDir; DownloadCall downloader;
                              WriteFile (Join chatDir (msg_filename r)) mediaData]
                   ∧ env_Download env downloader = inl mediaData
                   ∧ env_WriteFile env (Join chatDir (msg_filename r)) mediaData = None
                   ∧ dl_URL downloader = msg_url r
                   ∧ dl_DirectPath downloader = extractDirectPathFromURL (msg_url r)
                   ∧ dl_MediaKey downloader = msg_media_key r
                   ∧ dl_FileLength downloader = msg_file_length r))
       ∧ (msg_media_type r ∈ ["image"; "video"; "audio"; "document"] →
          ∀ err, dl_err result = Some err →
                 HasPrefix err "unsupported media type" = false))
  ∧ (∀ path data, WriteFile path data ∈ effects →
       ∃ downloader, DownloadCall downloader ∈ effects
                     ∧ env_Download env downloader = inl data).
Proof. apply DownloadMedia_cases. Qed.

#[local] Abbreviation downloadHandler := (MediaApi.downloadHandler Join).

(** X27.  [POST /api/download] answers 200 only when the file of the message
    is at its local path: [os.Stat] found it, or the media was downloaded
    and [os.WriteFile] wrote it there without an error; the answer then
    carries the file name of the row and the absolute form of that path.
    What [DownloadMedia] reports as a failure is answered 500 with the
    error of [DownloadMedia] in the message, so the text "Unknown error" is
    never sent.  A refused request (405, 400) and a runtime without a
    client (503) touch neither the file system nor the network. *)
Theorem downloadHandler_answers_200_for_a_local_file (env : DownloadEnv) (r : Api.Request)
    (decoded : option MediaApi.DownloadMediaRequest) (w : Api.World) :
  let reply := fst (downloadHandler env r decoded w) in
  let effects := snd (downloadHandler env r decoded w) in
  (∀ resp, reply = MediaApi.DownloadRefused resp →
     effects = [] ∧ Api.StatusCode resp ∈ [400; 405])
  ∧ (∀ code success message filename path,
       reply = MediaApi.DownloadJSON code success message filename path →
       code ∈ [200; 500; 503]
       ∧ (code = 200 ↔ success = true)
       ∧ (code = 503 → effects = [] ∧ Api.rt_client w = None)
       ∧ (code = 500 →
          ∃ req messageStore err,
            decoded = Some req ∧ Api.rt_messageStore w = Some messageStore
            ∧ dl_err (fst (DownloadMedia env messageStore (MediaApi.MessageID req)
                             (MediaApi.ChatJID req))) = Some err
            ∧ message = "Failed to download media: " ++ err)
       ∧ (code = 200 →
          ∃ req messageStore row,
            decoded = Some req ∧ Api.rt_messageStore w = Some messageStore
            ∧ message_row (MediaApi.MessageID req) (MediaApi.ChatJID req) messageStore
              = Some row
            ∧ let localPath :=
                Join (Join "store" (replaceColons (MediaApi.ChatJID req)))
                  (msg_filename row) in
              filename = msg_filename row
              ∧ message = "Successfully downloaded " ++ msg_media_type row ++ " media"
              ∧ env_Abs env localPath = inl path
              ∧ (env_Stat env localPath = true
                 ∨ ∃ mediaData, WriteFile localPath mediaData ∈ effects
                                ∧ env_WriteFile env localPath mediaData = None))).
Proof.
  intros reply effects. subst reply effects. unfold MediaApi.downloadHandler.
  assert (Hrefuse : ∀ line code,
            code ∈ [400; 405] →
            ∀ resp, MediaApi.DownloadRefused (Api.httpError line code)
                    = MediaApi.DownloadRefused resp →
                    @nil Effect = [] ∧ Api.StatusCode resp ∈ [400; 405]).
  { intros line code Hcode resp [= <-]. by split. }
  destruct (String.eqb_spec (Api.Method r) "POST") as [Hm|Hm]; simpl.
  2:{ split; [| by intros ? ? ? ? ? [=]].
      apply Hrefuse, list_elem_of_further, list_elem_of_here. }
  destruct decoded as [req|]; simpl.
  2:{ split; [| by intros ? ? ? ? ? [=]]. apply Hrefuse, list_elem_of_here. }
  destruct (_ || _); simpl.
  { split; [| by intros ? ? ? ? ? [=]]. apply Hrefuse, list_elem_of_here. }
  destruct (Api.rt_client w) as [client|] eqn:Hclient.
  2:{ simpl. split; [by intros ? [=] |]. intros ? ? ? ? ? [= <- <- <- <- <-].
      split; [do 2 apply list_elem_of_further; apply list_elem_of_here |].
      split; [split; discriminate |]. split; [done |]. split; discriminate. }
  destruct (Api.rt_messageStore w) as [messageStore|] eqn:Hstore.
  2:{ simpl. split; [by intros ? [=] | by intros ? ? ? ? ? [=]]. }
  pose proof (DownloadMedia_cases env messageStore (MediaApi.MessageID req)
                (MediaApi.ChatJID req)) as Hdm.
  cbv zeta in Hdm.
  destruct (DownloadMedia env messageStore (MediaApi.MessageID req) (MediaApi.ChatJID req))
    as [result dleffects] eqn:Hcall.
  simpl in Hdm. destruct Hdm as (Hiff & Hnone & Hsome & _).
  destruct (dl_success result) eqn:Hsucc.
  - assert (Herr : dl_err result = None) by by apply Hiff.
    rewrite Herr. rewrite bool_decide_eq_false_2 by (by intros []). simpl.
    split; [by intros ? [=] |]. intros ? ? ? ? ? [= <- <- <- <- <-].
    split; [apply list_elem_of_here |]. split; [done |]. split; [discriminate |].
    split; [discriminate |]. intros _.
    destruct (message_row (MediaApi.MessageID req) (MediaApi.ChatJID req) messageStore)
      as [row|] eqn:Hrow.
    2:{ destruct Hnone as [-> _]; [done |]. discriminate. }
    destruct (Hsome row eq_refl) as (_ & Hok & _).
    destruct (Hok eq_refl) as (_ & Hmt & Hfn & Habs & Hfile).
    exists req, messageStore, row. split; [done |]. split; [done |]. split; [done |].
    cbv zeta. split; [done |]. split; [by rewrite Hmt |]. split; [done |].
    destruct Hfile as [[Hstat _]|[_ (downloader & mediaData & -> & _ & Hwr & _)]].
    + by left.
    + right. exists mediaData. split; [| done].
      do 2 apply list_elem_of_further. apply list_elem_of_here.
  - simpl. split; [by intros ? [=] |]. intros ? ? ? ? ? [= <- <- <- <- <-].
    split; [apply list_elem_of_further, list_elem_of_here |].
    split; [split; discriminate |]. split; [discriminate |]. split; [| discriminate].
    intros _. destruct (dl_err result) as [err|] eqn:Herr.
    + exists req, messageStore, err. by rewrite Hcall.
    + destruct Hiff as [_ Hback]. discriminate (Hback eq_refl).
Qed.

End DownloadFacts.

(* ===================================================================== *)
(** * Properties of sending *)
(* ===================================================================== *)

Section SendFacts.
Import GoStrings WaTypes Messaging Props.

Variable uint32OutOfRange : Float64.float64 -> Z.
Variable byteOutOfRange : Float64.float64 -> Z.
Variable Sin : Float64.float64 -> Float64.float64.
Variable rngFloat64 : Z -> nat -> Float64.float64.
Variable Base : string -> string.
Variable ParseJID : string -> JID + string.
Variable ToLower : string -> string.

#[local] Abbreviation analyzeOggOpus :=
  (Audio.analyzeOggOpus uint32OutOfRange byteOutOfRange Sin rngFloat64).
#[local] Abbreviation buildMediaMessage :=
  (Messaging.buildMediaMessage uint32OutOfRange byteOutOfRange Sin rngFloat64 Base).
#[local] Abbreviation detectMediaTypeAndMime := (Messaging.detectMediaTypeAndMime ToLower).
#[local] Abbreviation parseRecipientJID := (Messaging.parseRecipientJID ParseJID).
#[local] Abbreviation SendWhatsAppMessage :=
  (Messaging.SendWhatsAppMessage uint32OutOfRange byteOutOfRange Sin rngFloat64 Base
     ParseJID ToLower).
#[local] Abbreviation sendHandler :=
  (MediaApi.sendHandler uint32OutOfRange byteOutOfRange Sin rngFloat64 Base ParseJID
     ToLower).

(** The media type [detectMediaTypeAndMime] picks is one of the four. *)
Lemma detect_kind (mediaPath : string) :
  fst (detectMediaTypeAndMime mediaPath)
  ∈ [MediaImage; MediaVideo; MediaAudio; MediaDocument].
Proof.
  unfold Messaging.detectMediaTypeAndMime.
  repeat match goal with
         | |- context [if ?c then _ else _] => destruct c
         end; simpl;
    repeat first [apply list_elem_of_here | apply list_elem_of_further].
Qed.

(** X28.  For the media type and the MIME type that
    [detectMediaTypeAndMime] picks for a path, [buildMediaMessage] ends:
    it never refuses the type as unsupported; it builds the part of that
    type with the uploaded file, the caption and the MIME type; and it
    fails or panics only where the analysis of an Ogg file does.  An audio
    file whose MIME type does not mention [ogg] is sent with 30 seconds
    and no waveform. *)
Theorem buildMediaMessage_after_detect (resp : UploadResponse)
    (mediaPath caption : string) (mediaData : Audio.ByteSlice) :
  let mediaType := fst (detectMediaTypeAndMime mediaPath) in
  let mimeType := snd (detectMediaTypeAndMime mediaPath) in
  ∃ built,
    buildMediaMessage resp mediaType mimeType mediaPath caption mediaData = Some built
    ∧ built ≠ BuildError "unsupported media type"
    ∧ (mediaType = MediaImage → built = BuiltMessage (OutImage caption mimeType resp))
    ∧ (mediaType = MediaVideo → built = BuiltMessage (OutVideo caption mimeType resp))
    ∧ (mediaType = MediaDocument →
       built = BuiltMessage (OutDocument (Base mediaPath) caption mimeType resp))
    ∧ (mediaType = MediaAudio →
       (Contains mimeType "ogg" = false →
        built = BuiltMessage (OutAudio mimeType resp 30 true []))
       ∧ (Contains mimeType "ogg" = true →
          match analyzeOggOpus mediaData with
          | Some (Audio.Returns seconds waveform) =>
              built = BuiltMessage (OutAudio mimeType resp seconds true waveform)
          | Some (Audio.Fails err) =>
              built = BuildError ("failed to analyze Ogg Opus file: " ++ err)
          | Some (Audio.Panics p) => built = BuildPanic p
          | None => False
          end)).
Proof.
  intros mediaType mimeType.
  pose proof (detect_kind mediaPath) as Hk. fold mediaType in Hk.
  unfold Messaging.buildMediaMessage.
  destruct mediaType.
  - eexists. split; [reflexivity |]. repeat split; done.
  - eexists. split; [reflexivity |]. repeat split; done.
  - destruct (Contains mimeType "ogg") eqn:Hogg.
    + pose proof (analyzeOggOpus_ends uint32OutOfRange byteOutOfRange Sin rngFloat64
                    mediaData) as [res Hres].
      rewrite Hres. destruct res as [seconds waveform|err|p];
        (eexists; split; [reflexivity |]);
        (split; [discriminate |]); repeat split; try done.
    + eexists. split; [reflexivity |]. repeat split; done.
  - eexists. split; [reflexivity |]. repeat split; done.
  - exfalso. repeat (apply elem_of_cons in Hk as [Hk|Hk]; [discriminate |]).
    by apply not_elem_of_nil in Hk.
Qed.

Lemma buildMediaMessage_ends (resp : UploadResponse) (mediaType : MediaType)
    (mimeType mediaPath caption : string) (mediaData : Audio.ByteSlice) :
  is_Some (buildMediaMessage resp mediaType mimeType mediaPath caption mediaData).
Proof.
  unfold Messaging.buildMediaMessage. destruct mediaType; try (by eexists).
  destruct (Contains mimeType "ogg"); [| by eexists].
  destruct (analyzeOggOpus_ends uint32OutOfRange byteOutOfRange Sin rngFloat64 mediaData)
    as [res Hres].
  rewrite Hres. destruct res; by eexists.
Qed.

(** A trace that does not end in a [SendMessage] delivered nothing. *)
Lemma not_delivered (env : SendEnv) (effects : list Effect) :
  (∀ to msg, last effects ≠ Some (SendMessage to msg)) → ¬ delivered env effects.
Proof.
  intros Hl (before & to & msg & Heq & _). apply (Hl to msg).
  by rewrite Heq, last_snoc.
Qed.

Lemma delivered_snoc (env : SendEnv) (sofar : list Effect) (to : JID) (msg : OutMessage) :
  delivered env (sofar ++ [SendMessage to msg]) ↔ env_SendMessage env to msg = None.
Proof.
  split.
  - intros (before & to' & msg' & Heq & Hok).
    apply (f_equal last) in Heq. rewrite !last_snoc in Heq. by injection Heq as -> ->.
  - intros Hok. by exists sofar, to, msg.
Qed.

(** What a call of [SendWhatsAppMessage] does and returns. *)
Lemma SendWhatsAppMessage_cases (env : SendEnv) (connected : bool)
    (recipient message mediaPath : string) :
  ∃ result effects,
    SendWhatsAppMessage env connected recipient message mediaPath = Some (result, effects)
    ∧ (connected = false →
       result = Returned false "Not connected to WhatsApp" ∧ effects = [])
    ∧ (∀ err, parseRecipientJID recipient = inr err → effects = [])
    ∧ (∀ m, result = Returned true m → m = "Message sent to " ++ recipient)
    ∧ ((∃ m, result = Returned true m) ↔ delivered env effects)
    ∧ (mediaPath = "" →
       effects = []
       ∨ ∃ jid, parseRecipientJID recipient = inl jid
                ∧ effects = [SendMessage jid (OutConversation message)])
    ∧ (mediaPath ≠ "" →
       effects = [] ∨ effects = [ReadFile mediaPath]
       ∨ ∃ file, env_ReadFile env mediaPath = inl file
           ∧ (effects
              = [ReadFile mediaPath;
                 Upload (Audio.elems file) (fst (detectMediaTypeAndMime mediaPath))]
              ∨ ∃ jid resp msg,
                  parseRecipientJID recipient = inl jid
                  ∧ env_Upload env (Audio.elems file)
                      (fst (detectMediaTypeAndMime mediaPath)) = inl resp
                  ∧ buildMediaMessage resp (fst (detectMediaTypeAndMime mediaPath))
                      (snd (detectMediaTypeAndMime mediaPath)) mediaPath message file
                    = Some (BuiltMessage msg)
                  ∧ effects
                    = [ReadFile mediaPath;
                       Upload (Audio.elems file) (fst (detectMediaTypeAndMime mediaPath));
                       SendMessage jid msg])).
Proof.
  unfold Messaging.SendWhatsAppMessage.
  assert (Hnil : ∀ env, ¬ delivered env []).
  { intros e. apply not_delivered. by intros ? ?. }
  destruct connected; simpl.
  2:{ eexists _, _. split; [reflexivity |]. split; [done |]. split; [done |].
      split; [by intros ? [=] |]. split; [split; [by intros [? [=]] | by intros ?%Hnil] |].
      split; [by left | by left]. }
  destruct (parseRecipientJID recipient) as [jid|perr] eqn:Hparse.
  2:{ eexists _, _. split; [reflexivity |]. split; [done |]. split; [done |].
      split; [by intros ? [=] |]. split; [split; [by intros [? [=]] | by intros ?%Hnil] |].
      split; [by left | by left]. }
  destruct (String.eqb_spec mediaPath "") as [Hp|Hp]; simpl.
  { destruct (env_SendMessage env jid (OutConversation message)) as [e|] eqn:Hsend;
      (eexists _, _; split; [reflexivity |]); (split; [done |]); (split; [done |]).
    - split; [by intros ? [=] |]. split.
      + change [SendMessage jid (OutConversation message)]
          with ([] ++ [SendMessage jid (OutConversation message)])%list.
        rewrite delivered_snoc, Hsend. split; [by intros [? [=]] | done].
      + split; [| done]. intros _. right. by exists jid.
    - split; [by intros ? [= <-] |]. split.
      + change [SendMessage jid (OutConversation message)]
          with ([] ++ [SendMessage jid (OutConversation message)])%list.
        rewrite delivered_snoc. split; [done | by eexists].
      + split; [| done]. intros _. right. by exists jid. }
  destruct (env_ReadFile env mediaPath) as [file|rerr] eqn:Hread.
  2:{ eexists _, _. split; [reflexivity |]. split; [done |]. split; [done |].
      split; [by intros ? [=] |]. split.
      - split; [by intros [? [=]] |]. intros Hd. exfalso. revert Hd.
        apply not_delivered. by intros ? ?.
      - split; [done |]. intros _. right. by left. }
  destruct (detectMediaTypeAndMime mediaPath) as [mediaType mimeType] eqn:Hdet. simpl.
  destruct (env_Upload env (Audio.elems file) mediaType) as [resp|uerr] eqn:Hup.
  2:{ eexists _, _. split; [reflexivity |]. split; [done |]. split; [done |].
      split; [by intros ? [=] |]. split.
      - split; [by intros [? [=]] |]. intros Hd. exfalso. revert Hd.
        apply not_delivered. by intros ? ?.
      - split; [done |]. intros _. right. right. exists file. split; [done |]. by left. }
  destruct (buildMediaMessage_ends resp mediaType mimeType mediaPath message file)
    as [built Hbuilt].
  rewrite Hbuilt. destruct built as [msg|berr|p].
  - destruct (env_SendMessage env jid msg) as [e|] eqn:Hsend;
      (eexists _, _; split; [reflexivity |]); (split; [done |]); (split; [done |]).
    + split; [by intros ? [=] |]. split.
      * change [ReadFile mediaPath; Upload (Audio.elems file) mediaType;
                SendMessage jid msg]
          with ([ReadFile mediaPath; Upload (Audio.elems file) mediaType]
                ++ [SendMessage jid msg])%list.
        rewrite delivered_snoc, Hsend. split; [by intros [? [=]] | done].
      * split; [done |]. intros _. right. right. exists file. split; [done |].
        right. by exists jid, resp, msg.
    + split; [by intros ? [= <-] |]. split.
      * change [ReadFile mediaPath; Upload (Audio.elems file) mediaType;
                SendMessage jid msg]
          with ([ReadFile mediaPath; Upload (Audio.elems file) mediaType]
                ++ [SendMessage jid msg])%list.
        rewrite delivered_snoc. split; [done | by eexists].
      * split; [done |]. intros _. right. right. exists file. split; [done |].
        right. by exists jid, resp, msg.
  - eexists _, _. split; [reflexivity |]. split; [done |]. split; [done |].
    split; [by intros ? [=] |]. split.
    + split; [by intros [? [=]] |]. intros Hd. exfalso. revert Hd.
      apply not_delivered. by intros ? ?.
    + split; [done |]. intros _. right. right. exists file. split; [done |]. by left.
  - eexists _, _. split; [reflexivity |]. split; [done |]. split; [done |].
    split; [by intros ? [=] |]. split.
    + split; [by intros [? [=]] |]. intros Hd. exfalso. revert Hd.
      apply not_delivered. by intros ? ?.
    + split; [done |]. intros _. right. right. exists file. split; [done |]. by left.
Qed.

(** X29.  What [SendWhatsAppMessage] does, case by case.  It always ends.
    It returns success exactly when its last call was a [SendMessage] that
    the client took without an error, and the text then names the
    recipient as it was given.  Without a connection, or with a recipient
    that does not parse, it calls nothing and fails.  Otherwise a text is
    sent as exactly one [SendMessage] of a [Conversation] part to the
    parsed recipient.  With a media path the calls are [ReadFile], then
    [Upload] of the file under the media type picked from its extension,
    then [SendMessage] of the message built from the upload: each call is
    made when the one before it succeeded, and the calls stop at the first
    failure, which the result reports. *)
Theorem SendWhatsAppMessage_reports_delivery (env : SendEnv) (connected : bool)
    (recipient message mediaPath : string) :
  let mediaType := fst (detectMediaTypeAndMime mediaPath) in
  let mimeType := snd (detectMediaTypeAndMime mediaPath) in
  let sent := λ (jid : JID) (msg : OutMessage),
    match env_SendMessage env jid msg with
    | None => Returned true ("Message sent to " ++ recipient)
    | Some err => Returned false ("Error sending message: " ++ err)
    end in
  ∃ result effects,
    SendWhatsAppMessage env connected recipient message mediaPath = Some (result, effects)
    ∧ ((∃ m, result = Returned true m) ↔ delivered env effects)
    ∧ (∀ m, result = Returned true m → m = "Message sent to " ++ recipient)
    ∧ (connected = false →
       result = Returned false "Not connected to WhatsApp" ∧ effects = [])
    ∧ (connected = true → ∀ err, parseRecipientJID recipient = inr err →
       result = Returned false err ∧ effects = [])
    ∧ (connected = true → ∀ jid, parseRecipientJID recipient = inl jid →
       (mediaPath = "" →
        effects = [SendMessage jid (OutConversation message)]
        ∧ result = sent jid (OutConversation message))
       ∧ (mediaPath ≠ "" →
          (∀ err, env_ReadFile env mediaPath = inr err →
             effects = [ReadFile mediaPath]
             ∧ result = Returned false ("Error reading media file: " ++ err))
          ∧ (∀ file, env_ReadFile env mediaPath = inl file →
             (∀ err, env_Upload env (Audio.elems file) mediaType = inr err →
                effects = [ReadFile mediaPath; Upload (Audio.elems file) mediaType]
                ∧ result = Returned false ("Error uploading media: " ++ err))
             ∧ (∀ resp, env_Upload env (Audio.elems file) mediaType = inl resp →
                ∃ built,
                  buildMediaMessage resp mediaType mimeType mediaPath message file
                  = Some built
                  ∧ match built with
                    | BuiltMessage msg =>
                        effects = [ReadFile mediaPath;
                                   Upload (Audio.elems file) mediaType;
                                   SendMessage jid msg]
                        ∧ result = sent jid msg
                    | BuildError err =>
                        effects = [ReadFile mediaPath;
                                   Upload (Audio.elems file) mediaType]
                        ∧ result = Returned false err
                    | BuildPanic p =>
                        effects = [ReadFile mediaPath;
                                   Upload (Audio.elems file) mediaType]
                        ∧ result = Panicked p
                    end)))).
Proof.
  intros mediaType mimeType sent. subst mediaType mimeType sent.
  unfold Messaging.SendWhatsAppMessage.
  assert (Hnil : ¬ delivered env []).
  { apply not_delivered. by intros ? ?. }
  destruct connected; simpl.
  2:{ eexists _, _. split; [reflexivity |].
      split; [split; [by intros [? [=]] | by intros ?%Hnil] |].
      split; [by intros ? [=] |]. split; [done |]. split; discriminate. }
  destruct (parseRecipientJID recipient) as [jid|perr] eqn:Hparse.
  2:{ eexists _, _. split; [reflexivity |].
      split; [split; [by intros [? [=]] | by intros ?%Hnil] |].
      split; [by intros ? [=] |]. split; [discriminate |].
      split; [by intros _ ? [= <-] | by intros _ ? [=]]. }
  destruct (String.eqb_spec mediaPath "") as [Hp|Hp]; simpl.
  { destruct (env_SendMessage env jid (OutConversation message)) as [e|] eqn:Hsend;
      (eexists _, _; split; [reflexivity |]).
    - split.
      { change [SendMessage jid (OutConversation message)]
          with ([] ++ [SendMessage jid (OutConversation message)])%list.
        rewrite delivered_snoc, Hsend. split; [by intros [? [=]] | done]. }
      split; [by intros ? [=] |]. split; [discriminate |].
      split; [by intros _ ? [=] |]. intros _ ? [= <-]. rewrite Hsend. by split.
    - split.
      { change [SendMessage jid (OutConversation message)]
          with ([] ++ [SendMessage jid (OutConversation message)])%list.
        rewrite delivered_snoc. split; [done | by eexists]. }
      split; [by intros ? [= <-] |]. split; [discriminate |].
      split; [by intros _ ? [=] |]. intros _ ? [= <-]. rewrite Hsend. by split. }
  destruct (env_ReadFile env mediaPath) as [file|rerr] eqn:Hread.
  2:{ eexists _, _. split; [reflexivity |]. split.
      { split; [by intros [? [=]] |]. intros Hd. exfalso. revert Hd.
        apply not_delivered. by intros ? ?. }
      split; [by intros ? [=] |]. split; [discriminate |].
      split; [by intros _ ? [=] |]. intros _ ? [= <-]. split; [done |]. intros _.
      split; [by intros ? [= <-] | by intros ? [=]]. }
  destruct (detectMediaTypeAndMime mediaPath) as [mediaType mimeType] eqn:Hdet. simpl.
  destruct (env_Upload env (Audio.elems file) mediaType) as [resp|uerr] eqn:Hup.
  2:{ eexists _, _. split; [reflexivity |]. split.
      { split; [by intros [? [=]] |]. intros Hd. exfalso. revert Hd.
        apply not_delivered. by intros ? ?. }
      split; [by intros ? [=] |]. split; [discriminate |].
      split; [by intros _ ? [=] |]. intros _ ? [= <-]. split; [done |]. intros _.
      split; [by intros ? [=] |]. intros ? [= <-]. rewrite Hup.
      split; [by intros ? [= <-] | by intros ? [=]]. }
  destruct (buildMediaMessage_ends resp mediaType mimeType mediaPath message file)
    as [built Hbuilt].
  rewrite Hbuilt. destruct built as [msg|berr|p].
  - destruct (env_SendMessage env jid msg) as [e|] eqn:Hsend;
      (eexists _, _; split; [reflexivity |]).
    + split.
      { change [ReadFile mediaPath; Upload (Audio.elems file) mediaType;
                SendMessage jid msg]
          with ([ReadFile mediaPath; Upload (Audio.elems file) mediaType]
                ++ [SendMessage jid msg])%list.
        rewrite delivered_snoc, Hsend. split; [by intros [? [=]] | done]. }
      split; [by intros ? [=] |]. split; [discriminate |].
      split; [by intros _ ? [=] |]. intros _ ? [= <-]. split; [done |]. intros _.
      split; [by intros ? [=] |]. intros ? [= <-]. rewrite Hup.
      split; [by intros ? [=] |]. intros ? [= <-].
      eexists. split; [exact Hbuilt |]. simpl. rewrite Hsend. by split.
    + split.
      { change [ReadFile mediaPath; Upload (Audio.elems file) mediaType;
                SendMessage jid msg]
          with ([ReadFile mediaPath; Upload (Audio.elems file) mediaType]
                ++ [SendMessage jid msg])%list.
        rewrite delivered_snoc. split; [done | by eexists]. }
      split; [by intros ? [= <-] |]. split; [discriminate |].
      split; [by intros _ ? [=] |]. intros _ ? [= <-]. split; [done |]. intros _.
      split; [by intros ? [=] |]. intros ? [= <-]. rewrite Hup.
      split; [by intros ? [=] |]. intros ? [= <-].
      eexists. split; [exact Hbuilt |]. simpl. rewrite Hsend. by split.
  - eexists _, _. split; [reflexivity |]. split.
    { split; [by intros [? [=]] |]. intros Hd. exfalso. revert Hd.
      apply not_delivered. by intros ? ?. }
    split; [by intros ? [=] |]. split; [discriminate |].
    split; [by intros _ ? [=] |]. intros _ ? [= <-]. split; [done |]. intros _.
    split; [by intros ? [=] |]. intros ? [= <-]. rewrite Hup.
    split; [by intros ? [=] |]. intros ? [= <-].
    eexists. split; [exact Hbuilt |]. by split.
  - eexists _, _. split; [reflexivity |]. split.
    { split; [by intros [? [=]] |]. intros Hd. exfalso. revert Hd.
      apply not_delivered. by intros ? ?. }
    split; [by intros ? [=] |]. split; [discriminate |].
    split; [by intros _ ? [=] |]. intros _ ? [= <-]. split; [done |]. intros _.
    split; [by intros ? [=] |]. intros ? [= <-]. rewrite Hup.
    split; [by intros ? [=] |]. intros ? [= <-].
    eexists. split; [exact Hbuilt |]. by split.
Qed.

(** X30.  [POST /api/send] answers 200 exactly when the message was handed to
    [SendMessage] and taken without an error.  A request that the handler
    refuses (405 for another method, 400 for a body that does not decode,
    an empty recipient, or neither a message nor a media path) or that
    finds no client (503) causes no call at all.  A message is delivered
    only for a decoded request with a recipient and with a message or a
    media path, on a client whose socket is up. *)
Theorem sendHandler_answers_200_on_delivery (env : SendEnv) (r : Api.Request)
    (decoded : option MediaApi.SendMessageRequest) (w : Api.World) :
  ∃ handled effects,
    sendHandler env r decoded w = Some (handled, effects)
    ∧ (∀ resp, handled = MediaApi.Answered resp →
         (Api.StatusCode resp = 200 ↔ delivered env effects)
         ∧ Api.StatusCode resp ∈ [200; 400; 405; 500; 503]
         ∧ (Api.StatusCode resp ∈ [400; 405; 503] → effects = []))
    ∧ (∀ p, handled = MediaApi.Aborted p → ¬ delivered env effects)
    ∧ (delivered env effects →
       Api.Method r = "POST"
       ∧ ∃ req client,
           decoded = Some req ∧ MediaApi.Recipient req ≠ ""
           ∧ (MediaApi.Message req ≠ "" ∨ MediaApi.MediaPath req ≠ "")
           ∧ Api.rt_client w = Some client ∧ Api.IsConnected client = true).
Proof.
  unfold MediaApi.sendHandler.
  assert (Hnil : ¬ delivered env []).
  { apply not_delivered. by intros ? ?. }
  assert (Hrefuse : ∀ line code,
            code ∈ [400; 405; 503] →
            ∃ handled effects,
              Some (MediaApi.Answered (Api.httpError line code), @nil Effect)
              = Some (handled, effects)
              ∧ (∀ resp, handled = MediaApi.Answered resp →
                   (Api.StatusCode resp = 200 ↔ delivered env effects)
                   ∧ Api.StatusCode resp ∈ [200; 400; 405; 500; 503]
                   ∧ (Api.StatusCode resp ∈ [400; 405; 503] → effects = []))
              ∧ (∀ p, handled = MediaApi.Aborted p → ¬ delivered env effects)
              ∧ (delivered env effects →
                 Api.Method r = "POST"
                 ∧ ∃ req client,
                     decoded = Some req ∧ MediaApi.Recipient req ≠ ""
                     ∧ (MediaApi.Message req ≠ "" ∨ MediaApi.MediaPath req ≠ "")
                     ∧ Api.rt_client w = Some client ∧ Api.IsConnected client = true)).
  { intros line code Hcode. eexists _, _. split; [reflexivity |].
    split; [| split; [done | by intros ?%Hnil]].
    intros ? [= <-]. simpl. split; [| split; [| done]].
    - split; [| by intros ?%Hnil]. intros ->.
      repeat (apply elem_of_cons in Hcode as [Hcode|Hcode]; [discriminate |]).
      by apply not_elem_of_nil in Hcode.
    - revert Hcode. rewrite !elem_of_cons. tauto. }
  destruct (String.eqb_spec (Api.Method r) "POST") as [Hm|Hm]; simpl.
  2:{ apply Hrefuse. apply list_elem_of_further, list_elem_of_here. }
  destruct decoded as [req|]; [| apply Hrefuse, list_elem_of_here].
  destruct (String.eqb_spec (MediaApi.Recipient req) "") as [Hr|Hr];
    [apply Hrefuse, list_elem_of_here |].
  destruct (String.eqb (MediaApi.Message req) "" && String.eqb (MediaApi.MediaPath req) "")
    eqn:Hboth; [apply Hrefuse, list_elem_of_here |].
  apply andb_false_iff in Hboth. rewrite !String.eqb_neq in Hboth.
  destruct (Api.rt_client w) as [client|] eqn:Hclient.
  2:{ eexists _, _. split; [reflexivity |].
      split; [| split; [done | by intros ?%Hnil]].
      intros ? [= <-]. simpl. split; [| split; [| done]].
      - split; [discriminate | by intros ?%Hnil].
      - do 4 apply list_elem_of_further. apply list_elem_of_here. }
  destruct (SendWhatsAppMessage_cases env (Api.IsConnected client) (MediaApi.Recipient req)
              (MediaApi.Message req) (MediaApi.MediaPath req))
    as (result & effects & Hsend & Hconn & _ & _ & Hdel & _).
  rewrite Hsend.
  assert (Hlast : delivered env effects →
            Api.Method r = "POST"
            ∧ ∃ req0 client0,
                Some req = Some req0 ∧ MediaApi.Recipient req0 ≠ ""
                ∧ (MediaApi.Message req0 ≠ "" ∨ MediaApi.MediaPath req0 ≠ "")
                ∧ Some client = Some client0 ∧ Api.IsConnected client0 = true).
  { intros Hd. split; [done |]. exists req, client. repeat split; try done.
    destruct (Api.IsConnected client); [done |].
    destruct Hconn as [_ ->]; [done |]. by apply Hnil in Hd. }
  destruct result as [success m|p].
  - eexists _, _. split; [reflexivity |]. split; [| split; [done | done]].
    intros ? [= <-]. destruct success; simpl.
    + split; [| split].
      * rewrite <- Hdel. split; [by eexists | done].
      * apply list_elem_of_here.
      * intros Hin. repeat (apply elem_of_cons in Hin as [Hin|Hin]; [discriminate |]).
        by apply not_elem_of_nil in Hin.
    + split; [| split].
      * rewrite <- Hdel. split; [discriminate | by intros [? [=]]].
      * do 3 apply list_elem_of_further. apply list_elem_of_here.
      * intros Hin. repeat (apply elem_of_cons in Hin as [Hin|Hin]; [discriminate |]).
        by apply not_elem_of_nil in Hin.
  - eexists _, _. split; [reflexivity |]. split; [done |]. split; [| done].
    intros ? _. rewrite <- Hdel. by intros [? [=]].
Qed.

End SendFacts.
